(** * BadgerDB buffer manager (p2/Applications/buffer.cpp)

    A shallow embedding of [BufMgr]: the frame table, the page/frame
    directory, the clock replacement sweep and the public operations
    [readPage], [unPinPage], [allocPage], [flushFile], [disposePage] and the
    destructor.

    Conventions of the embedding.
    - A member function is a computation in the monad [M]: it takes the
      state (the manager's fields and the log of pager calls) and yields an
      [outcome] together with the state reached.  A thrown exception keeps
      the mutations made before the throw, as in C++.
    - [std::uint32_t] values are [N]; arithmetic that can leave the 32-bit
      range is wrapped with [wrap32].
    - Behaviour C++ leaves undefined (null pointer dereference, array index
      out of range, [% 0]) is the outcome [Undefined].
    - The [while] loop of [allocBuf] is run with a fuel; the theorems give
      fuel bounds under which the loop finishes.
    - The pager ([File], [Page]) is external: every call is appended to the
      log [pagerLog], whether it succeeds or fails; the pages it hands back
      and the calls of [readPage] and [writePage] that fail are given by a
      [Pager] record.  A failing call throws, and nothing in buffer.cpp
      catches that exception. *)

From Stdlib Require Import NArith Lia List Bool String.
From stdpp Require Import base option list gmap.

Local Open Scope N_scope.

(** ** Basic types *)

(** A [File*] is compared by pointer identity only; a natural number names
    the object pointed to.  The null pointer is [None] in [option File]. *)
Abbreviation File := nat (only parsing).
Abbreviation PageId := N (only parsing).
Abbreviation FrameId := N (only parsing).

Definition wrap32 (x : N) : N := x mod 2 ^ 32.

(** Modelled from the spec: the class [Page] (declared outside buffer.cpp); a
    page carries its own number, [page_number()], and its contents. *)
Record Page : Type := mkPage {
  page_number : PageId;
  page_data : list N
}.

(** [Page()] as built by [new Page[bufs]]. *)
Definition Page_default : Page := mkPage 0 [].

(** Modelled from the spec: the frame descriptor [BufDesc] of buffer.h, with
    the attributes of section 3 (the pin count is an unsigned count). *)
Record BufDesc : Type := mkBufDesc {
  file : option File;
  pageNo : PageId;
  frameNo : FrameId;
  pinCnt : N;
  dirty : bool;
  valid : bool;
  refbit : bool
}.

(** Modelled from the spec: [BufDesc::Clear] (buffer.h), section 4.1: pin
    count zero, the three bits false, file and page number unset. *)
Definition Clear (d : BufDesc) : BufDesc :=
  mkBufDesc None 0 (frameNo d) 0 false false false.

(** Modelled from the spec: [BufDesc::Set] (buffer.h), section 4.1: assigns
    the identity, valid, pin count one, reference and dirty bits cleared. *)
Definition Set_ (filePtr : File) (pageNum : PageId) (d : BufDesc) : BufDesc :=
  mkBufDesc (Some filePtr) pageNum (frameNo d) 1 false true false.

Definition set_refbit (b : bool) (d : BufDesc) : BufDesc :=
  mkBufDesc (file d) (pageNo d) (frameNo d) (pinCnt d) (dirty d) (valid d) b.
Definition set_dirty (b : bool) (d : BufDesc) : BufDesc :=
  mkBufDesc (file d) (pageNo d) (frameNo d) (pinCnt d) b (valid d) (refbit d).
Definition set_pinCnt (n : N) (d : BufDesc) : BufDesc :=
  mkBufDesc (file d) (pageNo d) (frameNo d) n (dirty d) (valid d) (refbit d).
Definition set_frameNo (n : FrameId) (d : BufDesc) : BufDesc :=
  mkBufDesc (file d) (pageNo d) n (pinCnt d) (dirty d) (valid d) (refbit d).
Definition set_valid (b : bool) (d : BufDesc) : BufDesc :=
  mkBufDesc (file d) (pageNo d) (frameNo d) (pinCnt d) (dirty d) b (refbit d).

(** Modelled from the spec: [BufDesc()] (buffer.h); a frame is created in
    the clear state. *)
Definition BufDesc_default : BufDesc := mkBufDesc None 0 0 0 false false false.

(** Modelled from the spec: [BufStats] (buffer.h), three counters. *)
Record BufStats : Type := mkBufStats {
  accesses : N;
  diskreads : N;
  diskwrites : N
}.

(** The fields of [BufMgr].  Modelled from the spec: the directory
    [BufHashTbl] (bufHashTbl.cpp), a map from (file, page) to frame. *)
Record BufMgr : Type := mkBufMgr {
  numBufs : N;
  bufDescTable : list BufDesc;
  bufPool : list Page;
  hashTable : gmap (File * PageId) FrameId;
  clockHand : FrameId;
  bufStats : BufStats
}.

(** ** The pager *)

Inductive PagerCall : Type :=
| ReadPage (f : File) (p : PageId)
| WritePage (f : File) (pg : Page)
| AllocatePage (f : File)
| DeletePage (f : File) (p : PageId).

(** Modelled from the spec: the pager contract of section 6 (the classes
    [File] and [Page] are outside buffer.cpp).  What the pager answers;
    [pager_read] and [pager_allocate] see the calls made so far;
    [pager_filename] is [file->filename()], [pager_isOpen] is
    [File::isOpen].  [read_page] and [write_page] may fail:
    [pager_read_ok] and [pager_write_ok] tell, from the calls made so far,
    whether the call succeeds.  The contract names no failure of
    [allocate_page] and [delete_page]. *)
Record Pager : Type := mkPager {
  pager_read : list PagerCall → File → PageId → Page;
  pager_allocate : list PagerCall → File → Page;
  pager_filename : File → string;
  pager_isOpen : string → bool;
  pager_read_ok : list PagerCall → File → PageId → bool;
  pager_write_ok : list PagerCall → File → Page → bool
}.

(** ** Exceptions and the monad *)

(** The exception classes buffer.cpp names, the two of the directory, and,
    modelled from the spec (section 7, pager I/O errors), the exception of a
    failing pager call, thrown by code outside buffer.cpp. *)
Inductive exn : Type :=
| BufferExceededException
| PageNotPinnedException (name : string) (pageNo : PageId) (frameNo : FrameId)
| PagePinnedException (name : string) (pageNo : PageId) (frameNo : FrameId)
| BadBufferException (frameNo : FrameId) (dirty valid refbit : bool)
| HashNotFoundException
| HashAlreadyPresentException
| PagerIOException (call : PagerCall).

Inductive outcome (A : Type) : Type :=
| Return (a : A)
| Throw (e : exn)
| Undefined
| OutOfFuel.
Arguments Return {A} a.
Arguments Throw {A} e.
Arguments Undefined {A}.
Arguments OutOfFuel {A}.

Record State : Type := mkState {
  mgr : BufMgr;
  pagerLog : list PagerCall
}.

Definition M (A : Type) : Type := State → outcome A * State.

Definition ret {A} (a : A) : M A := fun s => (Return a, s).
Definition throw {A} (e : exn) : M A := fun s => (Throw e, s).
Definition undefined {A} : M A := fun s => (Undefined, s).
Definition out_of_fuel {A} : M A := fun s => (OutOfFuel, s).

Definition bind {A B} (c : M A) (k : A → M B) : M B := fun s =>
  match c s with
  | (Return a, s') => k a s'
  | (Throw e, s') => (Throw e, s')
  | (Undefined, s') => (Undefined, s')
  | (OutOfFuel, s') => (OutOfFuel, s')
  end.

Notation "'let*' x ':=' c 'in' k" := (bind c (fun x => k))
  (at level 10, x name, c at level 100, k at level 200).
Notation "c ';;' k" := (bind c (fun _ => k))
  (at level 100, k at level 200, right associativity).

Definition gets {A} (f : BufMgr → A) : M A := fun s => (Return (f (mgr s)), s).
Definition modify (f : BufMgr → BufMgr) : M unit := fun s =>
  (Return tt, mkState (f (mgr s)) (pagerLog s)).

(** [try { c } catch (...) { h }]: [h e] is the body of the first handler
    that matches the exception object [e], and [None] when no handler
    matches, in which case the exception leaves the try block. *)
Definition try_catch {A} (c : M A) (h : exn → option (M A)) : M A := fun s =>
  match c s with
  | (Throw e, s') => match h e with Some k => k s' | None => (Throw e, s') end
  | r => r
  end.

(** [catch (HashNotFoundException& e)]: matches a thrown
    [HashNotFoundException]. *)
Definition is_HashNotFound (e : exn) : bool :=
  match e with HashNotFoundException => true | _ => false end.

(** [catch (BufferExceededException ())] and [catch (HashNotFoundException ())]:
    the exception declaration is a type followed by the abstract declarator
    [()], that is the function type "function of no argument returning the
    class".  A handler of function type is adjusted to pointer to function
    (C++ [except.handle]), and an exception object of class type never
    matches a pointer-to-function handler.  The handler is therefore present
    but matches none of the exceptions thrown in this program. *)
Definition catch_function_pointer {A} : exn → option (M A) := fun _ => None.

(** ** Array accesses *)

Definition with_bufDescTable (f : list BufDesc → list BufDesc) (m : BufMgr) : BufMgr :=
  mkBufMgr (numBufs m) (f (bufDescTable m)) (bufPool m) (hashTable m) (clockHand m) (bufStats m).
Definition with_bufPool (f : list Page → list Page) (m : BufMgr) : BufMgr :=
  mkBufMgr (numBufs m) (bufDescTable m) (f (bufPool m)) (hashTable m) (clockHand m) (bufStats m).
Definition with_hashTable (f : gmap (File * PageId) FrameId → gmap (File * PageId) FrameId)
    (m : BufMgr) : BufMgr :=
  mkBufMgr (numBufs m) (bufDescTable m) (bufPool m) (f (hashTable m)) (clockHand m) (bufStats m).
Definition with_clockHand (h : FrameId) (m : BufMgr) : BufMgr :=
  mkBufMgr (numBufs m) (bufDescTable m) (bufPool m) (hashTable m) h (bufStats m).
Definition with_bufStats (f : BufStats → BufStats) (m : BufMgr) : BufMgr :=
  mkBufMgr (numBufs m) (bufDescTable m) (bufPool m) (hashTable m) (clockHand m) (f (bufStats m)).

(** [bufDescTable[i]] read. *)
Definition get_desc (i : FrameId) : M BufDesc := fun s =>
  match bufDescTable (mgr s) !! N.to_nat i with
  | Some d => (Return d, s)
  | None => (Undefined, s)
  end.

(** [bufDescTable[i].field = ...]. *)
Definition upd_desc (i : FrameId) (f : BufDesc → BufDesc) : M unit := fun s =>
  match bufDescTable (mgr s) !! N.to_nat i with
  | Some d => (Return tt, mkState (with_bufDescTable (<[N.to_nat i := f d]>) (mgr s)) (pagerLog s))
  | None => (Undefined, s)
  end.

(** [bufPool[i]] read. *)
Definition get_page (i : FrameId) : M Page := fun s =>
  match bufPool (mgr s) !! N.to_nat i with
  | Some p => (Return p, s)
  | None => (Undefined, s)
  end.

(** [bufPool[i] = p]. *)
Definition set_page (i : FrameId) (p : Page) : M unit := fun s =>
  if decide (N.to_nat i < length (bufPool (mgr s)))%nat
  then (Return tt, mkState (with_bufPool (<[N.to_nat i := p]>) (mgr s)) (pagerLog s))
  else (Undefined, s).

(** ** The directory *)

(** Modelled from the spec: [BufHashTbl::lookup], section 4.2: fails with
    NotFound when the key is absent. *)
Definition BufHashTbl_lookup (f : File) (p : PageId) : M FrameId := fun s =>
  match hashTable (mgr s) !! (f, p) with
  | Some fr => (Return fr, s)
  | None => (Throw HashNotFoundException, s)
  end.

(** Modelled from the spec: [BufHashTbl::insert], section 4.2: fails with
    DuplicateKey when the key already maps. *)
Definition BufHashTbl_insert (f : File) (p : PageId) (fr : FrameId) : M unit := fun s =>
  match hashTable (mgr s) !! (f, p) with
  | Some _ => (Throw HashAlreadyPresentException, s)
  | None => (Return tt, mkState (with_hashTable (<[(f, p) := fr]>) (mgr s)) (pagerLog s))
  end.

(** Modelled from the spec: [BufHashTbl::remove], section 4.2: fails with
    NotFound when the key is absent.  The file argument is the pointer held
    by a descriptor; the failure path reads the file's name, so a null
    pointer with no entry is undefined. *)
Definition BufHashTbl_remove (fo : option File) (p : PageId) : M unit := fun s =>
  match fo with
  | Some f =>
      match hashTable (mgr s) !! (f, p) with
      | Some _ => (Return tt, mkState (with_hashTable (delete (f, p)) (mgr s)) (pagerLog s))
      | None => (Throw HashNotFoundException, s)
      end
  | None => (Undefined, s)
  end.

(** ** Pager calls *)

Definition log_call (c : PagerCall) : M unit := fun s =>
  (Return tt, mkState (mgr s) (pagerLog s ++ [c])).

Section Manager.

Variable pager : Pager.

(** [file->readPage(pageNo)]: the page read, or the pager's exception. *)
Definition File_readPage (f : File) (p : PageId) : M Page := fun s =>
  if pager_read_ok pager (pagerLog s) f p
  then (Return (pager_read pager (pagerLog s) f p),
        mkState (mgr s) (pagerLog s ++ [ReadPage f p]))
  else (Throw (PagerIOException (ReadPage f p)),
        mkState (mgr s) (pagerLog s ++ [ReadPage f p])).

(** [file->allocatePage()]. *)
Definition File_allocatePage (f : File) : M Page := fun s =>
  (Return (pager_allocate pager (pagerLog s) f), mkState (mgr s) (pagerLog s ++ [AllocatePage f])).

(** [file->writePage(page)] through a descriptor's file pointer: returns,
    or throws the pager's exception. *)
Definition File_writePage (fo : option File) (pg : Page) : M unit :=
  match fo with
  | Some f => fun s =>
      if pager_write_ok pager (pagerLog s) f pg
      then (Return tt, mkState (mgr s) (pagerLog s ++ [WritePage f pg]))
      else (Throw (PagerIOException (WritePage f pg)),
            mkState (mgr s) (pagerLog s ++ [WritePage f pg]))
  | None => undefined
  end.

(** [file->deletePage(pageNo)]. *)
Definition File_deletePage (f : File) (p : PageId) : M unit := log_call (DeletePage f p).

(** ** Constructor *)

Definition BufMgr_new (bufs : N) : BufMgr :=
  mkBufMgr bufs
    (map (fun i => set_valid false (set_frameNo (N.of_nat i) BufDesc_default))
         (seq 0 (N.to_nat bufs)))
    (replicate (N.to_nat bufs) Page_default)
    ∅
    (wrap32 (bufs + 2 ^ 32 - 1))
    (mkBufStats 0 0 0).

(** ** The clock *)

Definition advanceClock : M unit := fun s =>
  if numBufs (mgr s) =? 0 then (Undefined, s)
  else (Return tt,
        mkState (with_clockHand (wrap32 (clockHand (mgr s) + 1) mod numBufs (mgr s)) (mgr s))
                (pagerLog s)).

(** How the [while] loop of [allocBuf] is left: by the [return] of line 97,
    or by [break] or a false loop condition, with the local [pinCount]. *)
Inductive loop_exit : Type :=
| LoopReturn (frame : FrameId)
| LoopDone (pinCount : N).

Fixpoint allocBuf_loop (fuel : nat) (pinCount : N) : M loop_exit :=
  let* n := gets numBufs in
  if pinCount <=? n then
    match fuel with
    | O => out_of_fuel
    | S fuel' =>
        advanceClock;;
        let* h := gets clockHand in
        let* d := get_desc h in
        if negb (valid d) then ret (LoopReturn (frameNo d))
        else if refbit d then
          upd_desc h (set_refbit false);;
          allocBuf_loop fuel' pinCount
        else if pinCnt d =? 0 then ret (LoopDone pinCount)
        else allocBuf_loop fuel' (wrap32 (pinCount + 1))
    end
  else ret (LoopDone pinCount).

(** [allocBuf] from the [while] of line 92 on, for a value of the local
    [pinCount]: the loop, then lines 109 to 122. *)
Definition allocBuf_from (fuel : nat) (pinCount : N) : M FrameId :=
  let* r := allocBuf_loop fuel pinCount in
  match r with
  | LoopReturn frame => ret frame
  | LoopDone pinCount =>
      let* n := gets numBufs in
      if n <? pinCount then throw BufferExceededException
      else
        let* h := gets clockHand in
        let* d := get_desc h in
        let* frame :=
          (if dirty d then
             let* pg := get_page h in
             File_writePage (file d) pg;;
             ret (frameNo d)
           else ret (frameNo d)) in
        BufHashTbl_remove (file d) (pageNo d);;
        upd_desc h Clear;;
        ret frame
  end.

(** [std::uint32_t pinCount = 0;] and the rest of the body. *)
Definition allocBuf (fuel : nat) : M FrameId := allocBuf_from fuel 0.

(** ** Public operations *)

(** The result is the frame whose buffer the returned pointer designates
    ([page = &bufPool[frameNo]]). *)
Definition readPage (fuel : nat) (filePtr : File) (pageNum : PageId) : M FrameId :=
  let* frameNo :=
    try_catch
      (let* frameNo := BufHashTbl_lookup filePtr pageNum in
       upd_desc frameNo (set_refbit true);;
       upd_desc frameNo (fun d => set_pinCnt (pinCnt d + 1) d);;
       ret frameNo)
      (fun e =>
         if is_HashNotFound e then
           Some (try_catch
                   (let* frameNo := allocBuf fuel in
                    let* pg := File_readPage filePtr pageNum in
                    set_page frameNo pg;;
                    BufHashTbl_insert filePtr pageNum frameNo;;
                    upd_desc frameNo (Set_ filePtr pageNum);;
                    ret frameNo)
                   catch_function_pointer)
         else None) in
  ret frameNo.

Definition unPinPage (filePtr : File) (pageNum : PageId) (isDirty : bool) : M unit :=
  try_catch
    (let* frameNo := BufHashTbl_lookup filePtr pageNum in
     let* d := get_desc frameNo in
     if pinCnt d =? 0 then
       throw (PageNotPinnedException (pager_filename pager filePtr) (pageNo d) frameNo)
     else if 0 <? pinCnt d then
       (if isDirty then upd_desc frameNo (set_dirty true) else ret tt);;
       upd_desc frameNo (fun d => set_pinCnt (pinCnt d - 1) d)
     else ret tt)
    catch_function_pointer.

(** The result is the page number assigned by the pager and the frame. *)
Definition allocPage (fuel : nat) (filePtr : File) : M (PageId * FrameId) :=
  let* frameNo := allocBuf fuel in
  let* pg := File_allocatePage filePtr in
  set_page frameNo pg;;
  let pageNum := page_number pg in
  BufHashTbl_insert filePtr pageNum frameNo;;
  upd_desc frameNo (Set_ filePtr pageNum);;
  ret (pageNum, frameNo).

(** [for (std::uint32_t i = 0; i < numBufs; i++) body]: [body] on
    0, 1, ... in turn, stopping at the first exception. *)
Fixpoint for_each (l : list nat) (body : N → M unit) : M unit :=
  match l with
  | [] => ret tt
  | i :: l' => body (N.of_nat i);; for_each l' body
  end.

Definition incr_accesses (st : BufStats) : BufStats :=
  mkBufStats (accesses st + 1) (diskreads st) (diskwrites st).
Definition incr_diskwrites (st : BufStats) : BufStats :=
  mkBufStats (accesses st) (diskreads st) (diskwrites st + 1).

(** The body of the loop of [flushFile] for the index [i]. *)
Definition flushFile_body (filePtr : File) (i : N) : M unit :=
  let* currDesc := get_desc i in
  modify (with_bufStats incr_accesses);;
  if decide (Some filePtr = file currDesc) then
    if negb (valid currDesc) then
      throw (BadBufferException (frameNo currDesc) (dirty currDesc) (valid currDesc)
                                (refbit currDesc))
    else if 0 <? pinCnt currDesc then
      throw (PagePinnedException (pager_filename pager filePtr) (pageNo currDesc)
                                 (frameNo currDesc))
    else
      (if dirty currDesc then
         let* dirtyPage := get_page (frameNo currDesc) in
         File_writePage (file currDesc) dirtyPage;;
         upd_desc i (set_dirty false);;
         modify (with_bufStats incr_diskwrites)
       else ret tt);;
      BufHashTbl_remove (Some filePtr) (pageNo currDesc);;
      upd_desc i Clear
  else ret tt.

Definition flushFile (filePtr : File) : M unit :=
  let* n := gets numBufs in
  for_each (seq 0 (N.to_nat n)) (flushFile_body filePtr).

Definition disposePage (filePtr : File) (pageNum : PageId) : M unit :=
  try_catch
    (let* frameNo := BufHashTbl_lookup filePtr pageNum in
     let* d := get_desc frameNo in
     BufHashTbl_remove (file d) (pageNo d);;
     upd_desc frameNo Clear)
    catch_function_pointer;;
  File_deletePage filePtr pageNum.

(** The body of the loop of the destructor for the index [i]. *)
Definition destructor_body (i : N) : M unit :=
  let* d := get_desc i in
  if dirty d then
    match file d with
    | None => undefined
    | Some f =>
        if pager_isOpen pager (pager_filename pager f) then
          let* pg := get_page i in
          File_writePage (Some f) pg;;
          upd_desc i (set_dirty false);;
          modify (with_bufStats incr_diskwrites)
        else ret tt
    end
  else ret tt.

(** The loop of [~BufMgr]. *)
Definition destructor_flush : M unit :=
  let* n := gets numBufs in
  for_each (seq 0 (N.to_nat n)) destructor_body.

(** [~BufMgr]: the loop, then both arrays are released.  The destructor has
    no handler: the exception of a failing [writePage] leaves it (and, a
    destructor being [noexcept] unless declared otherwise, ends the program);
    this is the outcome [Throw] here. *)
Definition BufMgr_destructor : M unit :=
  destructor_flush;;
  modify (with_bufPool (fun _ => []));;
  modify (with_bufDescTable (fun _ => [])).

End Manager.

(** ** Concrete pools used by the examples *)

Definition fileA : File := 0%nat.
Definition fileB : File := 1%nat.

(** A pager in which page [p] of any file reads back as the empty page
    numbered [p], new pages are numbered by the length of the log, file
    [fileA] is named "A" and is the only open file; no call fails. *)
Definition demo_pager : Pager :=
  mkPager (fun _ _ p => mkPage p [])
          (fun log _ => mkPage (N.of_nat (length log)) [])
          (fun f => if Nat.eqb f 0 then "A"%string else "B"%string)
          (fun name => String.eqb name "A")
          (fun _ _ _ => true)
          (fun _ _ _ => true).

(** Whether the page [p] of [f] was deleted by one of the calls of [log]. *)
Definition deleted (log : list PagerCall) (f : File) (p : PageId) : bool :=
  existsb (fun c => match c with
                    | DeletePage g q => Nat.eqb g f && (q =? p)
                    | _ => false
                    end) log.

(** A pager like [demo_pager] in which reading a page fails once the page
    has been deleted. *)
Definition strict_pager : Pager :=
  mkPager (fun _ _ p => mkPage p [])
          (fun log _ => mkPage (N.of_nat (length log)) [])
          (fun f => if Nat.eqb f 0 then "A"%string else "B"%string)
          (fun name => String.eqb name "A")
          (fun log f p => negb (deleted log f p))
          (fun _ _ _ => true).

(** A pager like [demo_pager] on a medium that cannot be written: every
    [writePage] fails. *)
Definition faulty_pager : Pager :=
  mkPager (fun _ _ p => mkPage p [])
          (fun log _ => mkPage (N.of_nat (length log)) [])
          (fun f => if Nat.eqb f 0 then "A"%string else "B"%string)
          (fun name => String.eqb name "A")
          (fun _ _ _ => true)
          (fun _ _ _ => false).

Definition init_state (bufs : N) : State := mkState (BufMgr_new bufs) [].

(** The state reached by a computation, and its outcome. *)
Definition exec {A} (c : M A) (s : State) : State := snd (c s).
Definition result {A} (c : M A) (s : State) : outcome A := fst (c s).

(** The sample pools of the end-to-end scenarios of the specification. *)

(** Pool of two frames after [fetch(A,0); fetch(A,1)]: both frames pinned. *)
Definition pool_two_pinned : State :=
  exec (readPage demo_pager 8 fileA 0;; readPage demo_pager 8 fileA 1) (init_state 2).

(** Pool of one frame after [fetch(A,0); unpin(A,0,true)]. *)
Definition pool_one_dirty : State :=
  exec (readPage demo_pager 8 fileA 0;; unPinPage demo_pager fileA 0 true) (init_state 1).


(** Pool of three frames after: fetching pages 0, 1, 2 of [fileA]; a fetch
    of page 3, which fails since every frame is pinned and whose sweep
    leaves all reference bits clear and the hand on frame 0; fetching page 0
    a second time and unpinning it twice.  Frames 1 and 2 are pinned with
    clear reference bits, frame 0 is unpinned with its reference bit set. *)
Definition pool_one_unpinned : State :=
  exec (readPage demo_pager 8 fileA 0;;
        unPinPage demo_pager fileA 0 false;; unPinPage demo_pager fileA 0 false)
    (exec (readPage demo_pager 8 fileA 3)
       (exec (readPage demo_pager 8 fileA 0;; readPage demo_pager 8 fileA 1;;
              readPage demo_pager 8 fileA 2)
          (init_state 3))).


(** Pool of two frames after [alloc_page(A) -> 0; unpin(A,0,true)]. *)
Definition pool_alloc_dirty : State :=
  exec (allocPage demo_pager 8 fileA;; unPinPage demo_pager fileA 0 true) (init_state 2).

(** Pool of three frames holding page 0 of [fileA] (dirty, unpinned), page 0
    of [fileB] (pinned) and page 1 of [fileA] (clean, unpinned). *)
Definition pool_two_files : State :=
  exec (readPage demo_pager 8 fileA 0;; readPage demo_pager 8 fileB 0;;
        readPage demo_pager 8 fileA 1;;
        unPinPage demo_pager fileA 0 true;; unPinPage demo_pager fileA 1 false)
       (init_state 3).

(** ** Predicates on pools *)

(** Both arrays have [numBufs] entries, as the constructor builds them. *)
Definition arrays_sized (m : BufMgr) : Prop :=
  length (bufDescTable m) = N.to_nat (numBufs m) ∧
  length (bufPool m) = N.to_nat (numBufs m).

(** Every frame holds a page and is pinned. *)
Definition all_pinned (m : BufMgr) : Prop :=
  Forall (fun d => valid d = true ∧ pinCnt d ≠ 0) (bufDescTable m).

(** Number of reference bits set in the frame table. *)
Fixpoint ref_count (t : list BufDesc) : nat :=
  match t with
  | [] => 0%nat
  | d :: t' => ((if refbit d then 1 else 0) + ref_count t')%nat
  end.

(** [t'] is [t] up to reference bits that were cleared. *)
Definition ref_cleared (t t' : list BufDesc) : Prop :=
  Forall2 (fun d d' => d' = d ∨ d' = set_refbit false d) t t'.

(** What a sweep of the clock may change: the hand and reference bits. *)
Definition sweep_rel (s s' : State) : Prop :=
  numBufs (mgr s') = numBufs (mgr s) ∧
  ref_cleared (bufDescTable (mgr s)) (bufDescTable (mgr s')) ∧
  bufPool (mgr s') = bufPool (mgr s) ∧
  hashTable (mgr s') = hashTable (mgr s) ∧
  bufStats (mgr s') = bufStats (mgr s) ∧
  pagerLog s' = pagerLog s.

(** What [allocBuf] does besides sweeping: at most one write-back, no
    change to the statistics, to [numBufs] or to the page buffers. *)
Definition alloc_rel (s s' : State) : Prop :=
  numBufs (mgr s') = numBufs (mgr s) ∧
  bufPool (mgr s') = bufPool (mgr s) ∧
  bufStats (mgr s') = bufStats (mgr s) ∧
  length (bufDescTable (mgr s')) = length (bufDescTable (mgr s)) ∧
  (pagerLog s' = pagerLog s ∨ ∃ f pg, pagerLog s' = pagerLog s ++ [WritePage f pg]).

(** The next position of the clock hand. *)
Definition next_hand (m : BufMgr) : FrameId :=
  wrap32 (clockHand m + 1) mod numBufs m.

(** The state after [advanceClock]. *)
Definition advanced (s : State) : State :=
  mkState (with_clockHand (next_hand (mgr s)) (mgr s)) (pagerLog s).

(** The state after [bufDescTable[i] = f(bufDescTable[i])]. *)
Definition updated (i : FrameId) (d : BufDesc) (s : State) : State :=
  mkState (with_bufDescTable (<[N.to_nat i := d]>) (mgr s)) (pagerLog s).

(** The pool in which the pin count of frame [j] is replaced by [n]. *)
Definition repin (j : nat) (n : N) (s : State) : State :=
  mkState (with_bufDescTable (alter (set_pinCnt n) j) (mgr s)) (pagerLog s).

(** The pager calls a shutdown owes: one write per dirty frame of an open
    file, in frame order. *)
Fixpoint shutdown_writes (pager : Pager) (t : list BufDesc) (p : list Page) : list PagerCall :=
  match t, p with
  | d :: t', pg :: p' =>
      match file d with
      | Some f =>
          if dirty d && pager_isOpen pager (pager_filename pager f)
          then WritePage f pg :: shutdown_writes pager t' p'
          else shutdown_writes pager t' p'
      | None => shutdown_writes pager t' p'
      end
  | _, _ => []
  end.

Definition is_write_of (f : File) (c : PagerCall) : Prop := ∃ pg, c = WritePage f pg.

(** What [flushFile] on the file [f] may change: frames of [f], directory
    entries of [f], the statistics, and the pager log by writes to [f]. *)
Definition flush_rel (f : File) (s s' : State) : Prop :=
  numBufs (mgr s') = numBufs (mgr s) ∧
  bufPool (mgr s') = bufPool (mgr s) ∧
  clockHand (mgr s') = clockHand (mgr s) ∧
  length (bufDescTable (mgr s')) = length (bufDescTable (mgr s)) ∧
  diskreads (bufStats (mgr s')) = diskreads (bufStats (mgr s)) ∧
  (∀ j d, bufDescTable (mgr s) !! j = Some d → file d ≠ Some f →
          bufDescTable (mgr s') !! j = Some d) ∧
  (∀ g p, g ≠ f → hashTable (mgr s') !! (g, p) = hashTable (mgr s) !! (g, p)) ∧
  (∃ w, pagerLog s' = pagerLog s ++ w ∧ Forall (is_write_of f) w).

(** The invariants of the frame table and the directory (section 3 of the
    specification: I1, I2, and the clear state of invalid frames), with the
    sizes of the two arrays and the frame numbers the constructor sets. *)
Record wf_pool (m : BufMgr) : Prop := mk_wf_pool {
  wf_table_len : length (bufDescTable m) = N.to_nat (numBufs m);
  wf_pool_len : length (bufPool m) = N.to_nat (numBufs m);
  wf_frameNo : ∀ i d, bufDescTable m !! i = Some d → frameNo d = N.of_nat i;
  wf_dir_frame : ∀ f p fr, hashTable m !! (f, p) = Some fr →
    ∃ d, bufDescTable m !! N.to_nat fr = Some d ∧
         valid d = true ∧ file d = Some f ∧ pageNo d = p;
  wf_frame_dir : ∀ i d, bufDescTable m !! i = Some d → valid d = true →
    ∃ f, file d = Some f ∧ hashTable m !! (f, pageNo d) = Some (N.of_nat i);
  wf_invalid : ∀ i d, bufDescTable m !! i = Some d → valid d = false → d = Clear d
}.

(** ** Clients of the manager *)

(** An outcome that is not the exhaustion of the fuel. *)
Definition finished {A} (o : outcome A) : bool :=
  match o with OutOfFuel => false | _ => true end.

(** An outcome that is not undefined behaviour. *)
Definition defined {A} (o : outcome A) : bool :=
  match o with Undefined => false | _ => true end.

(** An outcome that is the exception of a failing pager call. *)
Definition pager_failed {A} (o : outcome A) : bool :=
  match o with Throw (PagerIOException _) => true | _ => false end.

(** [accesses] advanced by [n], the other counters as they are. *)
Definition add_accesses (n : N) (st : BufStats) : BufStats :=
  mkBufStats (accesses st + n) (diskreads st) (diskwrites st).

(** A call of one of the public operations. *)
Inductive request : Type :=
| ReqReadPage (f : File) (p : PageId)
| ReqUnPinPage (f : File) (p : PageId) (isDirty : bool)
| ReqAllocPage (f : File)
| ReqFlushFile (f : File)
| ReqDisposePage (f : File) (p : PageId).

Definition serve (pager : Pager) (fuel : nat) (r : request) : M unit :=
  match r with
  | ReqReadPage f p => readPage pager fuel f p;; ret tt
  | ReqUnPinPage f p b => unPinPage pager f p b
  | ReqAllocPage f => allocPage pager fuel f;; ret tt
  | ReqFlushFile f => flushFile pager f
  | ReqDisposePage f p => disposePage f p
  end.

(** A client that issues the calls of [rs] one after the other and goes on
    after a call that threw. *)
Fixpoint serve_all (pager : Pager) (fuel : nat) (rs : list request) (s : State) : State :=
  match rs with
  | [] => s
  | r :: rs' => serve_all pager fuel rs' (exec (serve pager fuel r) s)
  end.

(** [advanceClock] called [k] times. *)
Fixpoint advanceClock_times (k : nat) : M unit :=
  match k with
  | O => ret tt
  | S k' => advanceClock;; advanceClock_times k'
  end.

(** The pool has a frame that holds no page. *)
Definition has_free_frame (m : BufMgr) : Prop :=
  ∃ i d, bufDescTable m !! i = Some d ∧ valid d = false.

(** A frame after a flush of the file [f]: cleared when it belonged to
    [f], untouched otherwise. *)
Definition flushed (f : File) (d : BufDesc) : BufDesc :=
  if decide (file d = Some f) then Clear d else d.

(** The pager calls a flush of [f] owes for the frames [t] with the buffers
    [p]: one write per dirty frame of [f], in frame order. *)
Fixpoint flush_writes (f : File) (t : list BufDesc) (p : list Page) : list PagerCall :=
  match t, p with
  | d :: t', pg :: p' =>
      if decide (file d = Some f) then
        if dirty d then WritePage f pg :: flush_writes f t' p' else flush_writes f t' p'
      else flush_writes f t' p'
  | _, _ => []
  end.

(** The writes [ws] made one after the other, the first from the log [log]:
    [None] when all of them succeed, and otherwise the writes that succeeded
    and the one that failed. *)
Fixpoint failed_write (pager : Pager) (log : list PagerCall) (ws : list PagerCall)
    : option (list PagerCall * PagerCall) :=
  match ws with
  | [] => None
  | c :: ws' =>
      if match c with
         | WritePage f pg => pager_write_ok pager log f pg
         | _ => true
         end
      then match failed_write pager (log ++ [c]) ws' with
           | None => None
           | Some (done, c') => Some (c :: done, c')
           end
      else Some ([], c)
  end.

(** What a loop that makes the writes [ws], counting each success in
    [diskwrites], has done when it leaves the state [s'] with the outcome
    [o]: every write, or the writes up to the first that fails, whose
    exception ends the loop. *)
Definition writes_done (pager : Pager) (ws : list PagerCall) (s : State)
    (o : outcome unit) (s' : State) : Prop :=
  match failed_write pager (pagerLog s) ws with
  | None =>
      o = Return tt ∧
      pagerLog s' = pagerLog s ++ ws ∧
      diskwrites (bufStats (mgr s')) = diskwrites (bufStats (mgr s)) + N.of_nat (length ws)
  | Some (done, c) =>
      o = Throw (PagerIOException c) ∧
      pagerLog s' = pagerLog s ++ done ++ [c] ∧
      diskwrites (bufStats (mgr s')) = diskwrites (bufStats (mgr s)) + N.of_nat (length done)
  end.

(** ** Proof tools *)

(** Unfolding of the monad and of the primitive accesses. *)
Ltac munfold :=
  unfold bind, ret, throw, undefined, out_of_fuel, gets, modify, try_catch,
    catch_function_pointer, get_desc, upd_desc, get_page, set_page,
    BufHashTbl_lookup, BufHashTbl_insert, BufHashTbl_remove,
    File_readPage, File_allocatePage, File_writePage, File_deletePage, log_call in *.

(** Case analysis on the scrutinee of the first [match] of the goal. *)
Ltac mcase :=
  match goal with
  | |- context [match ?x with _ => _ end] =>
      lazymatch x with
      | context [match _ with _ => _ end] => fail
      | _ => let E := fresh "E" in destruct x eqn:E; simpl in *
      end
  end.

(** ** Basic facts *)

Lemma wrap32_small (x : N) : x < 2 ^ 32 → wrap32 x = x.
Proof. intros H. unfold wrap32. apply N.mod_small, H. Qed.

Lemma next_hand_lt (m : BufMgr) : numBufs m ≠ 0 → next_hand m < numBufs m.
Proof. intros H. unfold next_hand. apply N.mod_lt, H. Qed.

Lemma ref_cleared_refl (t : list BufDesc) : ref_cleared t t.
Proof. induction t; constructor; auto. Qed.

Lemma set_refbit_idem (d : BufDesc) : set_refbit false (set_refbit false d) = set_refbit false d.
Proof. reflexivity. Qed.

Lemma ref_cleared_trans (t1 t2 t3 : list BufDesc) :
  ref_cleared t1 t2 → ref_cleared t2 t3 → ref_cleared t1 t3.
Proof.
  intros H12. revert t3. induction H12 as [|d1 d2 t1 t2 Hd _ IH]; intros t3 H23.
  - inversion H23. constructor.
  - inversion H23 as [|? d3 ? t3' Hd' Ht']; subst. constructor; [|apply IH, Ht'].
    destruct Hd as [->| ->], Hd' as [->| ->]; auto.
Qed.

Lemma ref_cleared_insert (t : list BufDesc) (i : nat) (d : BufDesc) :
  t !! i = Some d → ref_cleared t (<[i := set_refbit false d]> t).
Proof.
  revert i. induction t as [|a t IH]; intros [|i] H; simpl in *; try discriminate.
  - injection H as ->. constructor; [auto | apply ref_cleared_refl].
  - constructor; [auto | apply IH, H].
Qed.

Lemma ref_cleared_length (t t' : list BufDesc) : ref_cleared t t' → length t' = length t.
Proof. intros H. symmetry. eapply Forall2_length, H. Qed.

Lemma sweep_rel_refl (s : State) : sweep_rel s s.
Proof. unfold sweep_rel. repeat split. apply ref_cleared_refl. Qed.

Lemma sweep_rel_trans (s1 s2 s3 : State) : sweep_rel s1 s2 → sweep_rel s2 s3 → sweep_rel s1 s3.
Proof.
  unfold sweep_rel. intros (?&?&?&?&?&?) (?&?&?&?&?&?).
  repeat split; try congruence. eapply ref_cleared_trans; eauto.
Qed.

Lemma sweep_rel_advanced (s : State) : sweep_rel s (advanced s).
Proof. unfold sweep_rel, advanced. simpl. repeat split. apply ref_cleared_refl. Qed.

Lemma sweep_rel_updated (s : State) (h : FrameId) (d : BufDesc) :
  bufDescTable (mgr s) !! N.to_nat h = Some d →
  sweep_rel s (updated h (set_refbit false d) s).
Proof. intros H. unfold sweep_rel, updated. simpl. repeat split. apply ref_cleared_insert, H. Qed.

(** One turn of the loop of [allocBuf], unfolded. *)
Lemma allocBuf_loop_unfold (fuel : nat) (pc : N) (s : State) (d : BufDesc) :
  pc <= numBufs (mgr s) → numBufs (mgr s) ≠ 0 →
  bufDescTable (mgr s) !! N.to_nat (next_hand (mgr s)) = Some d →
  allocBuf_loop (S fuel) pc s =
    if negb (valid d) then (Return (LoopReturn (frameNo d)), advanced s)
    else if refbit d then
      allocBuf_loop fuel pc (updated (next_hand (mgr s)) (set_refbit false d) (advanced s))
    else if pinCnt d =? 0 then (Return (LoopDone pc), advanced s)
    else allocBuf_loop fuel (wrap32 (pc + 1)) (advanced s).
Proof.
  intros Hpc Hn Hd. simpl. unfold bind at 1. unfold gets at 1. simpl.
  apply N.leb_le in Hpc. rewrite Hpc.
  unfold bind at 1. unfold advanceClock.
  apply N.eqb_neq in Hn. rewrite Hn. fold (next_hand (mgr s)). fold (advanced s).
  unfold bind at 1. unfold gets at 1. simpl.
  unfold bind at 1. unfold get_desc at 1. simpl. rewrite Hd.
  destruct (valid d); simpl; [|reflexivity].
  destruct (refbit d); simpl.
  - unfold bind at 1. unfold upd_desc. simpl. rewrite Hd. reflexivity.
  - destruct (pinCnt d =? 0); reflexivity.
Qed.

(** The loop of [allocBuf] in all cases, including the undefined ones. *)
Lemma allocBuf_loop_cases (fuel : nat) (pc : N) (s : State) :
  allocBuf_loop (S fuel) pc s =
    if pc <=? numBufs (mgr s) then
      if numBufs (mgr s) =? 0 then (Undefined, s)
      else match bufDescTable (mgr s) !! N.to_nat (next_hand (mgr s)) with
           | None => (Undefined, advanced s)
           | Some d =>
               if negb (valid d) then (Return (LoopReturn (frameNo d)), advanced s)
               else if refbit d then
                 allocBuf_loop fuel pc
                   (updated (next_hand (mgr s)) (set_refbit false d) (advanced s))
               else if pinCnt d =? 0 then (Return (LoopDone pc), advanced s)
               else allocBuf_loop fuel (wrap32 (pc + 1)) (advanced s)
           end
    else (Return (LoopDone pc), s).
Proof.
  simpl. unfold bind at 1. unfold gets at 1. simpl.
  destruct (pc <=? numBufs (mgr s)); [|reflexivity].
  unfold bind at 1. unfold advanceClock.
  destruct (numBufs (mgr s) =? 0) eqn:Hn; [reflexivity|].
  fold (next_hand (mgr s)). fold (advanced s).
  unfold bind at 1. unfold gets at 1. simpl.
  unfold bind at 1. unfold get_desc at 1. simpl.
  destruct (bufDescTable (mgr s) !! N.to_nat (next_hand (mgr s))) as [d|] eqn:Hd; [|reflexivity].
  destruct (valid d); simpl; [|reflexivity].
  destruct (refbit d); simpl.
  - unfold bind at 1. unfold upd_desc. simpl. rewrite Hd. reflexivity.
  - destruct (pinCnt d =? 0); reflexivity.
Qed.

Lemma allocBuf_loop_zero (pc : N) (s : State) :
  allocBuf_loop 0 pc s =
    if pc <=? numBufs (mgr s) then (OutOfFuel, s) else (Return (LoopDone pc), s).
Proof.
  simpl. unfold bind, gets. simpl. destruct (pc <=? numBufs (mgr s)); reflexivity.
Qed.

(** A sweep changes nothing but the hand and reference bits, whatever its
    outcome. *)
Lemma allocBuf_loop_sweep (fuel : nat) (pc : N) (s : State) :
  sweep_rel s (snd (allocBuf_loop fuel pc s)).
Proof.
  revert pc s. induction fuel as [|fuel IH]; intros pc s.
  - rewrite allocBuf_loop_zero. destruct (pc <=? _); apply sweep_rel_refl.
  - rewrite allocBuf_loop_cases.
    destruct (pc <=? _); [|apply sweep_rel_refl].
    destruct (numBufs (mgr s) =? 0); [apply sweep_rel_refl|].
    destruct (bufDescTable (mgr s) !! _) as [d|] eqn:Hd; [|apply sweep_rel_advanced].
    destruct (valid d); simpl; [|apply sweep_rel_advanced].
    destruct (refbit d).
    + eapply sweep_rel_trans; [|apply IH].
      eapply sweep_rel_trans; [apply sweep_rel_advanced|].
      apply (sweep_rel_updated (advanced s)). exact Hd.
    + destruct (pinCnt d =? 0); [apply sweep_rel_advanced|].
      eapply sweep_rel_trans; [apply sweep_rel_advanced | apply IH].
Qed.

(** When the loop is left by [break] or by its condition, the hand is where
    the last advance put it and [pinCount] did not decrease; here only the
    part needed later: the sweep of a pool whose frames are all valid and
    pinned ends with [pinCount > numBufs]. *)
Lemma ref_count_insert (t : list BufDesc) (i : nat) (d : BufDesc) :
  t !! i = Some d → refbit d = true →
  S (ref_count (<[i := set_refbit false d]> t)) = ref_count t.
Proof.
  revert i. induction t as [|a t IH]; intros [|i] H Hr; simpl in *; try discriminate.
  - injection H as ->. rewrite Hr. reflexivity.
  - rewrite <- (IH i H Hr). lia.
Qed.

Lemma all_pinned_insert (t : list BufDesc) (i : nat) (d : BufDesc) :
  Forall (fun d => valid d = true ∧ pinCnt d ≠ 0) t →
  t !! i = Some d →
  Forall (fun d => valid d = true ∧ pinCnt d ≠ 0) (<[i := set_refbit false d]> t).
Proof.
  intros Ht Hd. apply Forall_insert; [exact Ht|].
  apply (proj1 (Forall_lookup _ _) Ht _ _ Hd).
Qed.

Lemma allocBuf_loop_all_pinned (fuel : nat) (pc : N) (s : State) :
  numBufs (mgr s) ≠ 0 → numBufs (mgr s) < 2 ^ 32 - 1 →
  length (bufDescTable (mgr s)) = N.to_nat (numBufs (mgr s)) →
  all_pinned (mgr s) →
  (ref_count (bufDescTable (mgr s)) + (N.to_nat (numBufs (mgr s)) + 1 - N.to_nat pc) < fuel)%nat →
  ∃ pc', numBufs (mgr s) < pc' ∧
         fst (allocBuf_loop fuel pc s) = Return (LoopDone pc').
Proof.
  revert pc s. induction fuel as [|fuel IH]; intros pc s Hn Hb Hlen Hall Hfuel; [lia|].
  rewrite allocBuf_loop_cases.
  destruct (pc <=? numBufs (mgr s)) eqn:Hpc.
  2:{ apply N.leb_gt in Hpc. exists pc. split; [exact Hpc | reflexivity]. }
  apply N.leb_le in Hpc.
  destruct (numBufs (mgr s) =? 0) eqn:Hn0; [apply N.eqb_eq in Hn0; contradiction|].
  pose proof (next_hand_lt (mgr s) Hn) as Hh.
  destruct (bufDescTable (mgr s) !! N.to_nat (next_hand (mgr s))) as [d|] eqn:Hd.
  2:{ apply lookup_ge_None in Hd. lia. }
  pose proof (proj1 (Forall_lookup _ _) Hall _ _ Hd) as [Hv Hp].
  rewrite Hv. simpl.
  destruct (refbit d) eqn:Hr.
  - apply (IH pc (updated (next_hand (mgr s)) (set_refbit false d) (advanced s)));
      simpl; try assumption.
    + rewrite length_insert. exact Hlen.
    + unfold all_pinned. simpl. apply all_pinned_insert; assumption.
    + pose proof (ref_count_insert _ _ _ Hd Hr). lia.
  - apply N.eqb_neq in Hp. rewrite Hp.
    rewrite wrap32_small by lia.
    apply (IH (pc + 1) (advanced s)); simpl; try assumption. lia.
Qed.

Lemma allocBuf_alloc_rel (pager : Pager) (fuel : nat) (s : State) : alloc_rel s (snd (allocBuf pager fuel s)).
Proof.
  unfold allocBuf, allocBuf_from. unfold bind at 1.
  pose proof (allocBuf_loop_sweep fuel 0 s) as Hs.
  destruct (allocBuf_loop fuel 0 s) as [r s1]. simpl in Hs.
  destruct Hs as (Hn & Ht & Hp & Hh & Hst & Hl).
  apply ref_cleared_length in Ht.
  assert (alloc_rel s s1) as H1 by (unfold alloc_rel; auto 10).
  destruct r as [[fr|pc]| | |]; try exact H1.
  munfold. simpl.
  repeat mcase; try exact H1;
    unfold alloc_rel; simpl; rewrite ?length_insert, ?Hl; eauto 10.
Qed.

Lemma ref_count_le (t : list BufDesc) : (ref_count t ≤ length t)%nat.
Proof. induction t as [|d t IH]; simpl; [lia|]. destruct (refbit d); lia. Qed.

Lemma allocBuf_all_pinned (pager : Pager) (fuel : nat) (s : State) :
  numBufs (mgr s) ≠ 0 → numBufs (mgr s) < 2 ^ 32 - 1 →
  length (bufDescTable (mgr s)) = N.to_nat (numBufs (mgr s)) →
  all_pinned (mgr s) →
  (2 * N.to_nat (numBufs (mgr s)) + 1 < fuel)%nat →
  fst (allocBuf pager fuel s) = Throw BufferExceededException ∧
  sweep_rel s (snd (allocBuf pager fuel s)).
Proof.
  intros Hn Hb Hlen Hall Hfuel.
  pose proof (ref_count_le (bufDescTable (mgr s))) as Hrc.
  destruct (allocBuf_loop_all_pinned fuel 0 s Hn Hb Hlen Hall) as (pc' & Hpc & Hr); [lia|].
  pose proof (allocBuf_loop_sweep fuel 0 s) as Hs.
  destruct (allocBuf_loop fuel 0 s) as [r s1] eqn:E. simpl in Hr, Hs. subst r.
  assert (allocBuf pager fuel s = (Throw BufferExceededException, s1)) as ->.
  { unfold allocBuf, allocBuf_from. unfold bind at 1. rewrite E.
    unfold bind, gets, throw. simpl.
    destruct Hs as (-> & _). apply N.ltb_lt in Hpc. rewrite Hpc. reflexivity. }
  split; [reflexivity | exact Hs].
Qed.

(** ** Fetch *)

(** The miss path of [readPage]: the directory has no entry, the lookup
    throws, the first handler runs and nothing catches what [allocBuf]
    throws. *)
Lemma readPage_miss (pager : Pager) (fuel : nat) (f : File) (p : PageId) (s : State) :
  hashTable (mgr s) !! (f, p) = None →
  readPage pager fuel f p s =
    match allocBuf pager fuel s with
    | (Return fr, s1) =>
        (let* pg := File_readPage pager f p in
         set_page fr pg;;
         BufHashTbl_insert f p fr;;
         upd_desc fr (Set_ f p);;
         ret fr) s1
    | (Throw e, s1) => (Throw e, s1)
    | (Undefined, s1) => (Undefined, s1)
    | (OutOfFuel, s1) => (OutOfFuel, s1)
    end.
Proof.
  intros H. unfold readPage. munfold. rewrite H. simpl.
  destruct (allocBuf pager fuel s) as [[fr|e| |] s1]; simpl; try reflexivity.
  repeat mcase; reflexivity.
Qed.

(** The hit path of [readPage]. *)
Lemma readPage_hit (pager : Pager) (fuel : nat) (f : File) (p : PageId) (s : State)
    (fr : FrameId) :
  hashTable (mgr s) !! (f, p) = Some fr →
  readPage pager fuel f p s =
    match bufDescTable (mgr s) !! N.to_nat fr with
    | Some d =>
        (Return fr,
         updated fr (set_pinCnt (pinCnt d + 1) (set_refbit true d)) s)
    | None => (Undefined, s)
    end.
Proof.
  intros H. unfold readPage. munfold. rewrite H. simpl.
  destruct (bufDescTable (mgr s) !! N.to_nat fr) as [d|] eqn:Hd; simpl; [|reflexivity].
  rewrite list_lookup_insert_eq by (eapply lookup_lt_Some, Hd). simpl.
  unfold updated, with_bufDescTable. simpl. rewrite list_insert_insert_eq. reflexivity.
Qed.

(** C1, amended: in a pool whose frames all hold a page and are pinned, a
    fetch of a page that is not cached fails with [BufferExceededException];
    the failing call leaves the frame table (up to reference bits the sweep
    cleared), the page buffers, the directory, the statistics and the pager
    log as they were; the clock hand is where the sweep left it. *)
Theorem readPage_all_pinned (pager : Pager) (fuel : nat) (s : State) (f : File) (p : PageId) :
  numBufs (mgr s) ≠ 0 → numBufs (mgr s) < 2 ^ 32 - 1 →
  length (bufDescTable (mgr s)) = N.to_nat (numBufs (mgr s)) →
  all_pinned (mgr s) →
  hashTable (mgr s) !! (f, p) = None →
  (2 * N.to_nat (numBufs (mgr s)) + 1 < fuel)%nat →
  result (readPage pager fuel f p) s = Throw BufferExceededException ∧
  sweep_rel s (exec (readPage pager fuel f p) s).
Proof.
  intros Hn Hb Hlen Hall Hmiss Hfuel.
  destruct (allocBuf_all_pinned pager fuel s Hn Hb Hlen Hall Hfuel) as [Hr Hs].
  unfold result, exec. rewrite (readPage_miss pager fuel f p s Hmiss).
  destruct (allocBuf pager fuel s) as [r s1]. simpl in Hr, Hs. subst r. simpl. auto.
Qed.

Lemma readPage_all_pinned_witness :
  result (readPage demo_pager 8 fileA 2) pool_two_pinned = Throw BufferExceededException ∧
  sweep_rel pool_two_pinned (exec (readPage demo_pager 8 fileA 2) pool_two_pinned).
Proof.
  apply (readPage_all_pinned demo_pager 8 pool_two_pinned fileA 2).
  - vm_compute. discriminate.
  - vm_compute. reflexivity.
  - vm_compute. reflexivity.
  - vm_compute. repeat constructor; discriminate.
  - vm_compute. reflexivity.
  - vm_compute. lia.
Defined.

(** C1 as stated fails: after [fetch(A,0); fetch(A,1)] in a pool of two
    frames both frames are pinned and page 2 is not cached; [fetch(A,2)]
    fails with [BufferExceededException], but the clock hand, 1 before the
    call, is 0 after it. *)
Lemma readPage_all_pinned_moves_hand :
  all_pinned (mgr pool_two_pinned) ∧
  hashTable (mgr pool_two_pinned) !! (fileA, 2) = None ∧
  result (readPage demo_pager 8 fileA 2) pool_two_pinned = Throw BufferExceededException ∧
  clockHand (mgr pool_two_pinned) = 1 ∧
  clockHand (mgr (exec (readPage demo_pager 8 fileA 2) pool_two_pinned)) = 0 ∧
  mgr (exec (readPage demo_pager 8 fileA 2) pool_two_pinned) ≠ mgr pool_two_pinned.
Proof.
  split; [vm_compute; repeat constructor; discriminate|].
  split; [vm_compute; reflexivity|].
  split; [vm_compute; reflexivity|].
  split; [vm_compute; reflexivity|].
  split; [vm_compute; reflexivity|].
  intros H. apply (f_equal clockHand) in H. vm_compute in H. discriminate.
Qed.

(** ** The clock sweep *)

(** More fuel does not change a sweep that finished. *)
Lemma allocBuf_loop_more_fuel (fuel k : nat) (pc : N) (s : State) :
  fst (allocBuf_loop fuel pc s) ≠ OutOfFuel →
  allocBuf_loop (fuel + k) pc s = allocBuf_loop fuel pc s.
Proof.
  revert pc s. induction fuel as [|fuel IH]; intros pc s H.
  - rewrite allocBuf_loop_zero in *. simpl.
    destruct k as [|k]; [apply allocBuf_loop_zero|].
    rewrite allocBuf_loop_cases.
    destruct (pc <=? numBufs (mgr s)); [simpl in H; congruence | reflexivity].
  - change (S fuel + k)%nat with (S (fuel + k)).
    rewrite !allocBuf_loop_cases in *.
    destruct (pc <=? numBufs (mgr s)); [|reflexivity].
    destruct (numBufs (mgr s) =? 0); [reflexivity|].
    destruct (bufDescTable (mgr s) !! _) as [d|]; [|reflexivity].
    destruct (negb (valid d)); [reflexivity|].
    destruct (refbit d); [apply IH, H|].
    destruct (pinCnt d =? 0); [reflexivity | apply IH, H].
Qed.

Lemma bind_run_eq {A B} (c c' : M A) (k : A → M B) (s : State) :
  c s = c' s → bind c k s = bind c' k s.
Proof. unfold bind. intros ->. reflexivity. Qed.

Lemma allocBuf_more_fuel (pager : Pager) (fuel k : nat) (s : State) :
  fst (allocBuf pager fuel s) ≠ OutOfFuel →
  allocBuf pager (fuel + k) s = allocBuf pager fuel s.
Proof.
  intros H. unfold allocBuf, allocBuf_from. apply bind_run_eq, allocBuf_loop_more_fuel.
  intros E. apply H. unfold allocBuf, allocBuf_from. unfold bind at 1.
  destruct (allocBuf_loop fuel 0 s) as [r s1]. simpl in E. subst r. reflexivity.
Qed.







(** C4 fails on the code.  In the pool [pool_one_unpinned] (three frames,
    hand on frame 0, frame 0 valid, unpinned, reference bit set, frames 1 and
    2 pinned with clear reference bits) [allocBuf] throws
    [BufferExceededException] although frame 0 is not pinned: the local
    [pinCount] counts the visits of pinned frames over both passes and
    exceeds [numBufs] before the hand comes back to frame 0. *)
Theorem allocBuf_exhausted_with_unpinned_frame (k : nat) :
  numBufs (mgr pool_one_unpinned) = 3 ∧
  clockHand (mgr pool_one_unpinned) = 0 ∧
  bufDescTable (mgr pool_one_unpinned) =
    [ mkBufDesc (Some fileA) 0 0 0 false true true;
      mkBufDesc (Some fileA) 1 1 1 false true false;
      mkBufDesc (Some fileA) 2 2 1 false true false ] ∧
  result (allocBuf demo_pager (5 + k)) pool_one_unpinned = Throw BufferExceededException ∧
  result (readPage demo_pager (5 + k) fileA 3) pool_one_unpinned
    = Throw BufferExceededException.
Proof.
  split; [vm_compute; reflexivity|].
  split; [vm_compute; reflexivity|].
  split; [vm_compute; reflexivity|].
  assert (allocBuf demo_pager (5 + k) pool_one_unpinned = allocBuf demo_pager 5 pool_one_unpinned) as E.
  { apply allocBuf_more_fuel. vm_compute. discriminate. }
  split.
  - unfold result. rewrite E. vm_compute. reflexivity.
  - unfold result. rewrite readPage_miss by (vm_compute; reflexivity).
    rewrite E. vm_compute. reflexivity.
Qed.

(** [allocBuf] never touches the statistics. *)
Lemma allocBuf_bufStats (pager : Pager) (fuel : nat) (s : State) :
  bufStats (mgr (exec (allocBuf pager fuel) s)) = bufStats (mgr s).
Proof. apply (allocBuf_alloc_rel pager fuel s). Qed.

(** C2 fails on the code.  In the pool of one frame reached by
    [fetch(A,0); unpin(A,0,true)] the only frame is valid, dirty and
    unpinned.  [allocBuf] evicts it: the page is written to its file, and the
    write comes before the read of the next fetch; but [diskwrites] is still
    0 after the eviction, where the destructor and [flushFile] count every
    write-back they make. *)
Theorem allocBuf_evicts_dirty_uncounted (k : nat) :
  bufDescTable (mgr pool_one_dirty) = [ mkBufDesc (Some fileA) 0 0 0 true true false ] ∧
  pagerLog pool_one_dirty = [ ReadPage fileA 0 ] ∧
  diskwrites (bufStats (mgr pool_one_dirty)) = 0 ∧
  result (allocBuf demo_pager (1 + k)) pool_one_dirty = Return 0 ∧
  pagerLog (exec (allocBuf demo_pager (1 + k)) pool_one_dirty)
    = [ ReadPage fileA 0; WritePage fileA (mkPage 0 []) ] ∧
  bufDescTable (mgr (exec (allocBuf demo_pager (1 + k)) pool_one_dirty))
    = [ mkBufDesc None 0 0 0 false false false ] ∧
  diskwrites (bufStats (mgr (exec (allocBuf demo_pager (1 + k)) pool_one_dirty))) = 0 ∧
  pagerLog (exec (readPage demo_pager (1 + k) fileA 1) pool_one_dirty)
    = [ ReadPage fileA 0; WritePage fileA (mkPage 0 []); ReadPage fileA 1 ] ∧
  diskwrites (bufStats (mgr (exec (readPage demo_pager (1 + k) fileA 1) pool_one_dirty))) = 0.
Proof.
  assert (allocBuf demo_pager (1 + k) pool_one_dirty = allocBuf demo_pager 1 pool_one_dirty) as E
    by (apply allocBuf_more_fuel; vm_compute; discriminate).
  assert (readPage demo_pager (1 + k) fileA 1 pool_one_dirty
          = readPage demo_pager 1 fileA 1 pool_one_dirty) as E'.
  { rewrite !readPage_miss by (vm_compute; reflexivity). rewrite E. reflexivity. }
  unfold result, exec. rewrite E, E'.
  repeat split; vm_compute; reflexivity.
Qed.





(** ** Unpin *)

(** The cached case of [unPinPage]. *)
Lemma unPinPage_cached (pager : Pager) (f : File) (p : PageId) (b : bool) (s : State)
    (fr : FrameId) (d : BufDesc) :
  hashTable (mgr s) !! (f, p) = Some fr →
  bufDescTable (mgr s) !! N.to_nat fr = Some d →
  unPinPage pager f p b s =
    if pinCnt d =? 0
    then (Throw (PageNotPinnedException (pager_filename pager f) (pageNo d) fr), s)
    else (Return tt,
          updated fr (set_pinCnt (pinCnt d - 1) (if b then set_dirty true d else d)) s).
Proof.
  intros Hl Hd. unfold unPinPage. munfold. rewrite Hl. simpl. rewrite Hd. simpl.
  destruct (pinCnt d =? 0) eqn:Hz; [reflexivity|].
  apply N.eqb_neq in Hz. assert ((0 <? pinCnt d) = true) as -> by (apply N.ltb_lt; lia).
  destruct b; simpl.
  - rewrite Hd. simpl. rewrite list_lookup_insert_eq by (eapply lookup_lt_Some, Hd). simpl.
    unfold updated, with_bufDescTable. simpl. rewrite list_insert_insert_eq. reflexivity.
  - rewrite Hd. reflexivity.
Qed.

(** C6 fails on the code in its first case.  When the directory has no entry
    for the page, the lookup throws [HashNotFoundException]; the handler
    written [catch (HashNotFoundException ())] does not match it, and the
    exception leaves [unPinPage].  The pool is unchanged. *)
Theorem unPinPage_not_cached_throws (pager : Pager) (f : File) (p : PageId) (b : bool)
    (s : State) :
  hashTable (mgr s) !! (f, p) = None →
  unPinPage pager f p b s = (Throw HashNotFoundException, s).
Proof. intros H. unfold unPinPage. munfold. rewrite H. reflexivity. Qed.

Lemma unPinPage_not_cached_throws_witness :
  unPinPage demo_pager fileA 0 false (init_state 1)
    = (Throw HashNotFoundException, init_state 1).
Proof.
  apply (unPinPage_not_cached_throws demo_pager fileA 0 false (init_state 1)).
  vm_compute. reflexivity.
Defined.

(** The remaining cases of C6 hold: a cached page whose pin count is zero
    gives [PageNotPinnedException]; otherwise the count goes down by one, the
    dirty bit is set when asked for and is never cleared. *)
Lemma unPinPage_cached_cases (pager : Pager) (f : File) (p : PageId) (b : bool) (s : State)
    (fr : FrameId) (d : BufDesc) :
  hashTable (mgr s) !! (f, p) = Some fr →
  bufDescTable (mgr s) !! N.to_nat fr = Some d →
  (pinCnt d = 0 →
     unPinPage pager f p b s
       = (Throw (PageNotPinnedException (pager_filename pager f) (pageNo d) fr), s)) ∧
  (pinCnt d ≠ 0 →
     result (unPinPage pager f p b) s = Return tt ∧
     ∃ d', bufDescTable (mgr (exec (unPinPage pager f p b) s)) !! N.to_nat fr = Some d' ∧
           pinCnt d' + 1 = pinCnt d ∧
           dirty d' = (b || dirty d)).
Proof.
  intros Hl Hd. unfold result, exec.
  rewrite (unPinPage_cached pager f p b s fr d Hl Hd). split.
  - intros ->. reflexivity.
  - intros Hp. apply N.eqb_neq in Hp as Hz. rewrite Hz. simpl.
    split; [reflexivity|].
    rewrite list_lookup_insert_eq by (eapply lookup_lt_Some, Hd).
    eexists. split; [reflexivity|]. destruct b; simpl; split; try reflexivity; lia.
Qed.

(** ** Dispose *)

(** The cached case of [disposePage]. *)
Lemma disposePage_hit (f : File) (p : PageId) (s : State) (fr : FrameId) (d : BufDesc) :
  hashTable (mgr s) !! (f, p) = Some fr →
  bufDescTable (mgr s) !! N.to_nat fr = Some d →
  file d = Some f → pageNo d = p →
  disposePage f p s =
    (Return tt,
     mkState (with_bufDescTable (<[N.to_nat fr := Clear d]>)
                (with_hashTable (delete (f, p)) (mgr s)))
             (pagerLog s ++ [DeletePage f p])).
Proof.
  intros Hl Hd Hf Hp. unfold disposePage. munfold.
  rewrite Hl. simpl. rewrite Hd. simpl. rewrite Hf, Hp. simpl. rewrite Hl. simpl.
  rewrite Hd. reflexivity.
Qed.

(** C9 fails on the code.  When the page is not cached, the lookup throws
    [HashNotFoundException]; the handler [catch (HashNotFoundException ())]
    does not match it, the exception leaves [disposePage], and
    [file->deletePage] is not reached: the pager log is as before. *)
Theorem disposePage_not_cached_throws (f : File) (p : PageId) (s : State) :
  hashTable (mgr s) !! (f, p) = None →
  disposePage f p s = (Throw HashNotFoundException, s).
Proof. intros H. unfold disposePage. munfold. rewrite H. reflexivity. Qed.

Lemma disposePage_not_cached_throws_witness :
  disposePage fileA 0 (init_state 1) = (Throw HashNotFoundException, init_state 1).
Proof.
  apply (disposePage_not_cached_throws fileA 0 (init_state 1)).
  vm_compute. reflexivity.
Defined.

Lemma alter_pinCnt_lookup (j : nat) (n : N) (t : list BufDesc) (i : nat) :
  ∃ g : BufDesc → BufDesc,
    (g = set_pinCnt n ∨ g = id) ∧ alter (set_pinCnt n) j t !! i = g <$> t !! i.
Proof.
  destruct (decide (j = i)) as [->|Hne].
  - exists (set_pinCnt n). split; [auto|]. apply list_lookup_alter_eq.
  - exists id. split; [auto|]. rewrite list_lookup_alter_ne by exact Hne.
    destruct (t !! i); reflexivity.
Qed.

(** C10: dispose of a cached page.  The directory entry is removed and the
    frame is put in the clear state whatever its pin count and dirty bit,
    and the page is then deleted from the file; [disposePage] never throws
    [PagePinnedException], never writes a page back (its only pager call is
    the [deletePage]), and its outcome, the directory and the pager log it
    produces are the same when the pin count of any frame is replaced by
    another value. *)
Theorem disposePage_cached (f : File) (p : PageId) (s : State) :
  (∀ fr d,
     hashTable (mgr s) !! (f, p) = Some fr →
     bufDescTable (mgr s) !! N.to_nat fr = Some d →
     file d = Some f → pageNo d = p →
     disposePage f p s =
       (Return tt,
        mkState (with_bufDescTable (<[N.to_nat fr := Clear d]>)
                   (with_hashTable (delete (f, p)) (mgr s)))
                (pagerLog s ++ [DeletePage f p]))) ∧
  (∀ name pn fn, result (disposePage f p) s ≠ Throw (PagePinnedException name pn fn)) ∧
  (pagerLog (exec (disposePage f p) s) = pagerLog s ∨
   pagerLog (exec (disposePage f p) s) = pagerLog s ++ [DeletePage f p]) ∧
  (∀ j n,
     result (disposePage f p) (repin j n s) = result (disposePage f p) s ∧
     hashTable (mgr (exec (disposePage f p) (repin j n s)))
       = hashTable (mgr (exec (disposePage f p) s)) ∧
     pagerLog (exec (disposePage f p) (repin j n s))
       = pagerLog (exec (disposePage f p) s)).
Proof.
  split; [|split; [|split]].
  - intros fr d. apply disposePage_hit.
  - intros name pn fn. unfold result, disposePage. munfold.
    repeat mcase; discriminate.
  - unfold exec, disposePage. munfold. repeat mcase; auto.
  - intros j n. unfold result, exec, disposePage. munfold. simpl.
    destruct (hashTable (mgr s) !! (f, p)) as [fr|]; simpl; [|auto].
    destruct (alter_pinCnt_lookup j n (bufDescTable (mgr s)) (N.to_nat fr))
      as (g & Hg & E).
    rewrite E.
    destruct (bufDescTable (mgr s) !! N.to_nat fr) as [d|] eqn:Hd; simpl; [|auto].
    assert (file (g d) = file d ∧ pageNo (g d) = pageNo d) as [-> ->]
      by (destruct Hg as [-> | ->]; auto).
    destruct (file d) as [g0|]; simpl; [|auto].
    destruct (hashTable (mgr s) !! (g0, pageNo d)); simpl; [|auto].
    rewrite E, Hd. simpl. auto.
Qed.

Lemma disposePage_cached_witness :
  disposePage fileA 0 pool_two_pinned =
    (Return tt,
     mkState (with_bufDescTable (<[0%nat := Clear (mkBufDesc (Some fileA) 0 0 1 false true false)]>)
                (with_hashTable (delete (fileA, 0)) (mgr pool_two_pinned)))
             (pagerLog pool_two_pinned ++ [DeletePage fileA 0])).
Proof.
  apply (proj1 (disposePage_cached fileA 0 pool_two_pinned) 0
           (mkBufDesc (Some fileA) 0 0 1 false true false)).
  - vm_compute. reflexivity.
  - vm_compute. reflexivity.
  - reflexivity.
  - reflexivity.
Defined.

(** ** Shutdown *)

Lemma for_each_cons (i : nat) (l : list nat) (body : N → M unit) (s : State) :
  for_each (i :: l) body s =
    match body (N.of_nat i) s with
    | (Return _, s1) => for_each l body s1
    | (Throw e, s1) => (Throw e, s1)
    | (Undefined, s1) => (Undefined, s1)
    | (OutOfFuel, s1) => (OutOfFuel, s1)
    end.
Proof. reflexivity. Qed.

(** One turn of the loop of the destructor. *)
Lemma destructor_body_eval (pager : Pager) (a : nat) (s : State) (d : BufDesc) (pg : Page) :
  bufDescTable (mgr s) !! a = Some d →
  bufPool (mgr s) !! a = Some pg →
  (dirty d = true → file d ≠ None) →
  destructor_body pager (N.of_nat a) s =
    match file d with
    | Some f =>
        if dirty d && pager_isOpen pager (pager_filename pager f)
        then
          if pager_write_ok pager (pagerLog s) f pg
          then (Return tt,
                mkState (with_bufStats incr_diskwrites
                           (with_bufDescTable (<[a := set_dirty false d]>) (mgr s)))
                        (pagerLog s ++ [WritePage f pg]))
          else (Throw (PagerIOException (WritePage f pg)),
                mkState (mgr s) (pagerLog s ++ [WritePage f pg]))
        else (Return tt, s)
    | None => (Return tt, s)
    end.
Proof.
  intros Hd Hp Hf. unfold destructor_body. munfold. rewrite Nat2N.id, Hd.
  destruct (dirty d) eqn:Hdirty; simpl.
  - destruct (file d) as [f|]; [|exfalso; apply Hf; reflexivity].
    destruct (pager_isOpen pager (pager_filename pager f)); [|reflexivity].
    rewrite Hp. simpl.
    destruct (pager_write_ok pager (pagerLog s) f pg); [|reflexivity].
    simpl. rewrite Hd. reflexivity.
  - destruct (file d); reflexivity.
Qed.

Lemma writes_done_nil (pager : Pager) (s : State) : writes_done pager [] s (Return tt) s.
Proof. unfold writes_done. simpl. rewrite app_nil_r, N.add_0_r. auto. Qed.

(** A write that succeeds and is counted, followed by the writes [ws]. *)
Lemma writes_done_cons (pager : Pager) (f : File) (pg : Page) (ws : list PagerCall)
    (s s1 s' : State) (o : outcome unit) :
  pager_write_ok pager (pagerLog s) f pg = true →
  pagerLog s1 = pagerLog s ++ [WritePage f pg] →
  diskwrites (bufStats (mgr s1)) = diskwrites (bufStats (mgr s)) + 1 →
  writes_done pager ws s1 o s' →
  writes_done pager (WritePage f pg :: ws) s o s'.
Proof.
  unfold writes_done. intros Hok Hlog Hcnt H. simpl. rewrite Hok, <- Hlog.
  destruct (failed_write pager (pagerLog s1) ws) as [[done c]|];
    destruct H as (-> & Hl & Hc); (split; [reflexivity|]);
    rewrite Hl, Hc, Hlog, Hcnt, <- !app_assoc; simpl;
    (split; [reflexivity|]); rewrite ?Nat2N.inj_succ; lia.
Qed.

(** A write that fails. *)
Lemma writes_done_fail (pager : Pager) (f : File) (pg : Page) (ws : list PagerCall)
    (s s' : State) :
  pager_write_ok pager (pagerLog s) f pg = false →
  pagerLog s' = pagerLog s ++ [WritePage f pg] →
  diskwrites (bufStats (mgr s')) = diskwrites (bufStats (mgr s)) →
  writes_done pager (WritePage f pg :: ws) s (Throw (PagerIOException (WritePage f pg))) s'.
Proof.
  unfold writes_done. intros Hok Hlog Hcnt. simpl. rewrite Hok, Hlog, Hcnt. simpl.
  rewrite N.add_0_r. auto.
Qed.

(** The loop of the destructor from the frame [a] on. *)
Lemma destructor_loop (pager : Pager) (k : nat) :
  ∀ (a : nat) (s : State),
    (a + k)%nat = length (bufDescTable (mgr s)) →
    length (bufPool (mgr s)) = length (bufDescTable (mgr s)) →
    Forall (fun d => dirty d = true → file d ≠ None) (bufDescTable (mgr s)) →
    writes_done pager
      (shutdown_writes pager (drop a (bufDescTable (mgr s))) (drop a (bufPool (mgr s))))
      s (fst (for_each (seq a k) (destructor_body pager) s))
        (snd (for_each (seq a k) (destructor_body pager) s)).
Proof.
  induction k as [|k IH]; intros a s Hlen Hpool Hfile.
  - simpl. rewrite drop_ge by lia. apply writes_done_nil.
  - assert (a < length (bufDescTable (mgr s)))%nat as Ha by lia.
    destruct (lookup_lt_is_Some_2 _ _ Ha) as [d Hd].
    assert (a < length (bufPool (mgr s)))%nat as Ha' by lia.
    destruct (lookup_lt_is_Some_2 _ _ Ha') as [pg Hpg].
    pose proof (proj1 (Forall_lookup _ _) Hfile _ _ Hd) as Hf.
    simpl seq. rewrite for_each_cons.
    rewrite (destructor_body_eval pager a s d pg Hd Hpg Hf).
    rewrite (drop_S _ _ _ Hd), (drop_S _ _ _ Hpg). simpl shutdown_writes.
    destruct (file d) as [f|] eqn:Hfd.
    + destruct (dirty d && pager_isOpen pager (pager_filename pager f)) eqn:Hw.
      * destruct (pager_write_ok pager (pagerLog s) f pg) eqn:Hok.
        -- eapply writes_done_cons; [exact Hok| | |]; cycle 2.
           ++ pose proof (IH (S a)
                (mkState (with_bufStats incr_diskwrites
                            (with_bufDescTable (<[a := set_dirty false d]>) (mgr s)))
                         (pagerLog s ++ [WritePage f pg]))) as H.
              simpl in H. rewrite !drop_insert_lt in H by lia.
              apply H.
              ** rewrite length_insert. lia.
              ** rewrite length_insert. exact Hpool.
              ** apply Forall_insert; [exact Hfile | discriminate].
           ++ reflexivity.
           ++ reflexivity.
        -- simpl. apply writes_done_fail; [exact Hok | reflexivity | reflexivity].
      * apply IH; [lia | exact Hpool | exact Hfile].
    + apply IH; [lia | exact Hpool | exact Hfile].
Qed.

Lemma shutdown_writes_complete (pager : Pager) (t : list BufDesc) (p : list Page)
    (i : nat) (d : BufDesc) (pg : Page) (f : File) :
  t !! i = Some d → p !! i = Some pg →
  dirty d = true → file d = Some f →
  pager_isOpen pager (pager_filename pager f) = true →
  WritePage f pg ∈ shutdown_writes pager t p.
Proof.
  revert p i. induction t as [|d0 t IH]; intros [|pg0 p] [|i] Hd Hp Hdirty Hf Ho;
    simpl in *; try discriminate.
  - injection Hd as ->. injection Hp as ->. rewrite Hf, Hdirty, Ho. simpl. left.
  - specialize (IH p i Hd Hp Hdirty Hf Ho).
    destruct (file d0); [|exact IH].
    destruct (dirty d0 && _); [right|]; exact IH.
Qed.

Lemma shutdown_writes_sound (pager : Pager) (t : list BufDesc) (p : list Page) (c : PagerCall) :
  c ∈ shutdown_writes pager t p →
  ∃ i d pg f, t !! i = Some d ∧ p !! i = Some pg ∧ c = WritePage f pg ∧
              file d = Some f ∧ dirty d = true ∧
              pager_isOpen pager (pager_filename pager f) = true.
Proof.
  revert p. induction t as [|d0 t IH]; intros [|pg0 p] Hc; simpl in *;
    try (apply elem_of_nil in Hc; contradiction).
  assert (c ∈ shutdown_writes pager t p →
          ∃ i d pg f, (d0 :: t) !! i = Some d ∧ (pg0 :: p) !! i = Some pg ∧ c = WritePage f pg ∧
              file d = Some f ∧ dirty d = true ∧
              pager_isOpen pager (pager_filename pager f) = true) as Hrest.
  { intros H. destruct (IH p H) as (i & d & pg & f & ?). exists (S i), d, pg, f. exact H0. }
  destruct (file d0) as [f0|] eqn:Hf0; [|auto].
  destruct (dirty d0 && pager_isOpen pager (pager_filename pager f0)) eqn:Hw; [|auto].
  apply elem_of_cons in Hc as [->|Hc]; [|auto].
  apply andb_true_iff in Hw as [Hdirty Ho].
  exists 0%nat, d0, pg0, f0. auto 10.
Qed.

Lemma shutdown_writes_length (pager : Pager) (t : list BufDesc) (p : list Page) :
  (length (shutdown_writes pager t p) ≤ length t)%nat.
Proof.
  revert p. induction t as [|d t IH]; intros [|pg pl]; simpl; try lia.
  specialize (IH pl).
  destruct (file d); [destruct (dirty d && _)|]; simpl; lia.
Qed.

(** The destructor is its loop; the arrays are released when the loop
    returns. *)
Lemma destructor_run (pager : Pager) (s : State) :
  BufMgr_destructor pager s =
    match for_each (seq 0 (N.to_nat (numBufs (mgr s)))) (destructor_body pager) s with
    | (Return _, s') =>
        (Return tt,
         mkState (with_bufDescTable (fun _ => []) (with_bufPool (fun _ => []) (mgr s')))
                 (pagerLog s'))
    | (Throw e, s') => (Throw e, s')
    | (Undefined, s') => (Undefined, s')
    | (OutOfFuel, s') => (OutOfFuel, s')
    end.
Proof.
  unfold BufMgr_destructor, destructor_flush.
  unfold bind at 1. unfold bind at 1. unfold gets. simpl.
  destruct (for_each _ _ s) as [[[]|e| |] s']; reflexivity.
Qed.

(** C7, amended: shutdown.  In a pool whose arrays have [numBufs] entries
    and whose dirty frames have a file, the destructor visits the frames in
    order and calls [writePage] once for each dirty frame whose file is open,
    with the frame's own buffer; frames of closed files are skipped without
    a write attempt.  When every write succeeds the destructor raises no
    error, the pager log has grown by exactly these writes and [diskwrites]
    by their number.  When a write fails its exception leaves the
    destructor: the writes made are those up to the failing one, which is
    not counted, and the frames after it are not written. *)
Theorem destructor_flushes_dirty (pager : Pager) (s : State) :
  arrays_sized (mgr s) →
  Forall (fun d => dirty d = true → file d ≠ None) (bufDescTable (mgr s)) →
  match failed_write pager (pagerLog s)
          (shutdown_writes pager (bufDescTable (mgr s)) (bufPool (mgr s))) with
  | None =>
      result (BufMgr_destructor pager) s = Return tt ∧
      pagerLog (exec (BufMgr_destructor pager) s)
        = pagerLog s ++ shutdown_writes pager (bufDescTable (mgr s)) (bufPool (mgr s)) ∧
      diskwrites (bufStats (mgr (exec (BufMgr_destructor pager) s)))
        = diskwrites (bufStats (mgr s))
          + N.of_nat (length (shutdown_writes pager (bufDescTable (mgr s))
                                                    (bufPool (mgr s))))
  | Some (done, c) =>
      result (BufMgr_destructor pager) s = Throw (PagerIOException c) ∧
      pagerLog (exec (BufMgr_destructor pager) s) = pagerLog s ++ done ++ [c] ∧
      diskwrites (bufStats (mgr (exec (BufMgr_destructor pager) s)))
        = diskwrites (bufStats (mgr s)) + N.of_nat (length done)
  end ∧
  (∀ i d pg f,
     bufDescTable (mgr s) !! i = Some d → bufPool (mgr s) !! i = Some pg →
     valid d = true → dirty d = true → file d = Some f →
     pager_isOpen pager (pager_filename pager f) = true →
     WritePage f pg ∈ shutdown_writes pager (bufDescTable (mgr s)) (bufPool (mgr s))) ∧
  (∀ c, c ∈ shutdown_writes pager (bufDescTable (mgr s)) (bufPool (mgr s)) →
     ∃ i d pg f,
       bufDescTable (mgr s) !! i = Some d ∧ bufPool (mgr s) !! i = Some pg ∧
       c = WritePage f pg ∧ file d = Some f ∧ dirty d = true ∧
       pager_isOpen pager (pager_filename pager f) = true) ∧
  (length (shutdown_writes pager (bufDescTable (mgr s)) (bufPool (mgr s)))
   ≤ N.to_nat (numBufs (mgr s)))%nat.
Proof.
  intros [Ht Hp] Hfile.
  split; [|split; [|split]].
  - pose proof (destructor_loop pager (N.to_nat (numBufs (mgr s))) 0 s) as H.
    change (drop 0 (bufDescTable (mgr s))) with (bufDescTable (mgr s)) in H.
    change (drop 0 (bufPool (mgr s))) with (bufPool (mgr s)) in H.
    specialize (H ltac:(simpl; lia) ltac:(lia) Hfile).
    unfold writes_done in H. unfold result, exec. rewrite destructor_run.
    destruct (for_each _ _ s) as [o s'].
    destruct (failed_write pager (pagerLog s) _) as [[done c]|];
      simpl in H; destruct H as (-> & Hl & Hc); simpl; auto.
  - intros i d pg f Hd Hpg _ Hdirty Hf Ho.
    eapply shutdown_writes_complete; eauto.
  - intros c Hc. apply shutdown_writes_sound, Hc.
  - rewrite <- Ht. apply shutdown_writes_length.
Qed.

Lemma destructor_flushes_dirty_witness :
  result (BufMgr_destructor demo_pager) pool_alloc_dirty = Return tt ∧
  pagerLog (exec (BufMgr_destructor demo_pager) pool_alloc_dirty)
    = pagerLog pool_alloc_dirty ++ [WritePage fileA (mkPage 0 [])] ∧
  diskwrites (bufStats (mgr (exec (BufMgr_destructor demo_pager) pool_alloc_dirty)))
    = diskwrites (bufStats (mgr pool_alloc_dirty)) + 1.
Proof.
  destruct (destructor_flushes_dirty demo_pager pool_alloc_dirty) as (H & _).
  - vm_compute. split; reflexivity.
  - vm_compute. repeat (constructor; [cbv beta; intros H1 H2; discriminate|]). constructor.
  - exact H.
Defined.

(** The claim C7 says that shutdown raises no error.  Scenario 6 of the
    specification ([alloc_page(A) -> 0; unpin(A,0,true)], which makes no read
    and no write, then the destruction of the pool) on a medium that cannot
    be written: the [writePage] of line 60 throws, no handler is in the
    destructor, and the exception leaves it; nothing is counted. *)
Lemma destructor_write_fails :
  pool_alloc_dirty
    = exec (allocPage faulty_pager 8 fileA;; unPinPage faulty_pager fileA 0 true)
           (init_state 2) ∧
  result (BufMgr_destructor faulty_pager) pool_alloc_dirty
    = Throw (PagerIOException (WritePage fileA (mkPage 0 []))) ∧
  pagerLog (exec (BufMgr_destructor faulty_pager) pool_alloc_dirty)
    = [AllocatePage fileA; WritePage fileA (mkPage 0 [])] ∧
  diskwrites (bufStats (mgr (exec (BufMgr_destructor faulty_pager) pool_alloc_dirty))) = 0.
Proof. vm_compute. repeat split; reflexivity. Qed.

(** ** Flush *)

Lemma flush_rel_refl (f : File) (s : State) : flush_rel f s s.
Proof.
  unfold flush_rel. repeat split; auto.
  exists []. rewrite app_nil_r. auto.
Qed.

Lemma flush_rel_trans (f : File) (s1 s2 s3 : State) :
  flush_rel f s1 s2 → flush_rel f s2 s3 → flush_rel f s1 s3.
Proof.
  unfold flush_rel.
  intros (?&?&?&?&?& Ht1 & Hh1 & w1 & Hw1 & HF1) (?&?&?&?&?& Ht2 & Hh2 & w2 & Hw2 & HF2).
  repeat split; try congruence.
  - intros j d Hd Hf. apply Ht2; [apply Ht1|]; assumption.
  - intros g p Hg. rewrite Hh2, Hh1 by exact Hg. reflexivity.
  - exists (w1 ++ w2). rewrite Hw2, Hw1, app_assoc. split; [reflexivity|].
    apply Forall_app. auto.
Qed.

(** One turn of the loop of [flushFile] on frame [a]: the turn counts one
    access, changes no frame but [a], and stops the scan only on a frame of
    the file being flushed. *)
Lemma flushFile_body_spec (pager : Pager) (f : File) (a : nat) (s : State) (d : BufDesc) :
  bufDescTable (mgr s) !! a = Some d →
  flush_rel f s (snd (flushFile_body pager f (N.of_nat a) s)) ∧
  accesses (bufStats (mgr (snd (flushFile_body pager f (N.of_nat a) s))))
    = accesses (bufStats (mgr s)) + 1 ∧
  (∀ j, j ≠ a →
     bufDescTable (mgr (snd (flushFile_body pager f (N.of_nat a) s))) !! j
       = bufDescTable (mgr s) !! j) ∧
  (fst (flushFile_body pager f (N.of_nat a) s) ≠ Return tt → file d = Some f).
Proof.
  intros Hd.
  assert (a < length (bufDescTable (mgr s)))%nat as Ha by (eapply lookup_lt_Some, Hd).
  unfold flushFile_body. munfold. rewrite Nat2N.id, Hd. simpl.
  destruct (decide (Some f = file d)) as [Hf|Hf]; simpl.
  2:{ split; [|split; [reflexivity|split; [reflexivity|intros H; contradiction]]].
      unfold flush_rel. simpl. repeat split; auto.
      exists []. rewrite app_nil_r. auto. }
  assert (∀ j d', bufDescTable (mgr s) !! j = Some d' → file d' ≠ Some f → j ≠ a) as Hne.
  { intros j d' Hj Hfj ->. rewrite Hd in Hj. injection Hj as <-. congruence. }
  rewrite <- Hf. simpl.
  repeat mcase;
    rewrite ?list_lookup_insert_eq in * by (rewrite ?length_insert; exact Ha);
    simplify_eq;
    (split; [|split; [reflexivity|split; [|auto]]]);
    try (intros j Hj; simpl; rewrite ?list_lookup_insert_ne by auto; reflexivity);
    unfold flush_rel; simpl; rewrite ?length_insert;
    repeat split; auto;
    first
      [ intros j d' Hj Hfj; pose proof (Hne j d' Hj Hfj) as Hja;
        rewrite ?list_lookup_insert_ne by congruence; exact Hj
      | intros g0 q0 Hg; apply lookup_delete_ne; congruence
      | exists []; rewrite app_nil_r; split; [reflexivity | constructor]
      | eexists; split; [reflexivity|]; repeat constructor; eexists; reflexivity ].
Qed.

Lemma flushFile_loop (pager : Pager) (f : File) (k : nat) :
  ∀ (a : nat) (s : State),
    (a + k ≤ length (bufDescTable (mgr s)))%nat →
    flush_rel f s (snd (for_each (seq a k) (flushFile_body pager f) s)) ∧
    ∃ m : nat,
      (m ≤ k)%nat ∧
      accesses (bufStats (mgr (snd (for_each (seq a k) (flushFile_body pager f) s))))
        = accesses (bufStats (mgr s)) + N.of_nat m ∧
      (∀ j, (a + m ≤ j)%nat →
         bufDescTable (mgr (snd (for_each (seq a k) (flushFile_body pager f) s))) !! j
           = bufDescTable (mgr s) !! j) ∧
      (fst (for_each (seq a k) (flushFile_body pager f) s) = Return tt → m = k) ∧
      (fst (for_each (seq a k) (flushFile_body pager f) s) ≠ Return tt →
         (0 < m)%nat ∧
         ∃ d, bufDescTable (mgr s) !! (a + m - 1)%nat = Some d ∧ file d = Some f).
Proof.
  induction k as [|k IH]; intros a s Hlen.
  - simpl. split; [apply flush_rel_refl|].
    exists 0%nat. rewrite N.add_0_r. repeat split; auto; contradiction.
  - assert (a < length (bufDescTable (mgr s)))%nat as Ha by lia.
    destruct (lookup_lt_is_Some_2 _ _ Ha) as [d Hd].
    destruct (flushFile_body_spec pager f a s d Hd) as (Hrel & Hacc & Hoth & Hstop).
    simpl seq. rewrite for_each_cons.
    destruct (flushFile_body pager f (N.of_nat a) s) as [r1 s1]. simpl in Hrel, Hacc, Hoth, Hstop.
    assert (∀ j, (a + 1 ≤ j)%nat → bufDescTable (mgr s1) !! j = bufDescTable (mgr s) !! j)
      as Hoth' by (intros j Hj; apply Hoth; lia).
    assert (r1 ≠ Return tt →
            flush_rel f s s1 ∧
            ∃ m : nat, (m ≤ S k)%nat ∧
              accesses (bufStats (mgr s1)) = accesses (bufStats (mgr s)) + N.of_nat m ∧
              (∀ j, (a + m ≤ j)%nat → bufDescTable (mgr s1) !! j = bufDescTable (mgr s) !! j) ∧
              (r1 = Return tt → m = S k) ∧
              (r1 ≠ Return tt → (0 < m)%nat ∧
                 ∃ d, bufDescTable (mgr s) !! (a + m - 1)%nat = Some d ∧ file d = Some f))
      as Hstopped.
    { intros Hr. split; [exact Hrel|]. exists 1%nat.
      split; [lia|]. split; [exact Hacc|]. split; [exact Hoth'|].
      split; [intros; contradiction|]. intros _. split; [lia|].
      exists d. replace (a + 1 - 1)%nat with a by lia. auto. }
    destruct r1 as [[]|e| |]; try (apply Hstopped; discriminate).
    assert (S a + k ≤ length (bufDescTable (mgr s1)))%nat as Hlen1.
    { destruct Hrel as (_ & _ & _ & -> & _). lia. }
    destruct (IH (S a) s1 Hlen1) as (Hrel2 & m & Hm & Hacc2 & Hoth2 & Hret & Hthrow).
    split; [eapply flush_rel_trans; eassumption|].
    exists (S m). split; [lia|].
    split; [rewrite Hacc2, Hacc, Nat2N.inj_succ; lia|].
    split.
    { intros j Hj. rewrite Hoth2 by lia. apply Hoth. lia. }
    split.
    { intros Hr. rewrite (Hret Hr). reflexivity. }
    intros Hr. destruct (Hthrow Hr) as (Hpos & d' & Hd' & Hf').
    split; [lia|]. exists d'. split; [|exact Hf'].
    rewrite <- Hd'. rewrite Hoth by lia. f_equal. lia.
Qed.

(** One turn of the loop of [flushFile]: every pager call is counted in
    [diskwrites], but for a write that fails. *)
Lemma flushFile_body_count (pager : Pager) (f : File) (i : N) (s : State) :
  N.of_nat (length (pagerLog (snd (flushFile_body pager f i s))))
    + diskwrites (bufStats (mgr s))
  = N.of_nat (length (pagerLog s))
    + diskwrites (bufStats (mgr (snd (flushFile_body pager f i s))))
    + (if pager_failed (fst (flushFile_body pager f i s)) then 1 else 0).
Proof.
  unfold flushFile_body. munfold.
  repeat mcase; simpl; try congruence; rewrite ?length_app; simpl; lia.
Qed.

Lemma flushFile_loop_count (pager : Pager) (f : File) (l : list nat) :
  ∀ s,
    N.of_nat (length (pagerLog (snd (for_each l (flushFile_body pager f) s))))
      + diskwrites (bufStats (mgr s))
    = N.of_nat (length (pagerLog s))
      + diskwrites (bufStats (mgr (snd (for_each l (flushFile_body pager f) s))))
      + (if pager_failed (fst (for_each l (flushFile_body pager f) s)) then 1 else 0).
Proof.
  induction l as [|i l IH]; intros s; [simpl; lia|].
  rewrite for_each_cons.
  pose proof (flushFile_body_count pager f (N.of_nat i) s) as H.
  destruct (flushFile_body pager f (N.of_nat i) s) as [[[]|e| |] s1]; simpl in *;
    try exact H.
  specialize (IH s1). lia.
Qed.

(** The loop of [flushFile] over frames none of which belongs to the file:
    each turn counts one access and does nothing else. *)
Lemma flushFile_loop_skips (pager : Pager) (f : File) (k : nat) :
  ∀ (a : nat) (s : State),
    (a + k ≤ length (bufDescTable (mgr s)))%nat →
    (∀ j d, bufDescTable (mgr s) !! j = Some d → file d ≠ Some f) →
    for_each (seq a k) (flushFile_body pager f) s
      = (Return tt,
         mkState (with_bufStats (add_accesses (N.of_nat k)) (mgr s)) (pagerLog s)).
Proof.
  induction k as [|k IH]; intros a s Hlen Hother.
  - simpl. unfold ret, with_bufStats, add_accesses. simpl. rewrite N.add_0_r.
    destruct s as [[? ? ? ? ? []] ?]. reflexivity.
  - assert (a < length (bufDescTable (mgr s)))%nat as Ha by lia.
    destruct (lookup_lt_is_Some_2 _ _ Ha) as [d Hd].
    simpl seq. rewrite for_each_cons.
    assert (flushFile_body pager f (N.of_nat a) s
            = (Return tt, mkState (with_bufStats incr_accesses (mgr s)) (pagerLog s))) as ->.
    { unfold flushFile_body. munfold. rewrite Nat2N.id, Hd. simpl.
      rewrite decide_False; [reflexivity|].
      intros E. apply (Hother a d Hd). congruence. }
    rewrite IH; [|simpl; lia|exact Hother].
    unfold with_bufStats, add_accesses, incr_accesses. simpl.
    assert (accesses (bufStats (mgr s)) + 1 + N.of_nat k
            = accesses (bufStats (mgr s)) + N.of_nat (S k)) as -> by lia.
    reflexivity.
Qed.

(** C8, amended: flush of the file [f].  Frames whose file is not [f] are
    in the final frame table exactly as before; the page buffers and the
    directory entries of other files are untouched; [numBufs], the clock
    hand and [diskreads] are untouched; every pager call made is a write to
    [f], and [diskwrites] has grown by the number of these calls, less the
    one that failed and ended the call, if any.  But every frame the scan
    reaches is counted in [accesses], whatever its file: the scan inspects
    the frames 0, ..., m-1, where m is [numBufs] when the call returns and
    otherwise is one more than the index of the frame of [f] at which it
    stopped; frames from m on are untouched; [accesses] has grown by exactly
    m.  In a pool with no frame of [f] the call returns and its whole effect
    is [numBufs] more accesses. *)
Theorem flushFile_other_files (pager : Pager) (f : File) (s : State) :
  length (bufDescTable (mgr s)) = N.to_nat (numBufs (mgr s)) →
  (∀ j d, bufDescTable (mgr s) !! j = Some d → file d ≠ Some f →
          bufDescTable (mgr (exec (flushFile pager f) s)) !! j = Some d) ∧
  bufPool (mgr (exec (flushFile pager f) s)) = bufPool (mgr s) ∧
  (∀ g p, g ≠ f →
     hashTable (mgr (exec (flushFile pager f) s)) !! (g, p) = hashTable (mgr s) !! (g, p)) ∧
  numBufs (mgr (exec (flushFile pager f) s)) = numBufs (mgr s) ∧
  clockHand (mgr (exec (flushFile pager f) s)) = clockHand (mgr s) ∧
  diskreads (bufStats (mgr (exec (flushFile pager f) s))) = diskreads (bufStats (mgr s)) ∧
  (∃ w, pagerLog (exec (flushFile pager f) s) = pagerLog s ++ w ∧
        Forall (is_write_of f) w ∧
        diskwrites (bufStats (mgr (exec (flushFile pager f) s)))
          + (if pager_failed (result (flushFile pager f) s) then 1 else 0)
        = diskwrites (bufStats (mgr s)) + N.of_nat (length w)) ∧
  (∃ m : nat,
    (m ≤ N.to_nat (numBufs (mgr s)))%nat ∧
    accesses (bufStats (mgr (exec (flushFile pager f) s)))
      = accesses (bufStats (mgr s)) + N.of_nat m ∧
    (∀ j, (m ≤ j)%nat →
       bufDescTable (mgr (exec (flushFile pager f) s)) !! j = bufDescTable (mgr s) !! j) ∧
    (result (flushFile pager f) s = Return tt → m = N.to_nat (numBufs (mgr s))) ∧
    (result (flushFile pager f) s ≠ Return tt →
       (0 < m)%nat ∧
       ∃ d, bufDescTable (mgr s) !! (m - 1)%nat = Some d ∧ file d = Some f)) ∧
  ((∀ j d, bufDescTable (mgr s) !! j = Some d → file d ≠ Some f) →
     flushFile pager f s
       = (Return tt,
          mkState (with_bufStats (add_accesses (numBufs (mgr s))) (mgr s)) (pagerLog s))).
Proof.
  intros Hlen.
  assert (flushFile pager f s =
          for_each (seq 0 (N.to_nat (numBufs (mgr s)))) (flushFile_body pager f) s) as E
    by reflexivity.
  pose proof (flushFile_loop_count pager f (seq 0 (N.to_nat (numBufs (mgr s)))) s) as Hcnt.
  unfold exec, result. rewrite E.
  destruct (flushFile_loop pager f (N.to_nat (numBufs (mgr s))) 0 s) as (Hrel & Hcount);
    [simpl; lia|].
  destruct Hrel as (Hn & Hpool & Hhand & _ & Hdr & Htab & Hhash & w & Hlog & Hw).
  split; [exact Htab|]. split; [exact Hpool|]. split; [exact Hhash|].
  split; [exact Hn|]. split; [exact Hhand|]. split; [exact Hdr|].
  split.
  { exists w. split; [exact Hlog|]. split; [exact Hw|].
    rewrite Hlog, length_app in Hcnt. lia. }
  split; [exact Hcount|].
  intros Hother. rewrite flushFile_loop_skips; [|simpl; lia|exact Hother].
  rewrite N2Nat.id. reflexivity.
Qed.

Lemma flushFile_other_files_witness :
  bufDescTable (mgr (exec (flushFile demo_pager fileA) pool_two_files)) !! 1%nat
    = Some (mkBufDesc (Some fileB) 0 1 1 false true false).
Proof.
  apply (proj1 (flushFile_other_files demo_pager fileA pool_two_files
                  ltac:(vm_compute; reflexivity))).
  - vm_compute. reflexivity.
  - vm_compute. discriminate.
Defined.

(** The claim C8 says that frames of other files cause no side effect.  In
    the pool [pool_two_pinned] both frames hold pages of [fileA]; a flush of
    [fileB] finds no frame of [fileB], returns, and has counted the two
    frames of [fileA] in [accesses] (line 241 precedes the test of the
    file). *)
Lemma flushFile_counts_other_files :
  bufDescTable (mgr pool_two_pinned) =
    [ mkBufDesc (Some fileA) 0 0 1 false true false;
      mkBufDesc (Some fileA) 1 1 1 false true false ] ∧
  result (flushFile demo_pager fileB) pool_two_pinned = Return tt ∧
  accesses (bufStats (mgr pool_two_pinned)) = 0 ∧
  accesses (bufStats (mgr (exec (flushFile demo_pager fileB) pool_two_pinned))) = 2.
Proof. vm_compute. repeat split; reflexivity. Qed.

(** ** Termination of the sweep *)

(** The loop of [allocBuf] ends within [ref_count + numBufs + 1 - pinCount]
    turns: a turn that does not leave the loop either clears a reference
    bit or counts a pinned frame.  With more fuel than twice the number of
    frames plus one, [allocBuf] and [readPage] never run out of fuel. *)
Lemma allocBuf_loop_terminates (fuel : nat) (pc : N) (s : State) :
  numBufs (mgr s) < 2 ^ 32 - 1 →
  (ref_count (bufDescTable (mgr s)) + (N.to_nat (numBufs (mgr s)) + 1 - N.to_nat pc) < fuel)%nat →
  fst (allocBuf_loop fuel pc s) ≠ OutOfFuel.
Proof.
  revert pc s. induction fuel as [|fuel IH]; intros pc s Hb Hfuel; [lia|].
  rewrite allocBuf_loop_cases.
  destruct (pc <=? numBufs (mgr s)) eqn:Hpc; [|discriminate].
  apply N.leb_le in Hpc.
  destruct (numBufs (mgr s) =? 0); [discriminate|].
  destruct (bufDescTable (mgr s) !! N.to_nat (next_hand (mgr s))) as [d|] eqn:Hd; [|discriminate].
  destruct (negb (valid d)); [discriminate|].
  destruct (refbit d) eqn:Hr.
  - apply (IH pc (updated (next_hand (mgr s)) (set_refbit false d) (advanced s))); simpl.
    + exact Hb.
    + pose proof (ref_count_insert _ _ _ Hd Hr). lia.
  - destruct (pinCnt d =? 0); [discriminate|].
    rewrite wrap32_small by lia.
    apply (IH (pc + 1) (advanced s)); simpl; [exact Hb | lia].
Qed.

Lemma allocBuf_terminates (pager : Pager) (fuel : nat) (s : State) :
  numBufs (mgr s) < 2 ^ 32 - 1 →
  (length (bufDescTable (mgr s)) + N.to_nat (numBufs (mgr s)) + 1 < fuel)%nat →
  result (allocBuf pager fuel) s ≠ OutOfFuel.
Proof.
  intros Hb Hfuel.
  pose proof (ref_count_le (bufDescTable (mgr s))) as Hrc.
  assert (fst (allocBuf_loop fuel 0 s) ≠ OutOfFuel) as Hloop
    by (apply allocBuf_loop_terminates; [exact Hb | lia]).
  unfold result, allocBuf, allocBuf_from. unfold bind at 1.
  destruct (allocBuf_loop fuel 0 s) as [[[fr|pc']|e| |] s1]; simpl in *;
    try discriminate; try congruence.
  munfold. repeat mcase; discriminate.
Qed.

Lemma readPage_terminates (pager : Pager) (fuel : nat) (f : File) (p : PageId) (s : State) :
  numBufs (mgr s) < 2 ^ 32 - 1 →
  (length (bufDescTable (mgr s)) + N.to_nat (numBufs (mgr s)) + 1 < fuel)%nat →
  result (readPage pager fuel f p) s ≠ OutOfFuel.
Proof.
  intros Hb Hfuel. pose proof (allocBuf_terminates pager fuel s Hb Hfuel) as Ha.
  unfold result in *.
  destruct (hashTable (mgr s) !! (f, p)) as [fr|] eqn:Hl.
  - rewrite (readPage_hit pager fuel f p s fr Hl).
    destruct (bufDescTable (mgr s) !! N.to_nat fr); discriminate.
  - rewrite (readPage_miss pager fuel f p s Hl).
    destruct (allocBuf pager fuel s) as [[fr|e| |] s1]; simpl in *; try discriminate; try congruence.
    munfold. repeat mcase; discriminate.
Qed.

(** ** The invariants are kept by every operation *)

Lemma wf_new (bufs : N) : wf_pool (BufMgr_new bufs).
Proof.
  constructor; simpl.
  - rewrite length_map, length_seq. reflexivity.
  - apply length_replicate.
  - intros i d H. rewrite list_lookup_fmap in H.
    destruct (seq 0 (N.to_nat bufs) !! i) as [j|] eqn:Hj; [|discriminate].
    apply lookup_seq in Hj as [-> _]. simpl in H. injection H as <-. reflexivity.
  - intros f p fr H. rewrite lookup_empty in H. discriminate.
  - intros i d H Hv. rewrite list_lookup_fmap in H.
    destruct (seq 0 (N.to_nat bufs) !! i) as [j|]; [|discriminate].
    simpl in H. injection H as <-. discriminate.
  - intros i d H _. rewrite list_lookup_fmap in H.
    destruct (seq 0 (N.to_nat bufs) !! i) as [j|]; [|discriminate].
    simpl in H. injection H as <-. reflexivity.
Qed.

(** Changes outside the frame table and the directory. *)
Lemma wf_other_fields (m m' : BufMgr) :
  numBufs m' = numBufs m → bufDescTable m' = bufDescTable m →
  length (bufPool m') = length (bufPool m) → hashTable m' = hashTable m →
  wf_pool m → wf_pool m'.
Proof.
  intros Hn Ht Hp Hh [H1 H2 H3 H4 H5 H6].
  constructor; rewrite ?Hn, ?Ht, ?Hp, ?Hh; assumption.
Qed.

(** A valid frame changes fields other than its identity. *)
Lemma wf_keep_identity (m : BufMgr) (i : nat) (d d' : BufDesc) :
  bufDescTable m !! i = Some d → valid d = true →
  file d' = file d → pageNo d' = pageNo d → frameNo d' = frameNo d → valid d' = true →
  wf_pool m → wf_pool (with_bufDescTable (<[i := d']>) m).
Proof.
  intros Hd Hv Hf Hp Hfr Hv' [H1 H2 H3 H4 H5 H6].
  assert (i < length (bufDescTable m))%nat as Hi by (eapply lookup_lt_Some, Hd).
  constructor; simpl.
  - rewrite length_insert. exact H1.
  - exact H2.
  - intros j d0 Hj. destruct (decide (i = j)) as [->|Hne].
    + rewrite list_lookup_insert_eq in Hj by exact Hi. injection Hj as <-.
      rewrite Hfr. eapply H3, Hd.
    + rewrite list_lookup_insert_ne in Hj by exact Hne. eapply H3, Hj.
  - intros f p fr Hl. destruct (H4 f p fr Hl) as (d0 & Hd0 & Hv0 & Hf0 & Hp0).
    destruct (decide (i = N.to_nat fr)) as [->|Hne].
    + rewrite Hd in Hd0. injection Hd0 as <-.
      exists d'. rewrite list_lookup_insert_eq by exact Hi.
      rewrite Hf, Hp. auto.
    + exists d0. rewrite list_lookup_insert_ne by exact Hne. auto.
  - intros j d0 Hj Hv0. destruct (decide (i = j)) as [->|Hne].
    + rewrite list_lookup_insert_eq in Hj by exact Hi. injection Hj as <-.
      rewrite Hf, Hp. eapply H5; eassumption.
    + rewrite list_lookup_insert_ne in Hj by exact Hne. eapply H5; eassumption.
  - intros j d0 Hj Hv0. destruct (decide (i = j)) as [->|Hne].
    + rewrite list_lookup_insert_eq in Hj by exact Hi. injection Hj as <-. congruence.
    + rewrite list_lookup_insert_ne in Hj by exact Hne. eapply H6; eassumption.
Qed.

(** A valid frame is cleared and its directory entry removed. *)
Lemma wf_evict (m : BufMgr) (i : nat) (d : BufDesc) (f : File) :
  bufDescTable m !! i = Some d → valid d = true → file d = Some f →
  wf_pool m →
  wf_pool (with_bufDescTable (<[i := Clear d]>) (with_hashTable (delete (f, pageNo d)) m)).
Proof.
  intros Hd Hv Hf [H1 H2 H3 H4 H5 H6].
  assert (i < length (bufDescTable m))%nat as Hi by (eapply lookup_lt_Some, Hd).
  destruct (H5 i d Hd Hv) as (f' & Hf' & Hkey).
  assert (f' = f) as -> by congruence.
  constructor; simpl.
  - rewrite length_insert. exact H1.
  - exact H2.
  - intros j d0 Hj. destruct (decide (i = j)) as [->|Hne].
    + rewrite list_lookup_insert_eq in Hj by exact Hi. injection Hj as <-.
      simpl. eapply H3, Hd.
    + rewrite list_lookup_insert_ne in Hj by exact Hne. eapply H3, Hj.
  - intros g p fr Hl.
    destruct (decide ((f, pageNo d) = (g, p))) as [E|Hk].
    { rewrite E, lookup_delete_eq in Hl. discriminate. }
    rewrite lookup_delete_ne in Hl by exact Hk.
    destruct (H4 g p fr Hl) as (d0 & Hd0 & Hv0 & Hf0 & Hp0).
    exists d0. rewrite list_lookup_insert_ne; [auto|].
    intros ->. rewrite Hd in Hd0. injection Hd0 as <-. apply Hk. congruence.
  - intros j d0 Hj Hv0. destruct (decide (i = j)) as [->|Hne].
    + rewrite list_lookup_insert_eq in Hj by exact Hi. injection Hj as <-. discriminate.
    + rewrite list_lookup_insert_ne in Hj by exact Hne.
      destruct (H5 j d0 Hj Hv0) as (g & Hg & Hkey0).
      exists g. split; [exact Hg|].
      rewrite lookup_delete_ne; [exact Hkey0|].
      intros E. injection E as <- E. rewrite <- E, Hkey in Hkey0.
      injection Hkey0 as Hij. apply Nat2N.inj in Hij. contradiction.
  - intros j d0 Hj Hv0. destruct (decide (i = j)) as [->|Hne].
    + rewrite list_lookup_insert_eq in Hj by exact Hi. injection Hj as <-. reflexivity.
    + rewrite list_lookup_insert_ne in Hj by exact Hne. eapply H6; eassumption.
Qed.

(** A page is installed in an invalid frame. *)
Lemma wf_install (m : BufMgr) (i : nat) (d : BufDesc) (f : File) (p : PageId) :
  bufDescTable m !! i = Some d → valid d = false →
  hashTable m !! (f, p) = None →
  wf_pool m →
  wf_pool (with_bufDescTable (<[i := Set_ f p d]>)
             (with_hashTable (<[(f, p) := N.of_nat i]>) m)).
Proof.
  intros Hd Hv Hnone [H1 H2 H3 H4 H5 H6].
  assert (i < length (bufDescTable m))%nat as Hi by (eapply lookup_lt_Some, Hd).
  constructor; simpl.
  - rewrite length_insert. exact H1.
  - exact H2.
  - intros j d0 Hj. destruct (decide (i = j)) as [->|Hne].
    + rewrite list_lookup_insert_eq in Hj by exact Hi. injection Hj as <-.
      simpl. eapply H3, Hd.
    + rewrite list_lookup_insert_ne in Hj by exact Hne. eapply H3, Hj.
  - intros g q fr Hl.
    destruct (decide ((f, p) = (g, q))) as [E|Hk].
    + rewrite E, lookup_insert_eq in Hl. injection Hl as <-. injection E as <- <-.
      exists (Set_ f p d). rewrite Nat2N.id, list_lookup_insert_eq by exact Hi. auto.
    + rewrite lookup_insert_ne in Hl by exact Hk.
      destruct (H4 g q fr Hl) as (d0 & Hd0 & Hv0 & Hf0 & Hp0).
      exists d0. rewrite list_lookup_insert_ne; [auto|].
      intros ->. rewrite Hd in Hd0. injection Hd0 as <-. congruence.
  - intros j d0 Hj Hv0. destruct (decide (i = j)) as [->|Hne].
    + rewrite list_lookup_insert_eq in Hj by exact Hi. injection Hj as <-.
      exists f. simpl. rewrite lookup_insert_eq. auto.
    + rewrite list_lookup_insert_ne in Hj by exact Hne.
      destruct (H5 j d0 Hj Hv0) as (g & Hg & Hkey0).
      exists g. split; [exact Hg|].
      rewrite lookup_insert_ne; [exact Hkey0|].
      intros E. rewrite <- E, Hnone in Hkey0. discriminate.
  - intros j d0 Hj Hv0. destruct (decide (i = j)) as [->|Hne].
    + rewrite list_lookup_insert_eq in Hj by exact Hi. injection Hj as <-. discriminate.
    + rewrite list_lookup_insert_ne in Hj by exact Hne. eapply H6; eassumption.
Qed.

Lemma bind_run {A B} (c : M A) (k : A → M B) (s : State) :
  bind c k s =
    match c s with
    | (Return a, s') => k a s'
    | (Throw e, s') => (Throw e, s')
    | (Undefined, s') => (Undefined, s')
    | (OutOfFuel, s') => (OutOfFuel, s')
    end.
Proof. reflexivity. Qed.

Lemma wf_advanced (s : State) : wf_pool (mgr s) → wf_pool (mgr (advanced s)).
Proof. apply wf_other_fields; reflexivity. Qed.

Lemma allocBuf_loop_wf (fuel : nat) :
  ∀ (pc : N) (s : State),
    wf_pool (mgr s) →
    wf_pool (mgr (snd (allocBuf_loop fuel pc s))) ∧
    match fst (allocBuf_loop fuel pc s) with
    | Return (LoopReturn fr) =>
        ∃ d, bufDescTable (mgr (snd (allocBuf_loop fuel pc s))) !! N.to_nat fr = Some d ∧
             valid d = false
    | Return (LoopDone pc') =>
        pc' <= numBufs (mgr (snd (allocBuf_loop fuel pc s))) →
        ∃ d, bufDescTable (mgr (snd (allocBuf_loop fuel pc s)))
               !! N.to_nat (clockHand (mgr (snd (allocBuf_loop fuel pc s)))) = Some d ∧
             valid d = true
    | _ => True
    end.
Proof.
  induction fuel as [|fuel IH]; intros pc s Hwf.
  - rewrite allocBuf_loop_zero.
    destruct (pc <=? numBufs (mgr s)) eqn:Hpc; simpl; [auto|].
    split; [exact Hwf|]. intros H. apply N.leb_gt in Hpc. lia.
  - rewrite allocBuf_loop_cases.
    destruct (pc <=? numBufs (mgr s)) eqn:Hpc; simpl.
    2:{ split; [exact Hwf|]. intros H. apply N.leb_gt in Hpc. lia. }
    destruct (numBufs (mgr s) =? 0); [simpl; auto|].
    destruct (bufDescTable (mgr s) !! N.to_nat (next_hand (mgr s))) as [d|] eqn:Hd.
    2:{ simpl. split; [apply wf_advanced, Hwf | exact I]. }
    destruct (valid d) eqn:Hv; simpl.
    2:{ split; [apply wf_advanced, Hwf|].
        exists d. rewrite (wf_frameNo _ Hwf _ _ Hd), Nat2N.id. auto. }
    destruct (refbit d).
    + apply IH. simpl.
      apply (wf_keep_identity (mgr (advanced s)) _ d); auto using wf_advanced.
    + destruct (pinCnt d =? 0); simpl.
      * split; [apply wf_advanced, Hwf|]. intros _. exists d. auto.
      * apply IH, wf_advanced, Hwf.
Qed.

Lemma allocBuf_wf (pager : Pager) (fuel : nat) (s : State) :
  wf_pool (mgr s) →
  wf_pool (mgr (exec (allocBuf pager fuel) s)) ∧
  (∀ k, hashTable (mgr s) !! k = None → hashTable (mgr (exec (allocBuf pager fuel) s)) !! k = None) ∧
  (∀ fr, result (allocBuf pager fuel) s = Return fr →
     ∃ d, bufDescTable (mgr (exec (allocBuf pager fuel) s)) !! N.to_nat fr = Some d ∧
          valid d = false).
Proof.
  intros Hwf. unfold exec, result, allocBuf, allocBuf_from. rewrite bind_run.
  pose proof (allocBuf_loop_wf fuel 0 s Hwf) as [Hwf1 Hpost].
  pose proof (allocBuf_loop_sweep fuel 0 s) as (_ & _ & _ & Hh & _ & _).
  destruct (allocBuf_loop fuel 0 s) as [r s1]. simpl in Hwf1, Hpost, Hh.
  assert (∀ k, hashTable (mgr s) !! k = None → hashTable (mgr s1) !! k = None) as Hsub
    by (intros k; rewrite Hh; auto).
  destruct r as [[fr|pc']|e| |]; simpl;
    try (split; [exact Hwf1|]; split; [exact Hsub|]; intros fr0; discriminate).
  - split; [exact Hwf1|]. split; [exact Hsub|].
    intros fr0 E. injection E as <-. exact Hpost.
  - rewrite bind_run. unfold gets at 1 2 3. simpl.
    destruct (numBufs (mgr s1) <? pc') eqn:Hpc; simpl.
    { split; [exact Hwf1|]. split; [exact Hsub|]. intros fr0; discriminate. }
    apply N.ltb_ge in Hpc. destruct (Hpost Hpc) as (d & Hd & Hv).
    destruct (wf_frame_dir _ Hwf1 _ _ Hd Hv) as (f & Hf & Hkey).
    pose proof (wf_frameNo _ Hwf1 _ _ Hd) as Hfr. rewrite N2Nat.id in Hfr.
    munfold. simpl. rewrite Hd. simpl.
    assert (wf_pool (with_bufDescTable (<[N.to_nat (clockHand (mgr s1)) := Clear d]>)
                       (with_hashTable (delete (f, pageNo d)) (mgr s1)))) as Hev
      by (apply wf_evict; assumption).
    assert (∀ k, hashTable (mgr s) !! k = None →
                 delete (f, pageNo d) (hashTable (mgr s1)) !! k = None) as Hsub'.
    { intros k Hk. rewrite lookup_delete. case_decide; [reflexivity | apply Hsub, Hk]. }
    assert (∃ d0, <[N.to_nat (clockHand (mgr s1)) := Clear d]> (bufDescTable (mgr s1))
                    !! N.to_nat (frameNo d) = Some d0 ∧ valid d0 = false) as Hres.
    { exists (Clear d). rewrite Hfr.
      rewrite list_lookup_insert_eq by (eapply lookup_lt_Some, Hd). auto. }
    rewrite Hf.
    destruct (dirty d); simpl.
    + destruct (bufPool (mgr s1) !! N.to_nat (clockHand (mgr s1))) as [pg|]; simpl.
      * destruct (pager_write_ok pager (pagerLog s1) f pg); simpl.
        -- rewrite Hkey. simpl. rewrite Hd. simpl.
           split; [exact Hev|]. split; [exact Hsub'|].
           intros fr0 E. injection E as <-. exact Hres.
        -- split; [exact Hwf1|]. split; [exact Hsub|]. intros fr0; discriminate.
      * split; [exact Hwf1|]. split; [exact Hsub|]. intros fr0; discriminate.
    + rewrite Hkey. simpl. rewrite Hd. simpl.
      split; [exact Hev|]. split; [exact Hsub'|]. intros fr0 E. injection E as <-. exact Hres.
Qed.

Lemma readPage_wf (pager : Pager) (fuel : nat) (f : File) (p : PageId) (s : State) :
  wf_pool (mgr s) → wf_pool (mgr (exec (readPage pager fuel f p) s)).
Proof.
  intros Hwf. unfold exec.
  destruct (hashTable (mgr s) !! (f, p)) as [fr|] eqn:Hl.
  - rewrite (readPage_hit pager fuel f p s fr Hl).
    destruct (wf_dir_frame _ Hwf _ _ _ Hl) as (d & Hd & Hv & Hf & Hp).
    rewrite Hd. simpl. apply (wf_keep_identity (mgr s) _ d); auto.
  - rewrite (readPage_miss pager fuel f p s Hl).
    destruct (allocBuf_wf pager fuel s Hwf) as (Hwf1 & Hsub & Hres).
    unfold exec, result in *.
    destruct (allocBuf pager fuel s) as [[fr| e | |] s1]; simpl in *; try exact Hwf1.
    destruct (Hres fr eq_refl) as (d & Hd & Hv).
    specialize (Hsub _ Hl).
    assert (N.to_nat fr < length (bufPool (mgr s1)))%nat as Hlt.
    { rewrite (wf_pool_len _ Hwf1), <- (wf_table_len _ Hwf1). eapply lookup_lt_Some, Hd. }
    munfold. simpl.
    destruct (pager_read_ok pager (pagerLog s1) f p); simpl; [|exact Hwf1].
    rewrite decide_True by exact Hlt. simpl.
    rewrite Hsub. simpl. rewrite Hd. simpl.
    assert (wf_pool (with_bufPool (<[N.to_nat fr := pager_read pager (pagerLog s1) f p]>)
                       (mgr s1))) as Hwf2.
    { apply (wf_other_fields (mgr s1)); try reflexivity; [|exact Hwf1].
      simpl. apply length_insert. }
    pose proof (wf_install
                  (with_bufPool (<[N.to_nat fr := pager_read pager (pagerLog s1) f p]>) (mgr s1))
                  (N.to_nat fr) d f p Hd Hv Hsub Hwf2) as Hin.
    rewrite N2Nat.id in Hin. exact Hin.
Qed.

Lemma allocPage_wf (pager : Pager) (fuel : nat) (f : File) (s : State) :
  wf_pool (mgr s) → wf_pool (mgr (exec (allocPage pager fuel f) s)).
Proof.
  intros Hwf. unfold exec, allocPage. rewrite bind_run.
  destruct (allocBuf_wf pager fuel s Hwf) as (Hwf1 & _ & Hres).
  unfold exec, result in *.
  destruct (allocBuf pager fuel s) as [[fr| e | |] s1]; simpl in *; try exact Hwf1.
  destruct (Hres fr eq_refl) as (d & Hd & Hv).
  assert (N.to_nat fr < length (bufPool (mgr s1)))%nat as Hlt.
  { rewrite (wf_pool_len _ Hwf1), <- (wf_table_len _ Hwf1). eapply lookup_lt_Some, Hd. }
  set (pg := pager_allocate pager (pagerLog s1) f).
  assert (wf_pool (with_bufPool (<[N.to_nat fr := pg]>) (mgr s1))) as Hwf2.
  { apply (wf_other_fields (mgr s1)); try reflexivity; [|exact Hwf1].
    simpl. apply length_insert. }
  munfold. simpl. rewrite decide_True by exact Hlt. simpl. fold pg.
  destruct (hashTable (mgr s1) !! (f, page_number pg)) eqn:Hk; simpl; [exact Hwf2|].
  rewrite Hd. simpl.
  pose proof (wf_install (with_bufPool (<[N.to_nat fr := pg]>) (mgr s1))
                (N.to_nat fr) d f (page_number pg) Hd Hv Hk Hwf2) as Hin.
  rewrite N2Nat.id in Hin. exact Hin.
Qed.

Lemma unPinPage_wf (pager : Pager) (f : File) (p : PageId) (b : bool) (s : State) :
  wf_pool (mgr s) → wf_pool (mgr (exec (unPinPage pager f p b) s)).
Proof.
  intros Hwf. unfold exec.
  destruct (hashTable (mgr s) !! (f, p)) as [fr|] eqn:Hl.
  - destruct (wf_dir_frame _ Hwf _ _ _ Hl) as (d & Hd & Hv & Hf & Hp).
    rewrite (unPinPage_cached pager f p b s fr d Hl Hd).
    destruct (pinCnt d =? 0); simpl; [exact Hwf|].
    apply (wf_keep_identity (mgr s) _ d); auto; destruct b; auto.
  - assert (unPinPage pager f p b s = (Throw HashNotFoundException, s)) as ->
      by (unfold unPinPage; munfold; rewrite Hl; reflexivity).
    exact Hwf.
Qed.

Lemma disposePage_wf (f : File) (p : PageId) (s : State) :
  wf_pool (mgr s) → wf_pool (mgr (exec (disposePage f p) s)).
Proof.
  intros Hwf. unfold exec.
  destruct (hashTable (mgr s) !! (f, p)) as [fr|] eqn:Hl.
  - destruct (wf_dir_frame _ Hwf _ _ _ Hl) as (d & Hd & Hv & Hf & Hp).
    rewrite (disposePage_hit f p s fr d Hl Hd Hf Hp). simpl.
    rewrite <- Hp. apply wf_evict; assumption.
  - assert (disposePage f p s = (Throw HashNotFoundException, s)) as ->
      by (unfold disposePage; munfold; rewrite Hl; reflexivity).
    exact Hwf.
Qed.

Lemma for_each_preserves (P : State → Prop) (body : N → M unit) (l : list nat) :
  (∀ i s, P s → P (snd (body i s))) →
  ∀ s, P s → P (snd (for_each l body s)).
Proof.
  intros Hbody. induction l as [|i l IH]; intros s Hs; [exact Hs|].
  rewrite for_each_cons. specialize (Hbody (N.of_nat i) s Hs).
  destruct (body (N.of_nat i) s) as [[[]|e| |] s1]; simpl in *; auto.
Qed.

Lemma flushFile_body_wf (pager : Pager) (f : File) (i : N) (s : State) :
  wf_pool (mgr s) → wf_pool (mgr (snd (flushFile_body pager f i s))).
Proof.
  intros Hwf. unfold flushFile_body. munfold.
  destruct (bufDescTable (mgr s) !! N.to_nat i) as [d|] eqn:Hd; simpl; [|exact Hwf].
  assert (wf_pool (with_bufStats incr_accesses (mgr s))) as Hwf0
    by (apply (wf_other_fields (mgr s)); auto).
  destruct (decide (Some f = file d)) as [Hf|Hf]; simpl; [|exact Hwf0].
  destruct (valid d) eqn:Hv; simpl; [|exact Hwf0].
  destruct (0 <? pinCnt d); simpl; [exact Hwf0|].
  destruct (wf_frame_dir _ Hwf _ _ Hd Hv) as (g & Hg & Hkey).
  assert (g = f) as -> by congruence.
  assert (N.to_nat i < length (bufDescTable (mgr s)))%nat as Hi by (eapply lookup_lt_Some, Hd).
  destruct (dirty d) eqn:Hdirty; simpl.
  - destruct (bufPool (mgr s) !! N.to_nat (frameNo d)) as [pg|]; simpl; [|exact Hwf0].
    rewrite <- Hf. simpl.
    destruct (pager_write_ok pager (pagerLog s) f pg); simpl; [|exact Hwf0].
    rewrite Hd. simpl. rewrite Hkey. simpl.
    rewrite list_lookup_insert_eq by exact Hi. simpl.
    apply (wf_other_fields
             (with_bufDescTable (<[N.to_nat i := Clear (set_dirty false d)]>)
                (with_hashTable (delete (f, pageNo (set_dirty false d)))
                   (with_bufDescTable (<[N.to_nat i := set_dirty false d]>) (mgr s)))));
      try reflexivity.
    apply wf_evict; auto.
    + simpl. apply list_lookup_insert_eq, Hi.
    + apply (wf_keep_identity (mgr s) _ d); auto.
  - rewrite Hkey. simpl. rewrite Hd. simpl.
    apply (wf_other_fields
             (with_bufDescTable (<[N.to_nat i := Clear d]>)
                (with_hashTable (delete (f, pageNo d)) (mgr s)))); try reflexivity.
    apply wf_evict; auto.
Qed.

Lemma flushFile_wf (pager : Pager) (f : File) (s : State) :
  wf_pool (mgr s) → wf_pool (mgr (exec (flushFile pager f) s)).
Proof.
  intros Hwf. unfold exec.
  change (flushFile pager f s)
    with (for_each (seq 0 (N.to_nat (numBufs (mgr s)))) (flushFile_body pager f) s).
  apply (for_each_preserves (fun s => wf_pool (mgr s))); [|exact Hwf].
  intros i s0. apply flushFile_body_wf.
Qed.

(** What the theorems on shutdown and dispose ask of a pool follows from
    the invariants. *)
Lemma wf_arrays_sized (m : BufMgr) : wf_pool m → arrays_sized m.
Proof. intros H. split; [apply (wf_table_len _ H) | apply (wf_pool_len _ H)]. Qed.

Lemma wf_dirty_has_file (m : BufMgr) :
  wf_pool m → Forall (fun d => dirty d = true → file d ≠ None) (bufDescTable m).
Proof.
  intros H. apply Forall_lookup. intros i d Hd Hdirty.
  destruct (valid d) eqn:Hv.
  - destruct (wf_frame_dir _ H _ _ Hd Hv) as (f & -> & _). discriminate.
  - rewrite (wf_invalid _ H _ _ Hd Hv) in Hdirty. discriminate.
Qed.

(** ** Construction and the clock *)

Lemma wrap32_pred (bufs : N) : 0 < bufs → bufs < 2 ^ 32 → wrap32 (bufs + 2 ^ 32 - 1) = bufs - 1.
Proof.
  intros H0 Hb. unfold wrap32.
  replace (bufs + 2 ^ 32 - 1) with (bufs - 1 + 1 * 2 ^ 32) by lia.
  rewrite N.Div0.mod_add. apply N.mod_small. lia.
Qed.

Lemma BufMgr_new_lookup (bufs : N) (i : nat) (d : BufDesc) :
  bufDescTable (BufMgr_new bufs) !! i = Some d ↔
  (i < N.to_nat bufs)%nat ∧ d = mkBufDesc None 0 (N.of_nat i) 0 false false false.
Proof.
  simpl. rewrite list_lookup_fmap. split.
  - intros H. destruct (seq 0 (N.to_nat bufs) !! i) as [j|] eqn:Hj; [|discriminate].
    apply lookup_seq in Hj as [-> Hlt]. simpl in H. injection H as <-. auto.
  - intros [Hlt ->]. rewrite (lookup_seq_lt _ _ _ Hlt). reflexivity.
Qed.

(** X2: the first allocation.  In a pool just built for [bufs] frames,
    0 < bufs < 2^32, the clock hand is on the last frame, so that the first
    [allocBuf] advances it to frame 0 and returns frame 0 at once, with no
    pager call and no other change. *)
Theorem allocBuf_fresh_pool (pager : Pager) (bufs : N) (fuel : nat) :
  0 < bufs → bufs < 2 ^ 32 →
  clockHand (BufMgr_new bufs) = bufs - 1 ∧
  allocBuf pager (S fuel) (init_state bufs)
    = (Return 0, mkState (with_clockHand 0 (BufMgr_new bufs)) []).
Proof.
  intros H0 Hb.
  assert (clockHand (BufMgr_new bufs) = bufs - 1) as Hhand by (apply wrap32_pred; assumption).
  split; [exact Hhand|].
  assert (next_hand (mgr (init_state bufs)) = 0) as Hnext.
  { unfold next_hand. change (mgr (init_state bufs)) with (BufMgr_new bufs).
    rewrite Hhand. change (numBufs (BufMgr_new bufs)) with bufs.
    replace (bufs - 1 + 1) with bufs by lia.
    rewrite wrap32_small by exact Hb. apply N.Div0.mod_same. }
  assert (bufDescTable (mgr (init_state bufs)) !! N.to_nat (next_hand (mgr (init_state bufs)))
          = Some (mkBufDesc None 0 0 0 false false false)) as Hd.
  { rewrite Hnext. apply BufMgr_new_lookup. split; [lia | reflexivity]. }
  unfold allocBuf, allocBuf_from. rewrite bind_run.
  rewrite (allocBuf_loop_unfold fuel 0 (init_state bufs) _ (N.le_0_l _)
             ltac:(simpl; lia) Hd).
  simpl. unfold ret, advanced. rewrite Hnext. reflexivity.
Qed.

Lemma allocBuf_fresh_pool_witness :
  clockHand (BufMgr_new 3) = 3 - 1 ∧
  allocBuf demo_pager 1 (init_state 3) = (Return 0, mkState (with_clockHand 0 (BufMgr_new 3)) []).
Proof. apply (allocBuf_fresh_pool demo_pager 3 0); reflexivity. Defined.

Lemma advanceClock_run (s : State) :
  numBufs (mgr s) ≠ 0 → advanceClock s = (Return tt, advanced s).
Proof. intros H. unfold advanceClock. apply N.eqb_neq in H. rewrite H. reflexivity. Qed.

Lemma next_hand_small (m : BufMgr) :
  clockHand m < numBufs m → numBufs m < 2 ^ 32 →
  next_hand m = (clockHand m + 1) mod numBufs m.
Proof. intros Hh Hb. unfold next_hand. rewrite wrap32_small by lia. reflexivity. Qed.

(** X3: the clock is cyclic.  With the hand in range and fewer than 2^32
    frames, [k] calls of [advanceClock] move the hand to
    [(clockHand + k) mod numBufs] and change nothing else; [numBufs] calls
    bring it back to where it was. *)
Theorem advanceClock_times_hand (k : nat) (s : State) :
  clockHand (mgr s) < numBufs (mgr s) → numBufs (mgr s) < 2 ^ 32 →
  advanceClock_times k s =
    (Return tt,
     mkState (with_clockHand ((clockHand (mgr s) + N.of_nat k) mod numBufs (mgr s)) (mgr s))
             (pagerLog s)) ∧
  advanceClock_times (N.to_nat (numBufs (mgr s))) s = (Return tt, s).
Proof.
  intros Hh Hb.
  assert (∀ k s, clockHand (mgr s) < numBufs (mgr s) → numBufs (mgr s) < 2 ^ 32 →
            advanceClock_times k s =
              (Return tt,
               mkState (with_clockHand ((clockHand (mgr s) + N.of_nat k) mod numBufs (mgr s))
                          (mgr s)) (pagerLog s))) as Hgen.
  { clear. induction k as [|k IH]; intros s Hh Hb.
    - simpl. rewrite N.add_0_r, N.mod_small by exact Hh.
      destruct s as [[n t p h c st] l]. reflexivity.
    - simpl. rewrite bind_run, advanceClock_run by lia.
      rewrite IH; simpl; [| apply N.mod_lt; lia | exact Hb].
      rewrite next_hand_small by assumption.
      rewrite N.Div0.add_mod_idemp_l. unfold with_clockHand. simpl.
      do 3 f_equal. f_equal. lia. }
  split; [apply Hgen; assumption|].
  rewrite Hgen by assumption. rewrite N2Nat.id.
  replace (clockHand (mgr s) + numBufs (mgr s)) with (clockHand (mgr s) + 1 * numBufs (mgr s))
    by lia.
  rewrite N.Div0.mod_add, N.mod_small by exact Hh.
  destruct s as [[n t p h c st] l]. reflexivity.
Qed.

Lemma advanceClock_times_hand_witness :
  advanceClock_times 5 pool_one_unpinned =
    (Return tt,
     mkState (with_clockHand ((clockHand (mgr pool_one_unpinned) + N.of_nat 5)
                                mod numBufs (mgr pool_one_unpinned))
                (mgr pool_one_unpinned)) (pagerLog pool_one_unpinned)) ∧
  advanceClock_times (N.to_nat (numBufs (mgr pool_one_unpinned))) pool_one_unpinned
    = (Return tt, pool_one_unpinned).
Proof.
  apply (advanceClock_times_hand 5 pool_one_unpinned); vm_compute; reflexivity.
Defined.

(** ** More on the sweep *)

Lemma ref_cleared_lookup_r (t t' : list BufDesc) (j : nat) (d' : BufDesc) :
  ref_cleared t t' → t' !! j = Some d' →
  ∃ d, t !! j = Some d ∧ (d' = d ∨ d' = set_refbit false d).
Proof. intros H Hj. destruct (Forall2_lookup_r _ _ _ _ _ H Hj) as (d & Hd & Hrel). eauto. Qed.

Lemma ref_cleared_lookup_l (t t' : list BufDesc) (j : nat) (d : BufDesc) :
  ref_cleared t t' → t !! j = Some d →
  ∃ d', t' !! j = Some d' ∧ (d' = d ∨ d' = set_refbit false d).
Proof. intros H Hj. destruct (Forall2_lookup_l _ _ _ _ _ H Hj) as (d' & Hd & Hrel). eauto. Qed.

(** How the loop of [allocBuf] ends in a pool that satisfies the
    invariants: a frame returned from inside the loop is invalid; when the
    loop is left with [pinCount <= numBufs], the hand is on a valid frame
    that is not pinned and whose reference bit is clear. *)
Lemma allocBuf_loop_victim (fuel : nat) :
  ∀ (pc : N) (s : State),
    wf_pool (mgr s) →
    match fst (allocBuf_loop fuel pc s) with
    | Return (LoopReturn fr) =>
        ∃ d, bufDescTable (mgr (snd (allocBuf_loop fuel pc s))) !! N.to_nat fr = Some d ∧
             valid d = false
    | Return (LoopDone pc') =>
        pc' <= numBufs (mgr (snd (allocBuf_loop fuel pc s))) →
        ∃ d, bufDescTable (mgr (snd (allocBuf_loop fuel pc s)))
               !! N.to_nat (clockHand (mgr (snd (allocBuf_loop fuel pc s)))) = Some d ∧
             valid d = true ∧ pinCnt d = 0 ∧ refbit d = false
    | _ => True
    end.
Proof.
  induction fuel as [|fuel IH]; intros pc s Hwf.
  - rewrite allocBuf_loop_zero.
    destruct (pc <=? numBufs (mgr s)) eqn:Hpc; simpl; [auto|].
    intros H. apply N.leb_gt in Hpc. lia.
  - rewrite allocBuf_loop_cases.
    destruct (pc <=? numBufs (mgr s)) eqn:Hpc; simpl.
    2:{ intros H. apply N.leb_gt in Hpc. lia. }
    destruct (numBufs (mgr s) =? 0); [simpl; auto|].
    destruct (bufDescTable (mgr s) !! N.to_nat (next_hand (mgr s))) as [d|] eqn:Hd;
      [|simpl; auto].
    destruct (valid d) eqn:Hv; simpl.
    2:{ exists d. rewrite (wf_frameNo _ Hwf _ _ Hd), Nat2N.id. auto. }
    destruct (refbit d) eqn:Hr.
    + apply IH. simpl.
      apply (wf_keep_identity (mgr (advanced s)) _ d); auto using wf_advanced.
    + destruct (pinCnt d =? 0) eqn:Hp; simpl.
      * intros _. exists d. apply N.eqb_eq in Hp. auto.
      * apply IH, wf_advanced, Hwf.
Qed.

(** In a pool with at least one frame that satisfies the invariants, the
    loop has no undefined behaviour. *)
Lemma allocBuf_loop_defined (fuel : nat) :
  ∀ (pc : N) (s : State),
    wf_pool (mgr s) → numBufs (mgr s) ≠ 0 →
    defined (fst (allocBuf_loop fuel pc s)) = true.
Proof.
  induction fuel as [|fuel IH]; intros pc s Hwf Hn.
  - rewrite allocBuf_loop_zero. destruct (pc <=? numBufs (mgr s)); reflexivity.
  - rewrite allocBuf_loop_cases.
    destruct (pc <=? numBufs (mgr s)); [|reflexivity].
    destruct (numBufs (mgr s) =? 0) eqn:Hn0; [apply N.eqb_eq in Hn0; contradiction|].
    destruct (bufDescTable (mgr s) !! N.to_nat (next_hand (mgr s))) as [d|] eqn:Hd.
    2:{ apply lookup_ge_None in Hd. rewrite (wf_table_len _ Hwf) in Hd.
        pose proof (next_hand_lt (mgr s) Hn). lia. }
    destruct (valid d) eqn:Hv; simpl; [|reflexivity].
    destruct (refbit d).
    + apply IH; simpl; [|exact Hn].
      apply (wf_keep_identity (mgr (advanced s)) _ d); auto using wf_advanced.
    + destruct (pinCnt d =? 0); [reflexivity|].
      apply IH; [apply wf_advanced, Hwf | exact Hn].
Qed.

(** The sweep keeps the hand in range. *)
Lemma allocBuf_loop_hand (fuel : nat) :
  ∀ (pc : N) (s : State),
    clockHand (mgr s) < numBufs (mgr s) →
    clockHand (mgr (snd (allocBuf_loop fuel pc s)))
      < numBufs (mgr (snd (allocBuf_loop fuel pc s))).
Proof.
  induction fuel as [|fuel IH]; intros pc s Hh.
  - rewrite allocBuf_loop_zero. destruct (pc <=? numBufs (mgr s)); exact Hh.
  - rewrite allocBuf_loop_cases.
    assert (numBufs (mgr s) ≠ 0) as Hn by lia.
    pose proof (next_hand_lt (mgr s) Hn) as Hnext.
    destruct (pc <=? numBufs (mgr s)); [|exact Hh].
    destruct (numBufs (mgr s) =? 0); [exact Hh|].
    destruct (bufDescTable (mgr s) !! N.to_nat (next_hand (mgr s))) as [d|]; [|exact Hnext].
    destruct (negb (valid d)); [exact Hnext|].
    destruct (refbit d); [apply IH; exact Hnext|].
    destruct (pinCnt d =? 0); [exact Hnext | apply IH; exact Hnext].
Qed.

(** A free frame [k] advances ahead of the hand is reached before
    [pinCount] can exceed [numBufs]: the loop ends with a frame or a
    victim. *)
Lemma allocBuf_loop_finds_free (k : nat) :
  ∀ (fuel : nat) (pc : N) (s : State),
    length (bufDescTable (mgr s)) = N.to_nat (numBufs (mgr s)) →
    clockHand (mgr s) < numBufs (mgr s) → numBufs (mgr s) < 2 ^ 32 →
    (N.to_nat pc + k ≤ N.to_nat (numBufs (mgr s)))%nat →
    (k < fuel)%nat →
    (∃ d, bufDescTable (mgr s)
            !! N.to_nat ((clockHand (mgr s) + 1 + N.of_nat k) mod numBufs (mgr s)) = Some d ∧
          valid d = false) →
    ∃ r, fst (allocBuf_loop fuel pc s) = Return r ∧
         match r with
         | LoopReturn _ => True
         | LoopDone pc' => pc' <= numBufs (mgr (snd (allocBuf_loop fuel pc s)))
         end.
Proof.
  induction k as [|k IH]; intros fuel pc s Hlen Hh Hb Hpc Hfuel (d0 & Hd0 & Hv0);
    (destruct fuel as [|fuel]; [lia|]);
    assert (numBufs (mgr s) ≠ 0) as Hn by lia;
    pose proof (next_hand_lt (mgr s) Hn) as Hnext;
    pose proof (next_hand_small (mgr s) Hh Hb) as Hnh;
    rewrite allocBuf_loop_cases;
    (assert ((pc <=? numBufs (mgr s)) = true) as -> by (apply N.leb_le; lia));
    (assert ((numBufs (mgr s) =? 0) = false) as -> by (apply N.eqb_neq; exact Hn)).
  - simpl N.of_nat in Hd0. rewrite N.add_0_r, <- Hnh in Hd0. rewrite Hd0, Hv0. simpl.
    exists (LoopReturn (frameNo d0)). auto.
  - destruct (bufDescTable (mgr s) !! N.to_nat (next_hand (mgr s))) as [d|] eqn:Hd.
    2:{ apply lookup_ge_None in Hd. lia. }
    assert ((next_hand (mgr s) + 1 + N.of_nat k) mod numBufs (mgr s)
            = (clockHand (mgr s) + 1 + N.of_nat (S k)) mod numBufs (mgr s)) as Htarget.
    { rewrite Hnh. rewrite <- N.add_assoc, N.Div0.add_mod_idemp_l. f_equal. lia. }
    destruct (valid d) eqn:Hv; simpl; [|exists (LoopReturn (frameNo d)); auto].
    destruct (refbit d) eqn:Hr.
    + apply IH; simpl; try assumption; try lia.
      * rewrite length_insert. exact Hlen.
      * fold (next_hand (mgr s)). rewrite Htarget.
        destruct (decide (N.to_nat (next_hand (mgr s))
                          = N.to_nat ((clockHand (mgr s) + 1 + N.of_nat (S k))
                                        mod numBufs (mgr s)))) as [E|Hne].
        -- rewrite <- E in Hd0. congruence.
        -- exists d0. rewrite list_lookup_insert_ne by exact Hne. auto.
    + destruct (pinCnt d =? 0); simpl.
      * exists (LoopDone pc). split; [reflexivity|]. lia.
      * rewrite wrap32_small by lia.
        apply IH; simpl; try assumption; try lia.
        fold (next_hand (mgr s)). rewrite Htarget. eauto.
Qed.

(** What [allocBuf] does once its loop has ended. *)
Lemma allocBuf_of_loop_return (pager : Pager) (fuel : nat) (s s1 : State) (fr : FrameId) :
  allocBuf_loop fuel 0 s = (Return (LoopReturn fr), s1) →
  allocBuf pager fuel s = (Return fr, s1).
Proof. intros E. unfold allocBuf, allocBuf_from. rewrite bind_run, E. reflexivity. Qed.

Lemma allocBuf_of_loop_exceeded (pager : Pager) (fuel : nat) (s s1 : State) (pc' : N) :
  allocBuf_loop fuel 0 s = (Return (LoopDone pc'), s1) →
  numBufs (mgr s1) < pc' →
  allocBuf pager fuel s = (Throw BufferExceededException, s1).
Proof.
  intros E H. unfold allocBuf, allocBuf_from. rewrite bind_run, E. unfold bind, gets, throw. simpl.
  apply N.ltb_lt in H. rewrite H. reflexivity.
Qed.

Lemma allocBuf_of_loop_victim (pager : Pager) (fuel : nat) (s s1 : State) (pc' : N) (d : BufDesc) :
  allocBuf_loop fuel 0 s = (Return (LoopDone pc'), s1) →
  pc' <= numBufs (mgr s1) →
  wf_pool (mgr s1) →
  bufDescTable (mgr s1) !! N.to_nat (clockHand (mgr s1)) = Some d →
  valid d = true →
  ∃ f pg,
    file d = Some f ∧
    bufPool (mgr s1) !! N.to_nat (clockHand (mgr s1)) = Some pg ∧
    hashTable (mgr s1) !! (f, pageNo d) = Some (clockHand (mgr s1)) ∧
    frameNo d = clockHand (mgr s1) ∧
    allocBuf pager fuel s =
      if dirty d && negb (pager_write_ok pager (pagerLog s1) f pg)
      then (Throw (PagerIOException (WritePage f pg)),
            mkState (mgr s1) (pagerLog s1 ++ [WritePage f pg]))
      else
        (Return (frameNo d),
         mkState (with_bufDescTable (<[N.to_nat (clockHand (mgr s1)) := Clear d]>)
                    (with_hashTable (delete (f, pageNo d)) (mgr s1)))
                 (pagerLog s1 ++ (if dirty d then [WritePage f pg] else []))).
Proof.
  intros E Hpc Hwf Hd Hv.
  destruct (wf_frame_dir _ Hwf _ _ Hd Hv) as (f & Hf & Hkey).
  pose proof (wf_frameNo _ Hwf _ _ Hd) as Hfr. rewrite N2Nat.id in Hfr, Hkey.
  assert (N.to_nat (clockHand (mgr s1)) < length (bufPool (mgr s1)))%nat as Hlt.
  { rewrite (wf_pool_len _ Hwf), <- (wf_table_len _ Hwf). eapply lookup_lt_Some, Hd. }
  destruct (lookup_lt_is_Some_2 _ _ Hlt) as [pg Hpg].
  exists f, pg. repeat (split; [assumption|]).
  unfold allocBuf, allocBuf_from. rewrite bind_run, E.
  munfold. simpl. apply N.ltb_ge in Hpc. rewrite Hpc. simpl. rewrite Hd. simpl.
  rewrite Hf. destruct (dirty d); simpl.
  - rewrite Hpg. simpl.
    destruct (pager_write_ok pager (pagerLog s1) f pg); simpl; [|reflexivity].
    rewrite Hkey. simpl. rewrite Hd. reflexivity.
  - rewrite Hkey. simpl. rewrite Hd. simpl. rewrite app_nil_r. reflexivity.
Qed.

Lemma allocBuf_defined (pager : Pager) (fuel : nat) (s : State) :
  wf_pool (mgr s) → numBufs (mgr s) ≠ 0 →
  defined (result (allocBuf pager fuel) s) = true.
Proof.
  intros Hwf Hn. unfold result.
  pose proof (allocBuf_loop_defined fuel 0 s Hwf Hn) as Hdef.
  pose proof (allocBuf_loop_wf fuel 0 s Hwf) as [Hwf1 _].
  pose proof (allocBuf_loop_victim fuel 0 s Hwf) as Hpost.
  destruct (allocBuf_loop fuel 0 s) as [r s1] eqn:E. simpl in Hdef, Hwf1, Hpost.
  destruct r as [[fr|pc']|e| |]; try discriminate.
  - rewrite (allocBuf_of_loop_return pager fuel s s1 fr E). reflexivity.
  - destruct (N.lt_ge_cases (numBufs (mgr s1)) pc') as [Hlt|Hge].
    + rewrite (allocBuf_of_loop_exceeded pager fuel s s1 pc' E Hlt). reflexivity.
    + destruct (Hpost Hge) as (d & Hd & Hv & _).
      destruct (allocBuf_of_loop_victim pager fuel s s1 pc' d E Hge Hwf1 Hd Hv)
        as (f & pg & _ & _ & _ & _ & ->).
      destruct (dirty d && negb _); reflexivity.
  - unfold allocBuf, allocBuf_from. rewrite bind_run, E. reflexivity.
  - unfold allocBuf, allocBuf_from. rewrite bind_run, E. reflexivity.
Qed.

Lemma allocBuf_hand (pager : Pager) (fuel : nat) (s : State) :
  clockHand (mgr s) < numBufs (mgr s) →
  clockHand (mgr (exec (allocBuf pager fuel) s)) < numBufs (mgr (exec (allocBuf pager fuel) s)).
Proof.
  intros Hh. pose proof (allocBuf_loop_hand fuel 0 s Hh) as H1.
  unfold exec, allocBuf, allocBuf_from. rewrite bind_run.
  destruct (allocBuf_loop fuel 0 s) as [r s1]. simpl in H1.
  destruct r as [[fr|pc']|e| |]; try exact H1.
  munfold. simpl. repeat mcase; exact H1.
Qed.

(** With a free frame in the pool, [allocBuf] returns a frame, unless the
    write-back of a victim met before the free frame fails. *)
Lemma allocBuf_free_cases (pager : Pager) (fuel : nat) (s : State) :
  wf_pool (mgr s) →
  clockHand (mgr s) < numBufs (mgr s) → numBufs (mgr s) < 2 ^ 32 →
  has_free_frame (mgr s) →
  (N.to_nat (numBufs (mgr s)) ≤ fuel)%nat →
  (∃ fr, result (allocBuf pager fuel) s = Return fr) ∨
  (∃ f pg, pager_write_ok pager (pagerLog s) f pg = false ∧
           result (allocBuf pager fuel) s = Throw (PagerIOException (WritePage f pg))).
Proof.
  intros Hwf Hh Hb (i & d0 & Hd0 & Hv0) Hfuel.
  pose proof (wf_table_len _ Hwf) as Hlen.
  assert (i < N.to_nat (numBufs (mgr s)))%nat as Hi
    by (rewrite <- Hlen; eapply lookup_lt_Some, Hd0).
  set (n := numBufs (mgr s)) in *. set (h := clockHand (mgr s)) in *.
  set (k := (N.of_nat i + n - h - 1) mod n).
  assert (k < n) as Hk by (apply N.mod_lt; lia).
  assert ((h + 1 + N.of_nat (N.to_nat k)) mod n = N.of_nat i) as Htarget.
  { rewrite N2Nat.id. unfold k. rewrite N.Div0.add_mod_idemp_r.
    replace (h + 1 + (N.of_nat i + n - h - 1)) with (N.of_nat i + 1 * n) by lia.
    rewrite N.Div0.mod_add. apply N.mod_small. lia. }
  destruct (allocBuf_loop_finds_free (N.to_nat k) fuel 0 s Hlen Hh Hb)
    as (r & Hr & Hpost); [simpl; lia | lia | |].
  { fold n h. rewrite Htarget, Nat2N.id. eauto. }
  pose proof (allocBuf_loop_wf fuel 0 s Hwf) as [Hwf1 _].
  pose proof (allocBuf_loop_victim fuel 0 s Hwf) as Hvic.
  pose proof (allocBuf_loop_sweep fuel 0 s) as (_ & _ & _ & _ & _ & Hlog).
  unfold result.
  destruct (allocBuf_loop fuel 0 s) as [r0 s1] eqn:E. simpl in Hr, Hpost, Hwf1, Hvic, Hlog.
  subst r0. destruct r as [fr|pc'].
  - left. exists fr. rewrite (allocBuf_of_loop_return pager fuel s s1 fr E). reflexivity.
  - destruct (Hvic Hpost) as (d & Hd & Hv & _).
    destruct (allocBuf_of_loop_victim pager fuel s s1 pc' d E Hpost Hwf1 Hd Hv)
      as (f & pg & _ & _ & _ & _ & ->).
    rewrite Hlog.
    destruct (dirty d); simpl; [|left; exists (frameNo d); reflexivity].
    destruct (pager_write_ok pager (pagerLog s) f pg) eqn:Hok; simpl.
    + left. exists (frameNo d). reflexivity.
    + right. exists f, pg. auto.
Qed.

(** With a free frame in the pool and no failing write, [allocBuf] returns
    a frame. *)
Lemma allocBuf_free (pager : Pager) (fuel : nat) (s : State) :
  wf_pool (mgr s) →
  clockHand (mgr s) < numBufs (mgr s) → numBufs (mgr s) < 2 ^ 32 →
  has_free_frame (mgr s) →
  (N.to_nat (numBufs (mgr s)) ≤ fuel)%nat →
  (∀ f pg, pager_write_ok pager (pagerLog s) f pg = true) →
  ∃ fr, result (allocBuf pager fuel) s = Return fr.
Proof.
  intros Hwf Hh Hb Hfree Hfuel Hok.
  destruct (allocBuf_free_cases pager fuel s Hwf Hh Hb Hfree Hfuel)
    as [H|(f & pg & Hno & _)]; [exact H|].
  rewrite Hok in Hno. discriminate.
Qed.

(** The effect of a call of [allocBuf] that returns a frame. *)
Lemma allocBuf_effect (pager : Pager) (fuel : nat) (s : State) (fr : FrameId) :
  wf_pool (mgr s) →
  result (allocBuf pager fuel) s = Return fr →
  ∃ d0,
    bufDescTable (mgr s) !! N.to_nat fr = Some d0 ∧
    (valid d0 = true → pinCnt d0 = 0) ∧
    bufDescTable (mgr (exec (allocBuf pager fuel) s)) !! N.to_nat fr = Some (Clear d0) ∧
    (∀ j d, j ≠ N.to_nat fr → bufDescTable (mgr s) !! j = Some d →
       ∃ d', bufDescTable (mgr (exec (allocBuf pager fuel) s)) !! j = Some d' ∧
             (d' = d ∨ d' = set_refbit false d)) ∧
    hashTable (mgr (exec (allocBuf pager fuel) s))
      = match file d0 with
        | Some f => delete (f, pageNo d0) (hashTable (mgr s))
        | None => hashTable (mgr s)
        end ∧
    (∃ w, pagerLog (exec (allocBuf pager fuel) s) = pagerLog s ++ w ∧
          (dirty d0 = false → w = []) ∧
          (dirty d0 = true →
             ∃ f pg, file d0 = Some f ∧ bufPool (mgr s) !! N.to_nat fr = Some pg ∧
                     w = [WritePage f pg])) ∧
    bufPool (mgr (exec (allocBuf pager fuel) s)) = bufPool (mgr s) ∧
    bufStats (mgr (exec (allocBuf pager fuel) s)) = bufStats (mgr s).
Proof.
  intros Hwf Hres. unfold result, exec in *.
  pose proof (allocBuf_loop_wf fuel 0 s Hwf) as [Hwf1 _].
  pose proof (allocBuf_loop_victim fuel 0 s Hwf) as Hvic.
  pose proof (allocBuf_loop_sweep fuel 0 s) as (Hn & Hrc & Hpool & Hhash & Hst & Hlog).
  destruct (allocBuf_loop fuel 0 s) as [r s1] eqn:E.
  simpl in Hwf1, Hvic, Hn, Hrc, Hpool, Hhash, Hst, Hlog.
  assert (∀ j d, bufDescTable (mgr s) !! j = Some d →
            ∃ d', bufDescTable (mgr s1) !! j = Some d' ∧ (d' = d ∨ d' = set_refbit false d))
    as Hothers by (intros j d; apply ref_cleared_lookup_l, Hrc).
  destruct r as [[fr1|pc']|e| |].
  - rewrite (allocBuf_of_loop_return pager fuel s s1 fr1 E) in *. simpl in *.
    injection Hres as <-. destruct Hvic as (d & Hd & Hv).
    destruct (ref_cleared_lookup_r _ _ _ _ Hrc Hd) as (d0 & Hd0 & Hrel).
    assert (valid d0 = false) as Hv0 by (destruct Hrel as [->| ->]; exact Hv).
    pose proof (wf_invalid _ Hwf _ _ Hd0 Hv0) as Hclr.
    assert (d = Clear d0) as -> by (destruct Hrel as [->| ->]; rewrite Hclr; reflexivity).
    exists d0. split; [exact Hd0|]. split; [congruence|]. split; [exact Hd|].
    split; [intros j d _; apply Hothers|].
    split; [rewrite Hclr; exact Hhash|].
    split; [|auto].
    exists []. rewrite app_nil_r. split; [exact Hlog|]. split; [reflexivity|].
    rewrite Hclr. discriminate.
  - destruct (N.lt_ge_cases (numBufs (mgr s1)) pc') as [Hlt|Hge].
    { rewrite (allocBuf_of_loop_exceeded pager fuel s s1 pc' E Hlt) in Hres. discriminate. }
    destruct (Hvic Hge) as (d & Hd & Hv & Hp & Hr).
    destruct (allocBuf_of_loop_victim pager fuel s s1 pc' d E Hge Hwf1 Hd Hv)
      as (f & pg & Hf & Hpg & Hkey & Hfr & Hrun).
    rewrite Hrun in *.
    destruct (dirty d && negb (pager_write_ok pager (pagerLog s1) f pg));
      [discriminate Hres|].
    simpl in *. injection Hres as <-. rewrite Hfr.
    destruct (ref_cleared_lookup_r _ _ _ _ Hrc Hd) as (d0 & Hd0 & Hrel).
    assert (file d = file d0 ∧ pageNo d = pageNo d0 ∧ pinCnt d = pinCnt d0 ∧
            dirty d = dirty d0 ∧ Clear d = Clear d0) as (Hf0 & Hp0 & Hpin0 & Hdirty0 & Hclr)
      by (destruct Hrel as [->| ->]; auto).
    assert (N.to_nat (clockHand (mgr s1)) < length (bufDescTable (mgr s1)))%nat as Hlt
      by (eapply lookup_lt_Some, Hd).
    exists d0. split; [exact Hd0|]. split; [congruence|].
    split; [rewrite list_lookup_insert_eq by exact Hlt; congruence|].
    split.
    { intros j d1 Hj Hd1. rewrite list_lookup_insert_ne by congruence. apply Hothers, Hd1. }
    split; [rewrite <- Hf0, Hf, <- Hp0, Hhash; reflexivity|].
    split; [|auto].
    exists (if dirty d then [WritePage f pg] else []). rewrite Hlog.
    split; [reflexivity|]. rewrite <- Hdirty0. split; [intros ->; reflexivity|].
    intros ->. exists f, pg. rewrite <- Hf0, <- Hpool. auto.
  - unfold allocBuf, allocBuf_from in Hres. rewrite bind_run, E in Hres. discriminate.
  - unfold allocBuf, allocBuf_from in Hres. rewrite bind_run, E in Hres. discriminate.
  - unfold allocBuf, allocBuf_from in Hres. rewrite bind_run, E in Hres. discriminate.
Qed.

(** X4: what [allocBuf] hands out.  In a pool that satisfies the
    invariants, a frame returned by [allocBuf] was invalid, or valid with pin
    count zero: a pinned page is never evicted.  After the call the frame is
    in the clear state; every other frame is as before up to a cleared
    reference bit; the directory has lost the entry of the evicted page and
    nothing else; the pager log has grown by one write of the frame's own
    buffer to the frame's own file when the evicted page was dirty, and by
    nothing otherwise; page buffers and statistics are untouched. *)
Theorem allocBuf_victim_unpinned (pager : Pager) (fuel : nat) (s : State) (fr : FrameId) :
  wf_pool (mgr s) →
  result (allocBuf pager fuel) s = Return fr →
  ∃ d0,
    bufDescTable (mgr s) !! N.to_nat fr = Some d0 ∧
    (valid d0 = true → pinCnt d0 = 0) ∧
    bufDescTable (mgr (exec (allocBuf pager fuel) s)) !! N.to_nat fr = Some (Clear d0) ∧
    (∀ j d, j ≠ N.to_nat fr → bufDescTable (mgr s) !! j = Some d →
       ∃ d', bufDescTable (mgr (exec (allocBuf pager fuel) s)) !! j = Some d' ∧
             (d' = d ∨ d' = set_refbit false d)) ∧
    hashTable (mgr (exec (allocBuf pager fuel) s))
      = match file d0 with
        | Some f => delete (f, pageNo d0) (hashTable (mgr s))
        | None => hashTable (mgr s)
        end ∧
    (∃ w, pagerLog (exec (allocBuf pager fuel) s) = pagerLog s ++ w ∧
          (dirty d0 = false → w = []) ∧
          (dirty d0 = true →
             ∃ f pg, file d0 = Some f ∧ bufPool (mgr s) !! N.to_nat fr = Some pg ∧
                     w = [WritePage f pg])) ∧
    bufPool (mgr (exec (allocBuf pager fuel) s)) = bufPool (mgr s) ∧
    bufStats (mgr (exec (allocBuf pager fuel) s)) = bufStats (mgr s).
Proof. apply allocBuf_effect. Qed.

(** ** Every state a client can reach *)

Lemma exec_then_ret {A} (c : M A) (s : State) : exec (c;; ret tt) s = exec c s.
Proof. unfold exec. rewrite bind_run. destruct (c s) as [[a|e| |] s1]; reflexivity. Qed.

Lemma result_then_ret {A} (c : M A) (s : State) :
  defined (result (c;; ret tt) s) = defined (result c s) ∧
  finished (result (c;; ret tt) s) = finished (result c s).
Proof. unfold result. rewrite bind_run. destruct (c s) as [[a|e| |] s1]; auto. Qed.

(** The steps of [readPage] and [allocPage] that follow [allocBuf], run on
    an invalid frame. *)
Lemma install_run (s : State) (f : File) (p : PageId) (fr : FrameId) (pg : Page) (d : BufDesc) :
  wf_pool (mgr s) →
  bufDescTable (mgr s) !! N.to_nat fr = Some d →
  hashTable (mgr s) !! (f, p) = None →
  (set_page fr pg;; BufHashTbl_insert f p fr;; upd_desc fr (Set_ f p);; ret fr) s =
    (Return fr,
     mkState (with_bufDescTable (<[N.to_nat fr := Set_ f p d]>)
                (with_hashTable (<[(f, p) := fr]>)
                   (with_bufPool (<[N.to_nat fr := pg]>) (mgr s))))
             (pagerLog s)).
Proof.
  intros Hwf Hd Hnone.
  assert (N.to_nat fr < length (bufPool (mgr s)))%nat as Hlt.
  { rewrite (wf_pool_len _ Hwf), <- (wf_table_len _ Hwf). eapply lookup_lt_Some, Hd. }
  munfold. simpl. rewrite decide_True by exact Hlt. simpl.
  rewrite Hnone. simpl. rewrite Hd. reflexivity.
Qed.

Lemma serve_wf (pager : Pager) (fuel : nat) (r : request) (s : State) :
  wf_pool (mgr s) → wf_pool (mgr (exec (serve pager fuel r) s)).
Proof.
  intros Hwf. destruct r as [f p|f p b|f|f|f p]; simpl.
  - rewrite exec_then_ret. apply readPage_wf, Hwf.
  - apply unPinPage_wf, Hwf.
  - rewrite exec_then_ret. apply allocPage_wf, Hwf.
  - apply flushFile_wf, Hwf.
  - apply disposePage_wf, Hwf.
Qed.

Lemma serve_all_wf (pager : Pager) (fuel : nat) (rs : list request) (s : State) :
  wf_pool (mgr s) → wf_pool (mgr (serve_all pager fuel rs s)).
Proof.
  revert s. induction rs as [|r rs IH]; intros s Hwf; simpl; [exact Hwf|].
  apply IH, serve_wf, Hwf.
Qed.

(** The hand and the number of frames under the operations. *)
Lemma readPage_hand (pager : Pager) (fuel : nat) (f : File) (p : PageId) (s : State) :
  clockHand (mgr s) < numBufs (mgr s) →
  clockHand (mgr (exec (readPage pager fuel f p) s))
    < numBufs (mgr (exec (readPage pager fuel f p) s)).
Proof.
  intros Hh. unfold exec.
  destruct (hashTable (mgr s) !! (f, p)) as [fr|] eqn:Hl.
  - rewrite (readPage_hit pager fuel f p s fr Hl).
    destruct (bufDescTable (mgr s) !! N.to_nat fr); exact Hh.
  - rewrite (readPage_miss pager fuel f p s Hl).
    pose proof (allocBuf_hand pager fuel s Hh) as H1. unfold exec in H1.
    destruct (allocBuf pager fuel s) as [[fr|e| |] s1]; simpl in *; try exact H1.
    munfold. simpl. repeat mcase; exact H1.
Qed.

Lemma allocPage_hand (pager : Pager) (fuel : nat) (f : File) (s : State) :
  clockHand (mgr s) < numBufs (mgr s) →
  clockHand (mgr (exec (allocPage pager fuel f) s))
    < numBufs (mgr (exec (allocPage pager fuel f) s)).
Proof.
  intros Hh. unfold exec, allocPage. rewrite bind_run.
  pose proof (allocBuf_hand pager fuel s Hh) as H1. unfold exec in H1.
  destruct (allocBuf pager fuel s) as [[fr|e| |] s1]; simpl in *; try exact H1.
  munfold. simpl. repeat mcase; exact H1.
Qed.

Lemma unPinPage_frame (pager : Pager) (f : File) (p : PageId) (b : bool) (s : State) :
  numBufs (mgr (exec (unPinPage pager f p b) s)) = numBufs (mgr s) ∧
  clockHand (mgr (exec (unPinPage pager f p b) s)) = clockHand (mgr s) ∧
  hashTable (mgr (exec (unPinPage pager f p b) s)) = hashTable (mgr s) ∧
  bufPool (mgr (exec (unPinPage pager f p b) s)) = bufPool (mgr s) ∧
  bufStats (mgr (exec (unPinPage pager f p b) s)) = bufStats (mgr s) ∧
  pagerLog (exec (unPinPage pager f p b) s) = pagerLog s.
Proof.
  unfold exec, unPinPage. munfold. repeat mcase; auto 10.
Qed.

Lemma disposePage_frame (f : File) (p : PageId) (s : State) :
  numBufs (mgr (exec (disposePage f p) s)) = numBufs (mgr s) ∧
  clockHand (mgr (exec (disposePage f p) s)) = clockHand (mgr s).
Proof.
  unfold exec, disposePage. munfold. repeat mcase; auto.
Qed.

Lemma flushFile_frame (pager : Pager) (f : File) (s : State) :
  wf_pool (mgr s) →
  numBufs (mgr (exec (flushFile pager f) s)) = numBufs (mgr s) ∧
  clockHand (mgr (exec (flushFile pager f) s)) = clockHand (mgr s).
Proof.
  intros Hwf. unfold exec.
  change (flushFile pager f s)
    with (for_each (seq 0 (N.to_nat (numBufs (mgr s)))) (flushFile_body pager f) s).
  destruct (flushFile_loop pager f (N.to_nat (numBufs (mgr s))) 0 s) as [Hrel _].
  { rewrite (wf_table_len _ Hwf). simpl. lia. }
  destruct Hrel as (Hn & _ & Hh & _). auto.
Qed.

Lemma serve_hand (pager : Pager) (fuel : nat) (r : request) (s : State) :
  wf_pool (mgr s) → clockHand (mgr s) < numBufs (mgr s) →
  clockHand (mgr (exec (serve pager fuel r) s)) < numBufs (mgr (exec (serve pager fuel r) s)).
Proof.
  intros Hwf Hh. destruct r as [f p|f p b|f|f|f p]; simpl.
  - rewrite exec_then_ret. apply readPage_hand, Hh.
  - destruct (unPinPage_frame pager f p b s) as (-> & -> & _). exact Hh.
  - rewrite exec_then_ret. apply allocPage_hand, Hh.
  - destruct (flushFile_frame pager f s Hwf) as (-> & ->). exact Hh.
  - destruct (disposePage_frame f p s) as (-> & ->). exact Hh.
Qed.

Lemma serve_all_hand (pager : Pager) (fuel : nat) (rs : list request) (s : State) :
  wf_pool (mgr s) → clockHand (mgr s) < numBufs (mgr s) →
  clockHand (mgr (serve_all pager fuel rs s)) < numBufs (mgr (serve_all pager fuel rs s)).
Proof.
  revert s. induction rs as [|r rs IH]; intros s Hwf Hh; simpl; [exact Hh|].
  apply IH; [apply serve_wf, Hwf | apply serve_hand; assumption].
Qed.

(** The sample pools are states a client reaches. *)
Lemma pool_one_dirty_reached :
  pool_one_dirty
    = serve_all demo_pager 8 [ReqReadPage fileA 0; ReqUnPinPage fileA 0 true] (init_state 1).
Proof. vm_compute. reflexivity. Qed.

Lemma pool_two_pinned_reached :
  pool_two_pinned
    = serve_all demo_pager 8 [ReqReadPage fileA 0; ReqReadPage fileA 1] (init_state 2).
Proof. vm_compute. reflexivity. Qed.

Lemma pool_two_files_reached :
  pool_two_files
    = serve_all demo_pager 8
        [ReqReadPage fileA 0; ReqReadPage fileB 0; ReqReadPage fileA 1;
         ReqUnPinPage fileA 0 true; ReqUnPinPage fileA 1 false] (init_state 3).
Proof. vm_compute. reflexivity. Qed.

Lemma pool_one_unpinned_reached :
  pool_one_unpinned
    = serve_all demo_pager 8
        [ReqReadPage fileA 0; ReqReadPage fileA 1; ReqReadPage fileA 2; ReqReadPage fileA 3;
         ReqReadPage fileA 0; ReqUnPinPage fileA 0 false; ReqUnPinPage fileA 0 false]
        (init_state 3).
Proof. vm_compute. reflexivity. Qed.

Lemma wf_init_state (bufs : N) : wf_pool (mgr (init_state bufs)).
Proof. apply wf_new. Qed.

Lemma wf_pool_one_dirty : wf_pool (mgr pool_one_dirty).
Proof. rewrite pool_one_dirty_reached. apply serve_all_wf, wf_init_state. Qed.

Lemma wf_pool_two_pinned : wf_pool (mgr pool_two_pinned).
Proof. rewrite pool_two_pinned_reached. apply serve_all_wf, wf_init_state. Qed.

Lemma wf_pool_two_files : wf_pool (mgr pool_two_files).
Proof. rewrite pool_two_files_reached. apply serve_all_wf, wf_init_state. Qed.

Lemma wf_pool_one_unpinned : wf_pool (mgr pool_one_unpinned).
Proof. rewrite pool_one_unpinned_reached. apply serve_all_wf, wf_init_state. Qed.

Lemma allocBuf_victim_unpinned_witness :
  ∃ d0,
    bufDescTable (mgr pool_one_dirty) !! N.to_nat 0 = Some d0 ∧
    (valid d0 = true → pinCnt d0 = 0) ∧
    bufDescTable (mgr (exec (allocBuf demo_pager 8) pool_one_dirty)) !! N.to_nat 0 = Some (Clear d0) ∧
    (∀ j d, j ≠ N.to_nat 0 → bufDescTable (mgr pool_one_dirty) !! j = Some d →
       ∃ d', bufDescTable (mgr (exec (allocBuf demo_pager 8) pool_one_dirty)) !! j = Some d' ∧
             (d' = d ∨ d' = set_refbit false d)) ∧
    hashTable (mgr (exec (allocBuf demo_pager 8) pool_one_dirty))
      = match file d0 with
        | Some f => delete (f, pageNo d0) (hashTable (mgr pool_one_dirty))
        | None => hashTable (mgr pool_one_dirty)
        end ∧
    (∃ w, pagerLog (exec (allocBuf demo_pager 8) pool_one_dirty) = pagerLog pool_one_dirty ++ w ∧
          (dirty d0 = false → w = []) ∧
          (dirty d0 = true →
             ∃ f pg, file d0 = Some f ∧ bufPool (mgr pool_one_dirty) !! N.to_nat 0 = Some pg ∧
                     w = [WritePage f pg])) ∧
    bufPool (mgr (exec (allocBuf demo_pager 8) pool_one_dirty)) = bufPool (mgr pool_one_dirty) ∧
    bufStats (mgr (exec (allocBuf demo_pager 8) pool_one_dirty)) = bufStats (mgr pool_one_dirty).
Proof.
  apply (allocBuf_victim_unpinned demo_pager 8 pool_one_dirty 0).
  - apply wf_pool_one_dirty.
  - vm_compute. reflexivity.
Defined.

(** The loop of [allocBuf] throws nothing. *)
Lemma allocBuf_loop_no_throw (fuel : nat) :
  ∀ (pc : N) (s : State) (e : exn), fst (allocBuf_loop fuel pc s) ≠ Throw e.
Proof.
  induction fuel as [|fuel IH]; intros pc s e.
  - rewrite allocBuf_loop_zero. destruct (pc <=? _); discriminate.
  - rewrite allocBuf_loop_cases.
    destruct (pc <=? _); [|discriminate].
    destruct (numBufs (mgr s) =? 0); [discriminate|].
    destruct (bufDescTable (mgr s) !! _) as [d|]; [|discriminate].
    destruct (negb (valid d)); [discriminate|].
    destruct (refbit d); [apply IH|].
    destruct (pinCnt d =? 0); [discriminate | apply IH].
Qed.

(** X18: a write-back that fails loses nothing.  In a pool that satisfies
    the invariants, when [allocBuf] ends with the exception of the pager,
    the failed call is the write of the victim the sweep chose, a valid,
    dirty, unpinned frame on which the hand rests; that frame is kept as it
    is, dirty and in the directory, with its buffer.  The call has changed
    nothing but the hand and reference bits, the failed write is the one
    pager call it made, and the invariants still hold. *)
Theorem allocBuf_write_back_fails (pager : Pager) (fuel : nat) (s : State) (c : PagerCall) :
  wf_pool (mgr s) →
  result (allocBuf pager fuel) s = Throw (PagerIOException c) →
  ∃ d f pg,
    c = WritePage f pg ∧
    pager_write_ok pager (pagerLog s) f pg = false ∧
    bufDescTable (mgr (exec (allocBuf pager fuel) s))
      !! N.to_nat (clockHand (mgr (exec (allocBuf pager fuel) s))) = Some d ∧
    valid d = true ∧ dirty d = true ∧ pinCnt d = 0 ∧ file d = Some f ∧
    bufPool (mgr (exec (allocBuf pager fuel) s))
      !! N.to_nat (clockHand (mgr (exec (allocBuf pager fuel) s))) = Some pg ∧
    hashTable (mgr (exec (allocBuf pager fuel) s)) !! (f, pageNo d)
      = Some (clockHand (mgr (exec (allocBuf pager fuel) s))) ∧
    pagerLog (exec (allocBuf pager fuel) s) = pagerLog s ++ [c] ∧
    ref_cleared (bufDescTable (mgr s)) (bufDescTable (mgr (exec (allocBuf pager fuel) s))) ∧
    hashTable (mgr (exec (allocBuf pager fuel) s)) = hashTable (mgr s) ∧
    bufPool (mgr (exec (allocBuf pager fuel) s)) = bufPool (mgr s) ∧
    bufStats (mgr (exec (allocBuf pager fuel) s)) = bufStats (mgr s) ∧
    wf_pool (mgr (exec (allocBuf pager fuel) s)).
Proof.
  intros Hwf Hres. unfold result, exec in *.
  pose proof (allocBuf_loop_wf fuel 0 s Hwf) as [Hwf1 _].
  pose proof (allocBuf_loop_victim fuel 0 s Hwf) as Hvic.
  pose proof (allocBuf_loop_sweep fuel 0 s) as (Hn & Hrc & Hpool & Hhash & Hst & Hlog).
  pose proof (allocBuf_loop_no_throw fuel 0 s) as Hnt.
  destruct (allocBuf_loop fuel 0 s) as [r s1] eqn:E.
  simpl in Hwf1, Hvic, Hn, Hrc, Hpool, Hhash, Hst, Hlog, Hnt.
  destruct r as [[fr1|pc']|e| |].
  - rewrite (allocBuf_of_loop_return pager fuel s s1 fr1 E) in Hres. discriminate.
  - destruct (N.lt_ge_cases (numBufs (mgr s1)) pc') as [Hlt|Hge].
    { rewrite (allocBuf_of_loop_exceeded pager fuel s s1 pc' E Hlt) in Hres. discriminate. }
    destruct (Hvic Hge) as (d & Hd & Hv & Hp & Hr).
    destruct (allocBuf_of_loop_victim pager fuel s s1 pc' d E Hge Hwf1 Hd Hv)
      as (f & pg & Hf & Hpg & Hkey & Hfr & Hrun).
    rewrite Hrun in *. rewrite Hlog in *.
    destruct (dirty d) eqn:Hdirty; [|discriminate Hres].
    destruct (pager_write_ok pager (pagerLog s) f pg) eqn:Hok; [discriminate Hres|].
    simpl in *. injection Hres as <-.
    exists d, f, pg. auto 20.
  - exfalso. apply (Hnt e). reflexivity.
  - unfold allocBuf, allocBuf_from in Hres. rewrite bind_run, E in Hres. discriminate.
  - unfold allocBuf, allocBuf_from in Hres. rewrite bind_run, E in Hres. discriminate.
Qed.

Lemma allocBuf_write_back_fails_witness :
  ∃ d f pg,
    WritePage fileA (mkPage 0 []) = WritePage f pg ∧
    pager_write_ok faulty_pager (pagerLog pool_one_dirty) f pg = false ∧
    bufDescTable (mgr (exec (allocBuf faulty_pager 8) pool_one_dirty))
      !! N.to_nat (clockHand (mgr (exec (allocBuf faulty_pager 8) pool_one_dirty))) = Some d ∧
    valid d = true ∧ dirty d = true ∧ pinCnt d = 0 ∧ file d = Some f ∧
    bufPool (mgr (exec (allocBuf faulty_pager 8) pool_one_dirty))
      !! N.to_nat (clockHand (mgr (exec (allocBuf faulty_pager 8) pool_one_dirty))) = Some pg ∧
    hashTable (mgr (exec (allocBuf faulty_pager 8) pool_one_dirty)) !! (f, pageNo d)
      = Some (clockHand (mgr (exec (allocBuf faulty_pager 8) pool_one_dirty))) ∧
    pagerLog (exec (allocBuf faulty_pager 8) pool_one_dirty)
      = pagerLog pool_one_dirty ++ [WritePage fileA (mkPage 0 [])] ∧
    ref_cleared (bufDescTable (mgr pool_one_dirty))
                (bufDescTable (mgr (exec (allocBuf faulty_pager 8) pool_one_dirty))) ∧
    hashTable (mgr (exec (allocBuf faulty_pager 8) pool_one_dirty))
      = hashTable (mgr pool_one_dirty) ∧
    bufPool (mgr (exec (allocBuf faulty_pager 8) pool_one_dirty)) = bufPool (mgr pool_one_dirty) ∧
    bufStats (mgr (exec (allocBuf faulty_pager 8) pool_one_dirty))
      = bufStats (mgr pool_one_dirty) ∧
    wf_pool (mgr (exec (allocBuf faulty_pager 8) pool_one_dirty)).
Proof.
  apply (allocBuf_write_back_fails faulty_pager 8 pool_one_dirty
           (WritePage fileA (mkPage 0 []))).
  - apply wf_pool_one_dirty.
  - vm_compute. reflexivity.
Defined.

(** The miss path of [readPage] once [allocBuf] has returned a frame. *)
Lemma readPage_miss_run (pager : Pager) (fuel : nat) (f : File) (p : PageId) (s s1 : State)
    (fr : FrameId) :
  wf_pool (mgr s) →
  hashTable (mgr s) !! (f, p) = None →
  allocBuf pager fuel s = (Return fr, s1) →
  ∃ d, bufDescTable (mgr s1) !! N.to_nat fr = Some d ∧ valid d = false ∧
       wf_pool (mgr s1) ∧ hashTable (mgr s1) !! (f, p) = None ∧
       readPage pager fuel f p s =
         if pager_read_ok pager (pagerLog s1) f p
         then
           (Return fr,
            mkState (with_bufDescTable (<[N.to_nat fr := Set_ f p d]>)
                       (with_hashTable (<[(f, p) := fr]>)
                          (with_bufPool (<[N.to_nat fr := pager_read pager (pagerLog s1) f p]>)
                             (mgr s1))))
                    (pagerLog s1 ++ [ReadPage f p]))
         else
           (Throw (PagerIOException (ReadPage f p)),
            mkState (mgr s1) (pagerLog s1 ++ [ReadPage f p])).
Proof.
  intros Hwf Hl E.
  destruct (allocBuf_wf pager fuel s Hwf) as (Hwf1 & Hsub & Hres).
  unfold exec, result in *. rewrite E in *. simpl in *.
  destruct (Hres fr eq_refl) as (d & Hd & Hv). specialize (Hsub _ Hl).
  exists d. repeat (split; [assumption|]).
  rewrite (readPage_miss pager fuel f p s Hl), E. rewrite bind_run.
  unfold File_readPage at 1.
  destruct (pager_read_ok pager (pagerLog s1) f p); [|reflexivity].
  apply (install_run (mkState (mgr s1) (pagerLog s1 ++ [ReadPage f p])) f p fr _ d);
    assumption.
Qed.

(** [allocPage] once [allocBuf] has returned a frame. *)
Lemma allocPage_run (pager : Pager) (fuel : nat) (f : File) (s s1 : State) (fr : FrameId) :
  wf_pool (mgr s) →
  allocBuf pager fuel s = (Return fr, s1) →
  ∃ d, bufDescTable (mgr s1) !! N.to_nat fr = Some d ∧ valid d = false ∧
       wf_pool (mgr s1) ∧
       allocPage pager fuel f s =
         match hashTable (mgr s1) !! (f, page_number (pager_allocate pager (pagerLog s1) f)) with
         | Some _ =>
             (Throw HashAlreadyPresentException,
              mkState (with_bufPool (<[N.to_nat fr := pager_allocate pager (pagerLog s1) f]>)
                         (mgr s1))
                      (pagerLog s1 ++ [AllocatePage f]))
         | None =>
             (Return (page_number (pager_allocate pager (pagerLog s1) f), fr),
              mkState (with_bufDescTable
                         (<[N.to_nat fr :=
                              Set_ f (page_number (pager_allocate pager (pagerLog s1) f)) d]>)
                         (with_hashTable
                            (<[(f, page_number (pager_allocate pager (pagerLog s1) f)) := fr]>)
                            (with_bufPool
                               (<[N.to_nat fr := pager_allocate pager (pagerLog s1) f]>)
                               (mgr s1))))
                      (pagerLog s1 ++ [AllocatePage f]))
         end.
Proof.
  intros Hwf E.
  destruct (allocBuf_wf pager fuel s Hwf) as (Hwf1 & _ & Hres).
  unfold exec, result in *. rewrite E in *. simpl in *.
  destruct (Hres fr eq_refl) as (d & Hd & Hv).
  exists d. repeat (split; [assumption|]).
  assert (N.to_nat fr < length (bufPool (mgr s1)))%nat as Hlt.
  { rewrite (wf_pool_len _ Hwf1), <- (wf_table_len _ Hwf1). eapply lookup_lt_Some, Hd. }
  unfold allocPage. rewrite bind_run, E.
  munfold. simpl. rewrite decide_True by exact Hlt. simpl.
  destruct (hashTable (mgr s1) !! (f, page_number (pager_allocate pager (pagerLog s1) f)));
    simpl; [reflexivity|].
  rewrite Hd. reflexivity.
Qed.

Lemma allocBuf_numBufs (pager : Pager) (fuel : nat) (s : State) :
  numBufs (mgr (exec (allocBuf pager fuel) s)) = numBufs (mgr s).
Proof. apply (allocBuf_alloc_rel pager fuel s). Qed.

Lemma readPage_numBufs (pager : Pager) (fuel : nat) (f : File) (p : PageId) (s : State) :
  numBufs (mgr (exec (readPage pager fuel f p) s)) = numBufs (mgr s).
Proof.
  unfold exec.
  destruct (hashTable (mgr s) !! (f, p)) as [fr|] eqn:Hl.
  - rewrite (readPage_hit pager fuel f p s fr Hl).
    destruct (bufDescTable (mgr s) !! N.to_nat fr); reflexivity.
  - rewrite (readPage_miss pager fuel f p s Hl).
    pose proof (allocBuf_numBufs pager fuel s) as H1. unfold exec in H1.
    destruct (allocBuf pager fuel s) as [[fr|e| |] s1]; simpl in *; try exact H1.
    munfold. simpl. repeat mcase; exact H1.
Qed.

Lemma allocPage_numBufs (pager : Pager) (fuel : nat) (f : File) (s : State) :
  numBufs (mgr (exec (allocPage pager fuel f) s)) = numBufs (mgr s).
Proof.
  unfold exec, allocPage. rewrite bind_run.
  pose proof (allocBuf_numBufs pager fuel s) as H1. unfold exec in H1.
  destruct (allocBuf pager fuel s) as [[fr|e| |] s1]; simpl in *; try exact H1.
  munfold. simpl. repeat mcase; exact H1.
Qed.

Lemma serve_numBufs (pager : Pager) (fuel : nat) (r : request) (s : State) :
  wf_pool (mgr s) → numBufs (mgr (exec (serve pager fuel r) s)) = numBufs (mgr s).
Proof.
  intros Hwf. destruct r as [f p|f p b|f|f|f p]; simpl.
  - rewrite exec_then_ret. apply readPage_numBufs.
  - apply unPinPage_frame.
  - rewrite exec_then_ret. apply allocPage_numBufs.
  - apply flushFile_frame, Hwf.
  - apply disposePage_frame.
Qed.

Lemma serve_all_numBufs (pager : Pager) (fuel : nat) (rs : list request) (s : State) :
  wf_pool (mgr s) → numBufs (mgr (serve_all pager fuel rs s)) = numBufs (mgr s).
Proof.
  revert s. induction rs as [|r rs IH]; intros s Hwf; simpl; [reflexivity|].
  rewrite IH by (apply serve_wf, Hwf). apply serve_numBufs, Hwf.
Qed.

(** No operation has undefined behaviour in a pool with at least one frame
    that satisfies the invariants. *)
Lemma readPage_defined (pager : Pager) (fuel : nat) (f : File) (p : PageId) (s : State) :
  wf_pool (mgr s) → numBufs (mgr s) ≠ 0 →
  defined (result (readPage pager fuel f p) s) = true.
Proof.
  intros Hwf Hn. unfold result.
  destruct (hashTable (mgr s) !! (f, p)) as [fr|] eqn:Hl.
  - rewrite (readPage_hit pager fuel f p s fr Hl).
    destruct (wf_dir_frame _ Hwf _ _ _ Hl) as (d & -> & _). reflexivity.
  - pose proof (allocBuf_defined pager fuel s Hwf Hn) as Hdef. unfold result in Hdef.
    destruct (allocBuf pager fuel s) as [[fr|e| |] s1] eqn:E; simpl in Hdef; try discriminate.
    + destruct (readPage_miss_run pager fuel f p s s1 fr Hwf Hl E) as (d & _ & _ & _ & _ & ->).
      destruct (pager_read_ok pager (pagerLog s1) f p); reflexivity.
    + rewrite (readPage_miss pager fuel f p s Hl), E. reflexivity.
    + rewrite (readPage_miss pager fuel f p s Hl), E. reflexivity.
Qed.

Lemma allocPage_defined (pager : Pager) (fuel : nat) (f : File) (s : State) :
  wf_pool (mgr s) → numBufs (mgr s) ≠ 0 →
  defined (result (allocPage pager fuel f) s) = true.
Proof.
  intros Hwf Hn. unfold result.
  pose proof (allocBuf_defined pager fuel s Hwf Hn) as Hdef. unfold result in Hdef.
  destruct (allocBuf pager fuel s) as [[fr|e| |] s1] eqn:E; simpl in Hdef; try discriminate.
  - destruct (allocPage_run pager fuel f s s1 fr Hwf E) as (d & _ & _ & _ & ->).
    destruct (hashTable (mgr s1) !! _); reflexivity.
  - unfold allocPage. rewrite bind_run, E. reflexivity.
  - unfold allocPage. rewrite bind_run, E. reflexivity.
Qed.

Lemma unPinPage_defined (pager : Pager) (f : File) (p : PageId) (b : bool) (s : State) :
  wf_pool (mgr s) → defined (result (unPinPage pager f p b) s) = true.
Proof.
  intros Hwf. unfold result.
  destruct (hashTable (mgr s) !! (f, p)) as [fr|] eqn:Hl.
  - destruct (wf_dir_frame _ Hwf _ _ _ Hl) as (d & Hd & _).
    rewrite (unPinPage_cached pager f p b s fr d Hl Hd).
    destruct (pinCnt d =? 0); reflexivity.
  - unfold unPinPage. munfold. rewrite Hl. reflexivity.
Qed.

Lemma disposePage_defined (f : File) (p : PageId) (s : State) :
  wf_pool (mgr s) → defined (result (disposePage f p) s) = true.
Proof.
  intros Hwf. unfold result.
  destruct (hashTable (mgr s) !! (f, p)) as [fr|] eqn:Hl.
  - destruct (wf_dir_frame _ Hwf _ _ _ Hl) as (d & Hd & Hv & Hf & Hp).
    rewrite (disposePage_hit f p s fr d Hl Hd Hf Hp). reflexivity.
  - unfold disposePage. munfold. rewrite Hl. reflexivity.
Qed.

(** ** Flush, frame by frame *)

Lemma failed_write_app (pager : Pager) (ws1 ws2 log : list PagerCall) :
  failed_write pager log (ws1 ++ ws2) = None →
  failed_write pager log ws1 = None ∧ failed_write pager (log ++ ws1) ws2 = None.
Proof.
  revert log. induction ws1 as [|c ws1 IH]; intros log H; simpl in *.
  - rewrite app_nil_r. auto.
  - destruct (match c with WritePage f pg => pager_write_ok pager log f pg | _ => true end);
      [|discriminate].
    destruct (failed_write pager (log ++ [c]) (ws1 ++ ws2)) as [[done c']|] eqn:E;
      [discriminate|].
    destruct (IH _ E) as [-> H2]. rewrite <- app_assoc in H2. auto.
Qed.

(** One turn of the loop of [flushFile] on a frame that is not a pinned
    frame of the file and whose write, if one is due, succeeds: a frame of
    another file is skipped, an unpinned frame of the file is written when
    dirty, removed from the directory and cleared. *)
Lemma flushFile_body_run (pager : Pager) (f : File) (a : nat) (s : State) (d : BufDesc) :
  wf_pool (mgr s) →
  bufDescTable (mgr s) !! a = Some d →
  (file d = Some f → pinCnt d = 0) →
  (∀ pg, bufPool (mgr s) !! a = Some pg →
         failed_write pager (pagerLog s) (flush_writes f [d] [pg]) = None) →
  ∃ pg s1,
    bufPool (mgr s) !! a = Some pg ∧
    flushFile_body pager f (N.of_nat a) s = (Return tt, s1) ∧
    bufDescTable (mgr s1) = <[a := flushed f d]> (bufDescTable (mgr s)) ∧
    bufPool (mgr s1) = bufPool (mgr s) ∧
    pagerLog s1 = pagerLog s ++ flush_writes f [d] [pg] ∧
    diskwrites (bufStats (mgr s1))
      = diskwrites (bufStats (mgr s)) + N.of_nat (length (flush_writes f [d] [pg])).
Proof.
  intros Hwf Hd Hpin Hok.
  assert (a < length (bufDescTable (mgr s)))%nat as Ha by (eapply lookup_lt_Some, Hd).
  assert (a < length (bufPool (mgr s)))%nat as Ha'
    by (rewrite (wf_pool_len _ Hwf), <- (wf_table_len _ Hwf); exact Ha).
  destruct (lookup_lt_is_Some_2 _ _ Ha') as [pg Hpg].
  specialize (Hok pg Hpg). cbn [flush_writes] in Hok.
  exists pg. cbn [flush_writes]. unfold flushFile_body, flushed. munfold.
  rewrite Nat2N.id, Hd. simpl.
  destruct (decide (Some f = file d)) as [Hf|Hf]; simpl.
  2:{ rewrite decide_False by congruence.
      eexists. split; [first [exact Hpg | reflexivity]|]. split; [reflexivity|]. simpl.
      rewrite !decide_False by congruence.
      rewrite list_insert_id by exact Hd. rewrite app_nil_r, N.add_0_r. auto. }
  symmetry in Hf. rewrite !decide_True by exact Hf.
  rewrite decide_True in Hok by exact Hf.
  assert (valid d = true) as Hv.
  { destruct (valid d) eqn:Hv; [reflexivity|].
    rewrite (wf_invalid _ Hwf _ _ Hd Hv) in Hf. discriminate. }
  destruct (wf_frame_dir _ Hwf _ _ Hd Hv) as (g & Hg & Hkey).
  assert (g = f) as -> by congruence.
  rewrite Hv, (Hpin Hf). simpl.
  rewrite (wf_frameNo _ Hwf _ _ Hd), Nat2N.id.
  destruct (dirty d); simpl.
  - rewrite Hpg. simpl. rewrite Hf. simpl.
    simpl in Hok.
    destruct (pager_write_ok pager (pagerLog s) f pg); [|discriminate Hok]. simpl.
    rewrite Hd. simpl. rewrite Hkey. simpl.
    rewrite list_lookup_insert_eq by exact Ha. simpl.
    eexists. split; [first [exact Hpg | reflexivity]|]. split; [reflexivity|]. simpl.
    rewrite list_insert_insert_eq. auto.
  - rewrite Hkey. simpl. rewrite Hd. simpl.
    eexists. split; [first [exact Hpg | reflexivity]|]. split; [reflexivity|]. simpl.
    rewrite app_nil_r, N.add_0_r. auto.
Qed.

(** One turn of the loop on a pinned frame of the file. *)
Lemma flushFile_body_pinned (pager : Pager) (f : File) (a : nat) (s : State) (d : BufDesc) :
  bufDescTable (mgr s) !! a = Some d →
  file d = Some f → valid d = true → pinCnt d ≠ 0 →
  flushFile_body pager f (N.of_nat a) s =
    (Throw (PagePinnedException (pager_filename pager f) (pageNo d) (frameNo d)),
     mkState (with_bufStats incr_accesses (mgr s)) (pagerLog s)).
Proof.
  intros Hd Hf Hv Hp. unfold flushFile_body. munfold. rewrite Nat2N.id, Hd. simpl.
  rewrite decide_True by congruence. rewrite Hv. simpl.
  assert ((0 <? pinCnt d) = true) as -> by (apply N.ltb_lt; lia). reflexivity.
Qed.

Lemma flush_writes_cons (f : File) (d : BufDesc) (t : list BufDesc) (pg : Page) (p : list Page) :
  flush_writes f (d :: t) (pg :: p) = flush_writes f [d] [pg] ++ flush_writes f t p.
Proof.
  cbn [flush_writes]. destruct (decide (file d = Some f)); [|reflexivity].
  destruct (dirty d); reflexivity.
Qed.

Lemma for_each_app (l1 l2 : list nat) (body : N → M unit) (s : State) :
  for_each (l1 ++ l2) body s =
    match for_each l1 body s with
    | (Return _, s1) => for_each l2 body s1
    | (Throw e, s1) => (Throw e, s1)
    | (Undefined, s1) => (Undefined, s1)
    | (OutOfFuel, s1) => (OutOfFuel, s1)
    end.
Proof.
  revert s. induction l1 as [|i l1 IH]; intros s; [reflexivity|].
  simpl app. rewrite !for_each_cons.
  destruct (body (N.of_nat i) s) as [[[]|e| |] s1]; auto.
Qed.

(** The loop of [flushFile] over the frames [a, a+k) when none of them is a
    pinned frame of the file. *)
Lemma flushFile_loop_unpinned (pager : Pager) (f : File) (k : nat) :
  ∀ (a : nat) (s : State),
    wf_pool (mgr s) →
    (a + k ≤ length (bufDescTable (mgr s)))%nat →
    (∀ j d, (a ≤ j < a + k)%nat → bufDescTable (mgr s) !! j = Some d →
            file d = Some f → pinCnt d = 0) →
    failed_write pager (pagerLog s)
      (flush_writes f (take k (drop a (bufDescTable (mgr s))))
                      (take k (drop a (bufPool (mgr s))))) = None →
    ∃ s',
      for_each (seq a k) (flushFile_body pager f) s = (Return tt, s') ∧
      wf_pool (mgr s') ∧
      (∀ j, (a ≤ j < a + k)%nat →
         bufDescTable (mgr s') !! j = flushed f <$> bufDescTable (mgr s) !! j) ∧
      (∀ j, ¬ (a ≤ j < a + k)%nat →
         bufDescTable (mgr s') !! j = bufDescTable (mgr s) !! j) ∧
      bufPool (mgr s') = bufPool (mgr s) ∧
      pagerLog s' = pagerLog s ++
        flush_writes f (take k (drop a (bufDescTable (mgr s))))
                       (take k (drop a (bufPool (mgr s)))) ∧
      diskwrites (bufStats (mgr s')) = diskwrites (bufStats (mgr s)) +
        N.of_nat (length (flush_writes f (take k (drop a (bufDescTable (mgr s))))
                                         (take k (drop a (bufPool (mgr s)))))).
Proof.
  induction k as [|k IH]; intros a s Hwf Hlen Hpin Hok.
  - exists s. simpl. rewrite app_nil_r, N.add_0_r.
    split; [reflexivity|]. split; [exact Hwf|]. split; [intros j Hj; lia|]. auto.
  - assert (a < length (bufDescTable (mgr s)))%nat as Ha by lia.
    destruct (lookup_lt_is_Some_2 _ _ Ha) as [d Hd].
    assert (a < length (bufPool (mgr s)))%nat as Ha'
      by (rewrite (wf_pool_len _ Hwf), <- (wf_table_len _ Hwf); exact Ha).
    destruct (lookup_lt_is_Some_2 _ _ Ha') as [pg0 Hpg0].
    rewrite (drop_S _ _ _ Hd), (drop_S _ _ _ Hpg0) in Hok. cbn [take] in Hok.
    rewrite flush_writes_cons in Hok. apply failed_write_app in Hok as [Hok1 Hok2].
    destruct (flushFile_body_run pager f a s d Hwf Hd) as
      (pg & s1 & Hpg & Hrun & Ht1 & Hp1 & Hl1 & Hw1).
    { apply (Hpin a d); [lia | exact Hd]. }
    { intros pg' Hpg'. rewrite Hpg0 in Hpg'. injection Hpg' as <-. exact Hok1. }
    assert (pg0 = pg) as -> by congruence.
    assert (wf_pool (mgr s1)) as Hwf1.
    { pose proof (flushFile_body_wf pager f (N.of_nat a) s Hwf) as H. rewrite Hrun in H.
      exact H. }
    destruct (IH (S a) s1 Hwf1) as (s' & Hrun' & Hwf' & Hin & Hout & Hp' & Hl' & Hw').
    { rewrite Ht1, length_insert. lia. }
    { intros j d' Hj Hd'. rewrite Ht1, list_lookup_insert_ne in Hd' by lia.
      apply (Hpin j d'); [lia | exact Hd']. }
    { rewrite Ht1, Hp1, Hl1. rewrite drop_insert_lt by lia. exact Hok2. }
    exists s'. simpl seq. rewrite for_each_cons, Hrun.
    split; [exact Hrun'|]. split; [exact Hwf'|].
    rewrite Ht1 in Hin, Hout, Hl', Hw'. rewrite Hp1 in Hp', Hl', Hw'.
    rewrite drop_insert_lt in Hl', Hw' by lia.
    rewrite (drop_S _ _ _ Hd), (drop_S _ _ _ Hpg). cbn [take].
    rewrite flush_writes_cons.
    split.
    { intros j Hj. destruct (decide (j = a)) as [->|Hne].
      - rewrite Hout by lia. rewrite list_lookup_insert_eq by exact Ha. rewrite Hd. reflexivity.
      - rewrite Hin by lia. rewrite list_lookup_insert_ne by congruence. reflexivity. }
    split.
    { intros j Hj. rewrite Hout by lia. apply list_lookup_insert_ne. lia. }
    split; [exact Hp'|].
    split.
    { rewrite Hl', Hl1, <- app_assoc. reflexivity. }
    rewrite Hw', Hw1, length_app, Nat2N.inj_add. lia.
Qed.

(** X9: flush of a file none of whose frames is pinned.  In a pool that
    satisfies the invariants, when the writes of the dirty frames of the
    file all succeed, [flushFile] returns; every frame of the file is then
    in the clear state and every other frame is as before; the directory has
    no entry left for the file and its other entries are as before; every
    dirty frame of the file was written, in frame order, from its own
    buffer, and [diskwrites] counts these writes; [accesses] has grown by
    [numBufs]; the invariants still hold. *)
Theorem flushFile_unpinned (pager : Pager) (f : File) (s : State) :
  wf_pool (mgr s) →
  (∀ j d, bufDescTable (mgr s) !! j = Some d → file d = Some f → pinCnt d = 0) →
  failed_write pager (pagerLog s)
    (flush_writes f (bufDescTable (mgr s)) (bufPool (mgr s))) = None →
  result (flushFile pager f) s = Return tt ∧
  wf_pool (mgr (exec (flushFile pager f) s)) ∧
  bufDescTable (mgr (exec (flushFile pager f) s)) = map (flushed f) (bufDescTable (mgr s)) ∧
  (∀ p, hashTable (mgr (exec (flushFile pager f) s)) !! (f, p) = None) ∧
  (∀ g p, g ≠ f →
     hashTable (mgr (exec (flushFile pager f) s)) !! (g, p) = hashTable (mgr s) !! (g, p)) ∧
  bufPool (mgr (exec (flushFile pager f) s)) = bufPool (mgr s) ∧
  pagerLog (exec (flushFile pager f) s)
    = pagerLog s ++ flush_writes f (bufDescTable (mgr s)) (bufPool (mgr s)) ∧
  diskwrites (bufStats (mgr (exec (flushFile pager f) s)))
    = diskwrites (bufStats (mgr s))
      + N.of_nat (length (flush_writes f (bufDescTable (mgr s)) (bufPool (mgr s)))) ∧
  accesses (bufStats (mgr (exec (flushFile pager f) s)))
    = accesses (bufStats (mgr s)) + numBufs (mgr s).
Proof.
  intros Hwf Hpin Hok.
  pose proof (wf_table_len _ Hwf) as Hlen. pose proof (wf_pool_len _ Hwf) as Hplen.
  unfold result, exec.
  change (flushFile pager f s)
    with (for_each (seq 0 (N.to_nat (numBufs (mgr s)))) (flushFile_body pager f) s).
  destruct (flushFile_loop_unpinned pager f (N.to_nat (numBufs (mgr s))) 0 s Hwf)
    as (s' & Hrun & Hwf' & Hin & Hout & Hpool & Hlog & Hw);
    [simpl; lia | intros j d _; apply Hpin | |].
  { change (drop 0 (bufPool (mgr s))) with (bufPool (mgr s)).
    change (drop 0 (bufDescTable (mgr s))) with (bufDescTable (mgr s)).
    rewrite !take_ge by lia. exact Hok. }
  destruct (flushFile_loop pager f (N.to_nat (numBufs (mgr s))) 0 s)
    as (Hrel & m & _ & Hacc & _ & Hret & _); [simpl; lia|].
  rewrite Hrun in *. simpl in *.
  change (drop 0 (bufPool (mgr s))) with (bufPool (mgr s)) in Hlog, Hw.
  change (drop 0 (bufDescTable (mgr s))) with (bufDescTable (mgr s)) in Hlog, Hw.
  rewrite !take_ge in Hlog, Hw by lia.
  assert (bufDescTable (mgr s') = map (flushed f) (bufDescTable (mgr s))) as Htab.
  { apply list_eq. intros j. rewrite list_lookup_fmap.
    destruct (decide (j < N.to_nat (numBufs (mgr s)))%nat) as [Hj|Hj].
    - apply Hin. lia.
    - rewrite Hout by lia. rewrite (proj2 (lookup_ge_None _ _)) by lia. reflexivity. }
  split; [reflexivity|]. split; [exact Hwf'|]. split; [exact Htab|].
  split.
  { intros p. destruct (hashTable (mgr s') !! (f, p)) as [fr|] eqn:Hk; [|reflexivity].
    destruct (wf_dir_frame _ Hwf' _ _ _ Hk) as (d & Hd & Hv & Hf & _).
    rewrite Htab, list_lookup_fmap in Hd.
    destruct (bufDescTable (mgr s) !! N.to_nat fr) as [d0|]; [|discriminate].
    simpl in Hd. injection Hd as <-. unfold flushed in Hv, Hf.
    destruct (decide (file d0 = Some f)); [discriminate | contradiction]. }
  split; [apply Hrel|]. split; [exact Hpool|]. split; [exact Hlog|]. split; [exact Hw|].
  rewrite Hacc, (Hret eq_refl), N2Nat.id. reflexivity.
Qed.

Lemma flushFile_unpinned_witness :
  result (flushFile demo_pager fileA) pool_two_files = Return tt ∧
  wf_pool (mgr (exec (flushFile demo_pager fileA) pool_two_files)) ∧
  bufDescTable (mgr (exec (flushFile demo_pager fileA) pool_two_files))
    = map (flushed fileA) (bufDescTable (mgr pool_two_files)) ∧
  (∀ p, hashTable (mgr (exec (flushFile demo_pager fileA) pool_two_files)) !! (fileA, p) = None) ∧
  (∀ g p, g ≠ fileA →
     hashTable (mgr (exec (flushFile demo_pager fileA) pool_two_files)) !! (g, p)
       = hashTable (mgr pool_two_files) !! (g, p)) ∧
  bufPool (mgr (exec (flushFile demo_pager fileA) pool_two_files)) = bufPool (mgr pool_two_files) ∧
  pagerLog (exec (flushFile demo_pager fileA) pool_two_files)
    = pagerLog pool_two_files
      ++ flush_writes fileA (bufDescTable (mgr pool_two_files)) (bufPool (mgr pool_two_files)) ∧
  diskwrites (bufStats (mgr (exec (flushFile demo_pager fileA) pool_two_files)))
    = diskwrites (bufStats (mgr pool_two_files))
      + N.of_nat (length (flush_writes fileA (bufDescTable (mgr pool_two_files))
                                       (bufPool (mgr pool_two_files)))) ∧
  accesses (bufStats (mgr (exec (flushFile demo_pager fileA) pool_two_files)))
    = accesses (bufStats (mgr pool_two_files)) + numBufs (mgr pool_two_files).
Proof.
  apply (flushFile_unpinned demo_pager fileA pool_two_files).
  - apply wf_pool_two_files.
  - intros j d Hd Hf.
    destruct j as [|[|[|j]]]; vm_compute in Hd; simplify_eq; try reflexivity; discriminate.
  - vm_compute. reflexivity.
Defined.

(** X10: flush stops at the first pinned frame of the file.  In a pool that
    satisfies the invariants, when frame [i] is the first frame of the file
    with a nonzero pin count and the writes of the dirty frames of the file
    before [i] all succeed, [flushFile] throws [PagePinnedException] with
    that frame's page and frame number.  Frame [i] and the frames after it
    are as before, and the directory still has the entry of frame [i]; the
    frames of the file before [i] have been flushed and cleared; the writes
    made are those of the dirty frames of the file before [i]; [accesses]
    has grown by [i + 1]; the invariants still hold. *)
Theorem flushFile_stops_at_pinned (pager : Pager) (f : File) (s : State) (i : nat)
    (d : BufDesc) :
  wf_pool (mgr s) →
  bufDescTable (mgr s) !! i = Some d → file d = Some f → pinCnt d ≠ 0 →
  (∀ j d', (j < i)%nat → bufDescTable (mgr s) !! j = Some d' →
           file d' = Some f → pinCnt d' = 0) →
  failed_write pager (pagerLog s)
    (flush_writes f (take i (bufDescTable (mgr s))) (take i (bufPool (mgr s)))) = None →
  result (flushFile pager f) s
    = Throw (PagePinnedException (pager_filename pager f) (pageNo d) (frameNo d)) ∧
  wf_pool (mgr (exec (flushFile pager f) s)) ∧
  (∀ j, (i ≤ j)%nat →
     bufDescTable (mgr (exec (flushFile pager f) s)) !! j = bufDescTable (mgr s) !! j) ∧
  (∀ j, (j < i)%nat →
     bufDescTable (mgr (exec (flushFile pager f) s)) !! j
       = flushed f <$> bufDescTable (mgr s) !! j) ∧
  hashTable (mgr (exec (flushFile pager f) s)) !! (f, pageNo d) = Some (N.of_nat i) ∧
  pagerLog (exec (flushFile pager f) s)
    = pagerLog s ++ flush_writes f (take i (bufDescTable (mgr s))) (take i (bufPool (mgr s))) ∧
  accesses (bufStats (mgr (exec (flushFile pager f) s)))
    = accesses (bufStats (mgr s)) + N.of_nat (S i).
Proof.
  intros Hwf Hd Hf Hp Hbefore Hok.
  pose proof (wf_table_len _ Hwf) as Hlen.
  assert (i < N.to_nat (numBufs (mgr s)))%nat as Hi
    by (rewrite <- Hlen; eapply lookup_lt_Some, Hd).
  assert (valid d = true) as Hv.
  { destruct (valid d) eqn:Hv; [reflexivity|].
    rewrite (wf_invalid _ Hwf _ _ Hd Hv) in Hf. discriminate. }
  destruct (flushFile_loop_unpinned pager f i 0 s Hwf)
    as (s1 & Hrun & Hwf1 & Hin & Hout & Hpool & Hlog & Hw);
    [simpl; lia | intros j d' Hj; apply Hbefore; lia | exact Hok |].
  destruct (flushFile_loop pager f i 0 s) as (Hrel & m & _ & Hacc & _ & Hret & _);
    [simpl; lia|].
  rewrite Hrun in Hrel, Hacc, Hret. simpl in Hrel, Hacc, Hret.
  change (drop 0 (bufPool (mgr s))) with (bufPool (mgr s)) in Hlog.
  change (drop 0 (bufDescTable (mgr s))) with (bufDescTable (mgr s)) in Hlog.
  assert (bufDescTable (mgr s1) !! i = Some d) as Hd1 by (rewrite Hout by lia; exact Hd).
  assert (flushFile pager f s =
          (Throw (PagePinnedException (pager_filename pager f) (pageNo d) (frameNo d)),
           mkState (with_bufStats incr_accesses (mgr s1)) (pagerLog s1))) as E.
  { change (flushFile pager f s)
      with (for_each (seq 0 (N.to_nat (numBufs (mgr s)))) (flushFile_body pager f) s).
    replace (N.to_nat (numBufs (mgr s))) with (i + S (N.to_nat (numBufs (mgr s)) - S i))%nat
      by lia.
    rewrite seq_app, for_each_app, Hrun.
    change (seq (0 + i) (S (N.to_nat (numBufs (mgr s)) - S i)))
      with (i :: seq (S i) (N.to_nat (numBufs (mgr s)) - S i)).
    rewrite for_each_cons, (flushFile_body_pinned pager f i s1 d Hd1 Hf Hv Hp).
    reflexivity. }
  unfold result, exec. rewrite E. simpl.
  split; [reflexivity|].
  split; [apply (wf_other_fields (mgr s1)); auto|].
  split; [intros j Hj; apply Hout; lia|].
  split; [intros j Hj; apply Hin; lia|].
  split.
  { destruct (wf_frame_dir _ Hwf1 _ _ Hd1 Hv) as (g & Hg & Hkey).
    assert (g = f) as -> by congruence. exact Hkey. }
  split; [exact Hlog|].
  rewrite Hacc, (Hret eq_refl), Nat2N.inj_succ. lia.
Qed.

Lemma flushFile_stops_at_pinned_witness :
  result (flushFile demo_pager fileB) pool_two_files
    = Throw (PagePinnedException (pager_filename demo_pager fileB) 0 1).
Proof.
  apply (flushFile_stops_at_pinned demo_pager fileB pool_two_files 1
           (mkBufDesc (Some fileB) 0 1 1 false true false)).
  - apply wf_pool_two_files.
  - vm_compute. reflexivity.
  - reflexivity.
  - vm_compute. discriminate.
  - intros j d' Hj Hd' Hf'. destruct j as [|j]; [|lia].
    vm_compute in Hd'. injection Hd' as <-. discriminate Hf'.
  - vm_compute. reflexivity.
Defined.

(** One turn of the loop on a dirty unpinned frame of the file whose write
    fails. *)
Lemma flushFile_body_write_fails (pager : Pager) (f : File) (a : nat) (s : State)
    (d : BufDesc) (pg : Page) :
  wf_pool (mgr s) →
  bufDescTable (mgr s) !! a = Some d →
  file d = Some f → pinCnt d = 0 → dirty d = true →
  bufPool (mgr s) !! a = Some pg →
  pager_write_ok pager (pagerLog s) f pg = false →
  flushFile_body pager f (N.of_nat a) s =
    (Throw (PagerIOException (WritePage f pg)),
     mkState (with_bufStats incr_accesses (mgr s)) (pagerLog s ++ [WritePage f pg])).
Proof.
  intros Hwf Hd Hf Hp Hdirty Hpg Hok.
  assert (valid d = true) as Hv.
  { destruct (valid d) eqn:Hv; [reflexivity|].
    rewrite (wf_invalid _ Hwf _ _ Hd Hv) in Hf. discriminate. }
  unfold flushFile_body. munfold. rewrite Nat2N.id, Hd. simpl.
  rewrite decide_True by congruence. rewrite Hv, Hp, Hdirty. simpl.
  rewrite (wf_frameNo _ Hwf _ _ Hd), Nat2N.id, Hpg. simpl.
  rewrite Hf. simpl. rewrite Hok. reflexivity.
Qed.

(** X19: a flush whose write fails.  In a pool that satisfies the
    invariants, when frame [i] is a dirty unpinned frame of the file, no
    frame of the file before it is pinned, the writes of the dirty frames of
    the file before [i] succeed and the write of frame [i] fails,
    [flushFile] throws the exception of the pager.  Frame [i] is kept as it
    is, dirty and in the directory, and so are the frames after it; the
    frames of the file before [i] have been flushed and cleared;
    [diskwrites] counts the writes that succeeded, not the failed one;
    [accesses] has grown by [i + 1]; the invariants still hold. *)
Theorem flushFile_write_fails (pager : Pager) (f : File) (s : State) (i : nat)
    (d : BufDesc) (pg : Page) :
  wf_pool (mgr s) →
  bufDescTable (mgr s) !! i = Some d →
  file d = Some f → pinCnt d = 0 → dirty d = true →
  bufPool (mgr s) !! i = Some pg →
  (∀ j d', (j < i)%nat → bufDescTable (mgr s) !! j = Some d' →
           file d' = Some f → pinCnt d' = 0) →
  failed_write pager (pagerLog s)
    (flush_writes f (take i (bufDescTable (mgr s))) (take i (bufPool (mgr s)))) = None →
  pager_write_ok pager
    (pagerLog s ++ flush_writes f (take i (bufDescTable (mgr s))) (take i (bufPool (mgr s))))
    f pg = false →
  result (flushFile pager f) s = Throw (PagerIOException (WritePage f pg)) ∧
  wf_pool (mgr (exec (flushFile pager f) s)) ∧
  (∀ j, (i ≤ j)%nat →
     bufDescTable (mgr (exec (flushFile pager f) s)) !! j = bufDescTable (mgr s) !! j) ∧
  (∀ j, (j < i)%nat →
     bufDescTable (mgr (exec (flushFile pager f) s)) !! j
       = flushed f <$> bufDescTable (mgr s) !! j) ∧
  hashTable (mgr (exec (flushFile pager f) s)) !! (f, pageNo d) = Some (N.of_nat i) ∧
  bufPool (mgr (exec (flushFile pager f) s)) = bufPool (mgr s) ∧
  pagerLog (exec (flushFile pager f) s)
    = pagerLog s
      ++ flush_writes f (take i (bufDescTable (mgr s))) (take i (bufPool (mgr s)))
      ++ [WritePage f pg] ∧
  diskwrites (bufStats (mgr (exec (flushFile pager f) s)))
    = diskwrites (bufStats (mgr s))
      + N.of_nat (length (flush_writes f (take i (bufDescTable (mgr s)))
                                         (take i (bufPool (mgr s))))) ∧
  accesses (bufStats (mgr (exec (flushFile pager f) s)))
    = accesses (bufStats (mgr s)) + N.of_nat (S i).
Proof.
  intros Hwf Hd Hf Hp Hdirty Hpg Hbefore Hok Hfail.
  pose proof (wf_table_len _ Hwf) as Hlen.
  assert (i < N.to_nat (numBufs (mgr s)))%nat as Hi
    by (rewrite <- Hlen; eapply lookup_lt_Some, Hd).
  assert (valid d = true) as Hv.
  { destruct (valid d) eqn:Hv; [reflexivity|].
    rewrite (wf_invalid _ Hwf _ _ Hd Hv) in Hf. discriminate. }
  destruct (flushFile_loop_unpinned pager f i 0 s Hwf)
    as (s1 & Hrun & Hwf1 & Hin & Hout & Hpool & Hlog & Hw);
    [simpl; lia | intros j d' Hj; apply Hbefore; lia | exact Hok |].
  destruct (flushFile_loop pager f i 0 s) as (Hrel & m & _ & Hacc & _ & Hret & _);
    [simpl; lia|].
  rewrite Hrun in Hrel, Hacc, Hret. simpl in Hrel, Hacc, Hret.
  change (drop 0 (bufPool (mgr s))) with (bufPool (mgr s)) in Hlog, Hw.
  change (drop 0 (bufDescTable (mgr s))) with (bufDescTable (mgr s)) in Hlog, Hw.
  assert (bufDescTable (mgr s1) !! i = Some d) as Hd1 by (rewrite Hout by lia; exact Hd).
  assert (bufPool (mgr s1) !! i = Some pg) as Hpg1 by (rewrite Hpool; exact Hpg).
  rewrite <- Hlog in Hfail.
  assert (flushFile pager f s =
          (Throw (PagerIOException (WritePage f pg)),
           mkState (with_bufStats incr_accesses (mgr s1))
                   (pagerLog s1 ++ [WritePage f pg]))) as E.
  { change (flushFile pager f s)
      with (for_each (seq 0 (N.to_nat (numBufs (mgr s)))) (flushFile_body pager f) s).
    replace (N.to_nat (numBufs (mgr s))) with (i + S (N.to_nat (numBufs (mgr s)) - S i))%nat
      by lia.
    rewrite seq_app, for_each_app, Hrun.
    change (seq (0 + i) (S (N.to_nat (numBufs (mgr s)) - S i)))
      with (i :: seq (S i) (N.to_nat (numBufs (mgr s)) - S i)).
    rewrite for_each_cons,
      (flushFile_body_write_fails pager f i s1 d pg Hwf1 Hd1 Hf Hp Hdirty Hpg1 Hfail).
    reflexivity. }
  unfold result, exec. rewrite E. simpl.
  split; [reflexivity|].
  split; [apply (wf_other_fields (mgr s1)); auto|].
  split; [intros j Hj; apply Hout; lia|].
  split; [intros j Hj; apply Hin; lia|].
  split.
  { destruct (wf_frame_dir _ Hwf1 _ _ Hd1 Hv) as (g & Hg & Hkey).
    assert (g = f) as -> by congruence. exact Hkey. }
  split; [exact Hpool|].
  split; [rewrite Hlog, <- app_assoc; reflexivity|].
  split; [exact Hw|].
  rewrite Hacc, (Hret eq_refl), Nat2N.inj_succ. lia.
Qed.

Lemma flushFile_write_fails_witness :
  result (flushFile faulty_pager fileA) pool_two_files
    = Throw (PagerIOException (WritePage fileA (mkPage 0 []))) ∧
  bufDescTable (mgr (exec (flushFile faulty_pager fileA) pool_two_files)) !! 0%nat
    = Some (mkBufDesc (Some fileA) 0 0 0 true true false) ∧
  diskwrites (bufStats (mgr (exec (flushFile faulty_pager fileA) pool_two_files)))
    = diskwrites (bufStats (mgr pool_two_files)) + 0.
Proof.
  destruct (flushFile_write_fails faulty_pager fileA pool_two_files 0
              (mkBufDesc (Some fileA) 0 0 0 true true false) (mkPage 0 []))
    as (H1 & _ & H2 & _ & _ & _ & _ & H3 & _).
  - apply wf_pool_two_files.
  - vm_compute. reflexivity.
  - reflexivity.
  - reflexivity.
  - reflexivity.
  - vm_compute. reflexivity.
  - intros j d' Hj. lia.
  - reflexivity.
  - reflexivity.
  - split; [exact H1|]. split; [|exact H3].
    rewrite (H2 0%nat) by lia. vm_compute. reflexivity.
Defined.

Lemma flushFile_body_defined (pager : Pager) (f : File) (a : nat) (s : State) (d : BufDesc) :
  wf_pool (mgr s) →
  bufDescTable (mgr s) !! a = Some d →
  defined (fst (flushFile_body pager f (N.of_nat a) s)) = true.
Proof.
  intros Hwf Hd.
  assert (a < length (bufDescTable (mgr s)))%nat as Ha by (eapply lookup_lt_Some, Hd).
  assert (a < length (bufPool (mgr s)))%nat as Ha'
    by (rewrite (wf_pool_len _ Hwf), <- (wf_table_len _ Hwf); exact Ha).
  destruct (lookup_lt_is_Some_2 _ _ Ha') as [pg Hpg].
  unfold flushFile_body. munfold. rewrite Nat2N.id, Hd. simpl.
  destruct (decide (Some f = file d)) as [Hf|Hf]; simpl; [|reflexivity].
  destruct (valid d) eqn:Hv; simpl; [|reflexivity].
  destruct (0 <? pinCnt d); simpl; [reflexivity|].
  destruct (wf_frame_dir _ Hwf _ _ Hd Hv) as (g & Hg & Hkey).
  assert (g = f) as -> by congruence.
  rewrite (wf_frameNo _ Hwf _ _ Hd), Nat2N.id.
  destruct (dirty d); simpl.
  - rewrite Hpg. simpl. rewrite <- Hf. simpl.
    destruct (pager_write_ok pager (pagerLog s) f pg); simpl; [|reflexivity].
    rewrite Hd. simpl. rewrite Hkey. simpl.
    rewrite list_lookup_insert_eq by exact Ha. reflexivity.
  - rewrite Hkey. simpl. rewrite Hd. reflexivity.
Qed.

Lemma flushFile_loop_defined (pager : Pager) (f : File) (k : nat) :
  ∀ (a : nat) (s : State),
    wf_pool (mgr s) → (a + k ≤ length (bufDescTable (mgr s)))%nat →
    defined (fst (for_each (seq a k) (flushFile_body pager f) s)) = true.
Proof.
  induction k as [|k IH]; intros a s Hwf Hlen; [reflexivity|].
  assert (a < length (bufDescTable (mgr s)))%nat as Ha by lia.
  destruct (lookup_lt_is_Some_2 _ _ Ha) as [d Hd].
  simpl seq. rewrite for_each_cons.
  pose proof (flushFile_body_wf pager f (N.of_nat a) s Hwf) as Hwf1.
  pose proof (flushFile_body_spec pager f a s d Hd) as ((_ & _ & _ & Hlen1 & _) & _).
  pose proof (flushFile_body_defined pager f a s d Hwf Hd) as Hdef.
  destruct (flushFile_body pager f (N.of_nat a) s) as [[[]|e| |] s1];
    simpl in *; try reflexivity; try discriminate.
  apply IH; [exact Hwf1|]. rewrite Hlen1. lia.
Qed.

Lemma flushFile_defined (pager : Pager) (f : File) (s : State) :
  wf_pool (mgr s) → defined (result (flushFile pager f) s) = true.
Proof.
  intros Hwf. unfold result.
  change (flushFile pager f s)
    with (for_each (seq 0 (N.to_nat (numBufs (mgr s)))) (flushFile_body pager f) s).
  apply flushFile_loop_defined; [exact Hwf|]. rewrite (wf_table_len _ Hwf). simpl. lia.
Qed.

Lemma serve_defined (pager : Pager) (fuel : nat) (r : request) (s : State) :
  wf_pool (mgr s) → numBufs (mgr s) ≠ 0 →
  defined (result (serve pager fuel r) s) = true.
Proof.
  intros Hwf Hn. destruct r as [f p|f p b|f|f|f p]; simpl.
  - rewrite (proj1 (result_then_ret _ _)). apply readPage_defined; assumption.
  - apply unPinPage_defined, Hwf.
  - rewrite (proj1 (result_then_ret _ _)). apply allocPage_defined; assumption.
  - apply flushFile_defined, Hwf.
  - apply disposePage_defined, Hwf.
Qed.

(** Only the sweep uses fuel. *)
Lemma for_each_finished (body : N → M unit) (l : list nat) :
  (∀ i s, finished (fst (body i s)) = true) →
  ∀ s, finished (fst (for_each l body s)) = true.
Proof.
  intros Hbody. induction l as [|i l IH]; intros s; [reflexivity|].
  rewrite for_each_cons. specialize (Hbody (N.of_nat i) s).
  destruct (body (N.of_nat i) s) as [[[]|e| |] s1]; simpl in *; auto.
Qed.

Lemma flushFile_finished (pager : Pager) (f : File) (s : State) :
  finished (result (flushFile pager f) s) = true.
Proof.
  unfold result.
  change (flushFile pager f s)
    with (for_each (seq 0 (N.to_nat (numBufs (mgr s)))) (flushFile_body pager f) s).
  apply for_each_finished. intros i s0.
  unfold flushFile_body. munfold. repeat mcase; reflexivity.
Qed.

Lemma unPinPage_finished (pager : Pager) (f : File) (p : PageId) (b : bool) (s : State) :
  finished (result (unPinPage pager f p b) s) = true.
Proof. unfold result, unPinPage. munfold. repeat mcase; reflexivity. Qed.

Lemma disposePage_finished (f : File) (p : PageId) (s : State) :
  finished (result (disposePage f p) s) = true.
Proof. unfold result, disposePage. munfold. repeat mcase; reflexivity. Qed.

Lemma allocPage_terminates (pager : Pager) (fuel : nat) (f : File) (s : State) :
  numBufs (mgr s) < 2 ^ 32 - 1 →
  (length (bufDescTable (mgr s)) + N.to_nat (numBufs (mgr s)) + 1 < fuel)%nat →
  result (allocPage pager fuel f) s ≠ OutOfFuel.
Proof.
  intros Hb Hfuel. pose proof (allocBuf_terminates pager fuel s Hb Hfuel) as Ha.
  unfold result, allocPage in *. rewrite bind_run.
  destruct (allocBuf pager fuel s) as [[fr|e| |] s1]; simpl in *; try discriminate; try congruence.
  munfold. repeat mcase; discriminate.
Qed.

Lemma finished_iff {A} (o : outcome A) : finished o = true ↔ o ≠ OutOfFuel.
Proof. destruct o; simpl; split; congruence. Qed.

Lemma serve_finished (pager : Pager) (fuel : nat) (r : request) (s : State) :
  numBufs (mgr s) < 2 ^ 32 - 1 →
  (length (bufDescTable (mgr s)) + N.to_nat (numBufs (mgr s)) + 1 < fuel)%nat →
  finished (result (serve pager fuel r) s) = true.
Proof.
  intros Hb Hfuel. destruct r as [f p|f p b|f|f|f p]; simpl.
  - rewrite (proj2 (result_then_ret _ _)). apply finished_iff, readPage_terminates; assumption.
  - apply unPinPage_finished.
  - rewrite (proj2 (result_then_ret _ _)). apply finished_iff, allocPage_terminates; assumption.
  - apply flushFile_finished.
  - apply disposePage_finished.
Qed.

(** The destructor in a pool that satisfies the invariants: it returns, or
    throws the exception of a write that failed. *)
Lemma destructor_defined (pager : Pager) (s : State) :
  wf_pool (mgr s) → defined (result (BufMgr_destructor pager) s) = true.
Proof.
  intros Hwf.
  assert (writes_done pager
            (shutdown_writes pager (drop 0 (bufDescTable (mgr s))) (drop 0 (bufPool (mgr s))))
            s (fst (for_each (seq 0 (N.to_nat (numBufs (mgr s)))) (destructor_body pager) s))
              (snd (for_each (seq 0 (N.to_nat (numBufs (mgr s)))) (destructor_body pager) s)))
    as H.
  { apply destructor_loop.
    - rewrite (wf_table_len _ Hwf). simpl. lia.
    - rewrite (wf_pool_len _ Hwf), (wf_table_len _ Hwf). reflexivity.
    - apply wf_dirty_has_file, Hwf. }
  unfold writes_done in H. unfold result. rewrite destructor_run.
  destruct (for_each _ _ s) as [o s'].
  destruct (failed_write pager (pagerLog s) _) as [[done c]|];
    simpl in H; destruct H as (-> & _); reflexivity.
Qed.

(** X5: the invariants hold in every state a client can reach.  Whatever
    calls of [readPage], [unPinPage], [allocPage], [flushFile] and
    [disposePage] a client makes on a pool built for [bufs] frames,
    0 < bufs < 2^32, and whichever of them throw, the pool reached satisfies
    the invariants of the frame table and the directory ([wf_pool]), still
    has [bufs] frames, and its clock hand is a valid frame index. *)
Theorem reachable_invariants (pager : Pager) (fuel : nat) (bufs : N) (rs : list request) :
  0 < bufs → bufs < 2 ^ 32 →
  wf_pool (mgr (serve_all pager fuel rs (init_state bufs))) ∧
  numBufs (mgr (serve_all pager fuel rs (init_state bufs))) = bufs ∧
  clockHand (mgr (serve_all pager fuel rs (init_state bufs))) < bufs.
Proof.
  intros H0 Hb.
  pose proof (wf_init_state bufs) as Hwf.
  pose proof (serve_all_numBufs pager fuel rs (init_state bufs) Hwf) as Hn.
  split; [apply serve_all_wf, Hwf|]. split; [exact Hn|].
  rewrite <- Hn at 2. apply serve_all_hand; [exact Hwf|].
  change (mgr (init_state bufs)) with (BufMgr_new bufs).
  change (clockHand (BufMgr_new bufs)) with (wrap32 (bufs + 2 ^ 32 - 1)).
  rewrite wrap32_pred by assumption. simpl. lia.
Qed.

Lemma reachable_invariants_witness :
  wf_pool (mgr (serve_all demo_pager 8
                  [ReqReadPage fileA 0; ReqAllocPage fileB; ReqFlushFile fileA] (init_state 2))) ∧
  numBufs (mgr (serve_all demo_pager 8
                  [ReqReadPage fileA 0; ReqAllocPage fileB; ReqFlushFile fileA] (init_state 2)))
    = 2 ∧
  clockHand (mgr (serve_all demo_pager 8
                    [ReqReadPage fileA 0; ReqAllocPage fileB; ReqFlushFile fileA]
                    (init_state 2))) < 2.
Proof.
  apply (reachable_invariants demo_pager 8 2
           [ReqReadPage fileA 0; ReqAllocPage fileB; ReqFlushFile fileA]); reflexivity.
Defined.

(** X6: no undefined behaviour, and termination.  In every state a client
    can reach from a pool built for [bufs] frames, 0 < bufs < 2^32 - 1, no
    call of a public operation indexes an array out of range, dereferences a
    null file pointer or divides by zero: each call returns or throws.  With
    fuel above [2 * bufs + 1] the sweep of [allocBuf] ends within the call.
    The destructor has no undefined behaviour either: it returns, or throws
    the exception of a write that failed. *)
Theorem reachable_defined (pager : Pager) (fuel : nat) (bufs : N) (rs : list request) :
  0 < bufs → bufs < 2 ^ 32 - 1 →
  (∀ r, defined (result (serve pager fuel r) (serve_all pager fuel rs (init_state bufs)))
        = true) ∧
  ((2 * N.to_nat bufs + 1 < fuel)%nat →
   ∀ r, finished (result (serve pager fuel r) (serve_all pager fuel rs (init_state bufs)))
        = true) ∧
  defined (result (BufMgr_destructor pager) (serve_all pager fuel rs (init_state bufs)))
    = true.
Proof.
  intros H0 Hb.
  pose proof (wf_init_state bufs) as Hwf0.
  pose proof (serve_all_numBufs pager fuel rs (init_state bufs) Hwf0) as Hn.
  pose proof (serve_all_wf pager fuel rs (init_state bufs) Hwf0) as Hwf.
  change (numBufs (mgr (init_state bufs))) with bufs in Hn.
  split; [|split].
  - intros r. apply serve_defined; [exact Hwf|]. rewrite Hn. lia.
  - intros Hfuel r. apply serve_finished; rewrite ?(wf_table_len _ Hwf), Hn; lia.
  - apply destructor_defined, Hwf.
Qed.

Lemma reachable_defined_witness :
  (∀ r, defined (result (serve demo_pager 8 r)
                   (serve_all demo_pager 8 [ReqReadPage fileA 0; ReqReadPage fileA 1]
                      (init_state 2))) = true) ∧
  ((2 * N.to_nat 2 + 1 < 8)%nat →
   ∀ r, finished (result (serve demo_pager 8 r)
                    (serve_all demo_pager 8 [ReqReadPage fileA 0; ReqReadPage fileA 1]
                       (init_state 2))) = true) ∧
  defined (result (BufMgr_destructor demo_pager)
             (serve_all demo_pager 8 [ReqReadPage fileA 0; ReqReadPage fileA 1] (init_state 2)))
    = true.
Proof.
  apply (reachable_defined demo_pager 8 2 [ReqReadPage fileA 0; ReqReadPage fileA 1]);
    reflexivity.
Defined.

(** ** Fetch, in full *)

(** A miss in a pool that has a free frame, when no write fails. *)
Lemma readPage_free (pager : Pager) (fuel : nat) (f : File) (p : PageId) (s : State) :
  wf_pool (mgr s) →
  clockHand (mgr s) < numBufs (mgr s) → numBufs (mgr s) < 2 ^ 32 →
  has_free_frame (mgr s) →
  (N.to_nat (numBufs (mgr s)) ≤ fuel)%nat →
  hashTable (mgr s) !! (f, p) = None →
  (∀ g pg, pager_write_ok pager (pagerLog s) g pg = true) →
  ∃ fr,
    result (allocBuf pager fuel) s = Return fr ∧
    pagerLog (exec (readPage pager fuel f p) s)
      = pagerLog (exec (allocBuf pager fuel) s) ++ [ReadPage f p] ∧
    wf_pool (mgr (exec (readPage pager fuel f p) s)) ∧
    (pager_read_ok pager (pagerLog (exec (allocBuf pager fuel) s)) f p = true →
       result (readPage pager fuel f p) s = Return fr ∧
       bufDescTable (mgr (exec (readPage pager fuel f p) s)) !! N.to_nat fr
         = Some (mkBufDesc (Some f) p fr 1 false true false) ∧
       hashTable (mgr (exec (readPage pager fuel f p) s)) !! (f, p) = Some fr ∧
       bufPool (mgr (exec (readPage pager fuel f p) s)) !! N.to_nat fr
         = Some (pager_read pager (pagerLog (exec (allocBuf pager fuel) s)) f p)) ∧
    (pager_read_ok pager (pagerLog (exec (allocBuf pager fuel) s)) f p = false →
       result (readPage pager fuel f p) s = Throw (PagerIOException (ReadPage f p)) ∧
       mgr (exec (readPage pager fuel f p) s) = mgr (exec (allocBuf pager fuel) s) ∧
       hashTable (mgr (exec (readPage pager fuel f p) s)) !! (f, p) = None ∧
       ∃ d, bufDescTable (mgr (exec (readPage pager fuel f p) s)) !! N.to_nat fr = Some d ∧
            valid d = false).
Proof.
  intros Hwf Hh Hb Hfree Hfuel Hl Hwok.
  destruct (allocBuf_free pager fuel s Hwf Hh Hb Hfree Hfuel Hwok) as (fr & Hfr).
  pose proof (readPage_wf pager fuel f p s Hwf) as Hwf'.
  unfold result, exec in *.
  destruct (allocBuf pager fuel s) as [r s1] eqn:E. simpl in Hfr. subst r.
  destruct (readPage_miss_run pager fuel f p s s1 fr Hwf Hl E)
    as (d & Hd & Hv & Hwf1 & Hl1 & Hrun).
  simpl.
  assert (N.to_nat fr < length (bufDescTable (mgr s1)))%nat as Hlt
    by (eapply lookup_lt_Some, Hd).
  assert (N.to_nat fr < length (bufPool (mgr s1)))%nat as Hlt'
    by (rewrite (wf_pool_len _ Hwf1), <- (wf_table_len _ Hwf1); exact Hlt).
  exists fr. split; [reflexivity|].
  destruct (pager_read_ok pager (pagerLog s1) f p) eqn:Hok; rewrite Hrun in *; simpl in *.
  - split; [reflexivity|]. split; [exact Hwf'|]. split; [|discriminate].
    intros _. split; [reflexivity|].
    split.
    { rewrite list_lookup_insert_eq by exact Hlt. unfold Set_.
      rewrite (wf_frameNo _ Hwf1 _ _ Hd), N2Nat.id. reflexivity. }
    split; [apply lookup_insert_eq|].
    apply list_lookup_insert_eq, Hlt'.
  - split; [reflexivity|]. split; [exact Hwf'|]. split; [discriminate|].
    intros _. split; [reflexivity|]. split; [reflexivity|]. split; [exact Hl1|].
    exists d. auto.
Qed.

(** X7: a miss in a pool with a free frame.  In a reachable pool (the
    invariants hold, the hand is in range) with fewer than 2^32 frames, at
    least one of them invalid, and with a pager that does not fail a write
    at this point, a [readPage] of a page that is not cached obtains a frame
    from [allocBuf] and calls the file's [readPage], as its last pager call.
    When the read succeeds the call returns the frame: its descriptor is the
    one [Set] leaves (the page's identity, valid, pin count 1, clean), the
    directory maps the page to the frame and the frame's buffer holds the
    page the pager returned.  When the read fails its exception leaves
    [readPage]: the pool is as [allocBuf] left it, the frame is still
    invalid and the page is not in the directory.  The invariants hold in
    both cases. *)
Theorem readPage_miss_free_frame (pager : Pager) (fuel : nat) (f : File) (p : PageId)
    (s : State) :
  wf_pool (mgr s) →
  clockHand (mgr s) < numBufs (mgr s) → numBufs (mgr s) < 2 ^ 32 →
  has_free_frame (mgr s) →
  (N.to_nat (numBufs (mgr s)) ≤ fuel)%nat →
  hashTable (mgr s) !! (f, p) = None →
  (∀ g pg, pager_write_ok pager (pagerLog s) g pg = true) →
  ∃ fr,
    result (allocBuf pager fuel) s = Return fr ∧
    pagerLog (exec (readPage pager fuel f p) s)
      = pagerLog (exec (allocBuf pager fuel) s) ++ [ReadPage f p] ∧
    wf_pool (mgr (exec (readPage pager fuel f p) s)) ∧
    (pager_read_ok pager (pagerLog (exec (allocBuf pager fuel) s)) f p = true →
       result (readPage pager fuel f p) s = Return fr ∧
       bufDescTable (mgr (exec (readPage pager fuel f p) s)) !! N.to_nat fr
         = Some (mkBufDesc (Some f) p fr 1 false true false) ∧
       hashTable (mgr (exec (readPage pager fuel f p) s)) !! (f, p) = Some fr ∧
       bufPool (mgr (exec (readPage pager fuel f p) s)) !! N.to_nat fr
         = Some (pager_read pager (pagerLog (exec (allocBuf pager fuel) s)) f p)) ∧
    (pager_read_ok pager (pagerLog (exec (allocBuf pager fuel) s)) f p = false →
       result (readPage pager fuel f p) s = Throw (PagerIOException (ReadPage f p)) ∧
       mgr (exec (readPage pager fuel f p) s) = mgr (exec (allocBuf pager fuel) s) ∧
       hashTable (mgr (exec (readPage pager fuel f p) s)) !! (f, p) = None ∧
       ∃ d, bufDescTable (mgr (exec (readPage pager fuel f p) s)) !! N.to_nat fr = Some d ∧
            valid d = false).
Proof. apply readPage_free. Qed.

Lemma init_state_free (bufs : N) : 0 < bufs → has_free_frame (mgr (init_state bufs)).
Proof.
  intros H. exists 0%nat, (mkBufDesc None 0 0 0 false false false).
  split; [|reflexivity]. apply BufMgr_new_lookup. split; [lia | reflexivity].
Qed.

Lemma readPage_miss_free_frame_witness :
  result (readPage demo_pager 8 fileA 5) (init_state 3) = Return 0 ∧
  bufDescTable (mgr (exec (readPage demo_pager 8 fileA 5) (init_state 3))) !! N.to_nat 0
    = Some (mkBufDesc (Some fileA) 5 0 1 false true false) ∧
  pagerLog (exec (readPage demo_pager 8 fileA 5) (init_state 3)) = [ReadPage fileA 5].
Proof.
  destruct (readPage_miss_free_frame demo_pager 8 fileA 5 (init_state 3))
    as (fr & Hfr & Hlog & _ & Hok & _).
  - apply wf_init_state.
  - vm_compute. reflexivity.
  - vm_compute. reflexivity.
  - apply init_state_free. reflexivity.
  - vm_compute. lia.
  - vm_compute. reflexivity.
  - reflexivity.
  - vm_compute in Hfr. injection Hfr as <-.
    destruct (Hok eq_refl) as (Hres & Hd & _).
    split; [exact Hres|]. split; [exact Hd | exact Hlog].
Defined.

(** After a fetch that returned, the page is cached and pinned. *)
Lemma readPage_returns_pinned (pager : Pager) (fuel : nat) (f : File) (p : PageId)
    (s : State) (fr : FrameId) :
  wf_pool (mgr s) →
  result (readPage pager fuel f p) s = Return fr →
  hashTable (mgr (exec (readPage pager fuel f p) s)) !! (f, p) = Some fr ∧
  ∃ d, bufDescTable (mgr (exec (readPage pager fuel f p) s)) !! N.to_nat fr = Some d ∧
       file d = Some f ∧ pageNo d = p ∧ valid d = true ∧ pinCnt d ≠ 0.
Proof.
  intros Hwf Hres. unfold result, exec in *.
  destruct (hashTable (mgr s) !! (f, p)) as [fr0|] eqn:Hl.
  - rewrite (readPage_hit pager fuel f p s fr0 Hl) in *.
    destruct (wf_dir_frame _ Hwf _ _ _ Hl) as (d & Hd & Hv & Hf & Hp).
    rewrite Hd in *. simpl in *. injection Hres as <-.
    split; [exact Hl|].
    eexists. rewrite list_lookup_insert_eq by (eapply lookup_lt_Some, Hd).
    split; [reflexivity|]. simpl. repeat split; auto. lia.
  - destruct (allocBuf pager fuel s) as [[fr1|e| |] s1] eqn:E;
      try (rewrite (readPage_miss pager fuel f p s Hl), E in Hres; discriminate).
    destruct (readPage_miss_run pager fuel f p s s1 fr1 Hwf Hl E)
      as (d & Hd & Hv & Hwf1 & Hl1 & Hrun).
    rewrite Hrun in *.
    destruct (pager_read_ok pager (pagerLog s1) f p); [|discriminate Hres].
    simpl in *. injection Hres as <-.
    split; [apply lookup_insert_eq|].
    eexists. rewrite list_lookup_insert_eq by (eapply lookup_lt_Some, Hd).
    split; [reflexivity|]. simpl. repeat split; auto; try discriminate.
Qed.

(** X8: fetch, then fetch again.  In a pool that satisfies the invariants,
    after a [readPage] that returned the frame [fr], the page is cached in
    [fr], valid and pinned; a second [readPage] of the same page hits: it
    returns [fr] again, adds one to the pin count, sets the reference bit,
    and makes no pager call and no change to the directory or the page
    buffers. *)
Theorem readPage_twice (pager : Pager) (fuel : nat) (f : File) (p : PageId) (s : State)
    (fr : FrameId) :
  wf_pool (mgr s) →
  result (readPage pager fuel f p) s = Return fr →
  ∃ d,
    bufDescTable (mgr (exec (readPage pager fuel f p) s)) !! N.to_nat fr = Some d ∧
    file d = Some f ∧ pageNo d = p ∧ valid d = true ∧ pinCnt d ≠ 0 ∧
    hashTable (mgr (exec (readPage pager fuel f p) s)) !! (f, p) = Some fr ∧
    readPage pager fuel f p (exec (readPage pager fuel f p) s)
      = (Return fr,
         updated fr (mkBufDesc (file d) (pageNo d) (frameNo d) (pinCnt d + 1) (dirty d)
                               (valid d) true)
                 (exec (readPage pager fuel f p) s)).
Proof.
  intros Hwf Hres.
  destruct (readPage_returns_pinned pager fuel f p s fr Hwf Hres)
    as (Hl & d & Hd & Hf & Hp & Hv & Hpin).
  exists d. repeat (split; [assumption|]).
  rewrite (readPage_hit pager fuel f p _ fr Hl), Hd. reflexivity.
Qed.

Lemma readPage_twice_witness :
  ∃ d,
    bufDescTable (mgr (exec (readPage demo_pager 8 fileA 0) (init_state 3))) !! N.to_nat 0
      = Some d ∧
    file d = Some fileA ∧ pageNo d = 0 ∧ valid d = true ∧ pinCnt d ≠ 0 ∧
    hashTable (mgr (exec (readPage demo_pager 8 fileA 0) (init_state 3))) !! (fileA, 0)
      = Some 0 ∧
    readPage demo_pager 8 fileA 0 (exec (readPage demo_pager 8 fileA 0) (init_state 3))
      = (Return 0,
         updated 0 (mkBufDesc (file d) (pageNo d) (frameNo d) (pinCnt d + 1) (dirty d)
                              (valid d) true)
                 (exec (readPage demo_pager 8 fileA 0) (init_state 3))).
Proof.
  apply (readPage_twice demo_pager 8 fileA 0 (init_state 3) 0).
  - apply wf_init_state.
  - vm_compute. reflexivity.
Defined.

(** ** Unpin, in full *)

(** X11: [unPinPage] on a cached page.  When the directory maps the page to
    a frame: with pin count zero the call throws [PageNotPinnedException]
    carrying the file name, the frame's page number and the frame number,
    and changes nothing; otherwise it returns, the pin count is one less,
    the dirty bit is set when [dirty] was passed and is otherwise as it was
    (it is never cleared), and the reference bit, the identity of the frame,
    every other frame, the directory, the buffers, the statistics and the
    pager log are untouched. *)
Theorem unPinPage_cached_effect (pager : Pager) (f : File) (p : PageId) (b : bool) (s : State)
    (fr : FrameId) (d : BufDesc) :
  hashTable (mgr s) !! (f, p) = Some fr →
  bufDescTable (mgr s) !! N.to_nat fr = Some d →
  (pinCnt d = 0 →
     unPinPage pager f p b s
       = (Throw (PageNotPinnedException (pager_filename pager f) (pageNo d) fr), s)) ∧
  (pinCnt d ≠ 0 →
     unPinPage pager f p b s
       = (Return tt,
          updated fr (mkBufDesc (file d) (pageNo d) (frameNo d) (pinCnt d - 1)
                                (b || dirty d) (valid d) (refbit d)) s)).
Proof.
  intros Hl Hd. rewrite (unPinPage_cached pager f p b s fr d Hl Hd). split.
  - intros ->. reflexivity.
  - intros Hp. apply N.eqb_neq in Hp. rewrite Hp. destruct b; reflexivity.
Qed.

Lemma unPinPage_cached_effect_witness :
  unPinPage demo_pager fileA 0 true pool_one_dirty
    = (Throw (PageNotPinnedException (pager_filename demo_pager fileA) 0 0), pool_one_dirty) ∧
  unPinPage demo_pager fileA 1 true pool_two_pinned
    = (Return tt,
       updated 1 (mkBufDesc (Some fileA) 1 1 (1 - 1) (true || false) true false)
               pool_two_pinned).
Proof.
  split.
  - apply (proj1 (unPinPage_cached_effect demo_pager fileA 0 true pool_one_dirty 0
                    (mkBufDesc (Some fileA) 0 0 0 true true false)
                    ltac:(vm_compute; reflexivity) ltac:(vm_compute; reflexivity))).
    reflexivity.
  - apply (proj2 (unPinPage_cached_effect demo_pager fileA 1 true pool_two_pinned 1
                    (mkBufDesc (Some fileA) 1 1 1 false true false)
                    ltac:(vm_compute; reflexivity) ltac:(vm_compute; reflexivity))).
    vm_compute. discriminate.
Defined.

(** X12: fetch, then unpin.  In a pool that satisfies the invariants, after
    a [readPage] that returned the frame [fr], [unPinPage] of the same page
    returns: the page stays cached in [fr], the pin count is one less and
    the dirty bit is set when asked for.  When the fetch was a miss the
    frame then has pin count zero and is dirty exactly when [dirty] was
    passed. *)
Theorem readPage_then_unPinPage (pager : Pager) (fuel : nat) (f : File) (p : PageId)
    (b : bool) (s : State) (fr : FrameId) :
  wf_pool (mgr s) →
  result (readPage pager fuel f p) s = Return fr →
  ∃ d,
    bufDescTable (mgr (exec (readPage pager fuel f p) s)) !! N.to_nat fr = Some d ∧
    unPinPage pager f p b (exec (readPage pager fuel f p) s)
      = (Return tt,
         updated fr (mkBufDesc (Some f) p (frameNo d) (pinCnt d - 1) (b || dirty d) true
                               (refbit d))
                 (exec (readPage pager fuel f p) s)) ∧
    (hashTable (mgr s) !! (f, p) = None → pinCnt d - 1 = 0 ∧ (b || dirty d) = b).
Proof.
  intros Hwf Hres.
  destruct (readPage_returns_pinned pager fuel f p s fr Hwf Hres)
    as (Hl & d & Hd & Hf & Hp & Hv & Hpin).
  exists d. split; [exact Hd|]. split.
  - rewrite (unPinPage_cached pager f p b _ fr d Hl Hd).
    apply N.eqb_neq in Hpin. rewrite Hpin. clear Hd Hl Hres Hpin.
    destruct d as [fd pd frd pin dd vd rd]. simpl in *. subst. destruct b; reflexivity.
  - intros Hmiss. unfold result, exec in *.
    destruct (allocBuf pager fuel s) as [[fr1|e| |] s1] eqn:E;
      try (rewrite (readPage_miss pager fuel f p s Hmiss), E in Hres; discriminate).
    destruct (readPage_miss_run pager fuel f p s s1 fr1 Hwf Hmiss E)
      as (d1 & Hd1 & Hv1 & Hwf1 & Hl1 & Hrun).
    rewrite Hrun in *.
    destruct (pager_read_ok pager (pagerLog s1) f p); [|discriminate Hres].
    simpl in *. injection Hres as <-.
    rewrite list_lookup_insert_eq in Hd by (eapply lookup_lt_Some, Hd1).
    injection Hd as <-. simpl. split; [reflexivity | apply orb_false_r].
Qed.

Lemma readPage_then_unPinPage_witness :
  ∃ d,
    bufDescTable (mgr (exec (readPage demo_pager 8 fileA 0) (init_state 3))) !! N.to_nat 0
      = Some d ∧
    unPinPage demo_pager fileA 0 true (exec (readPage demo_pager 8 fileA 0) (init_state 3))
      = (Return tt,
         updated 0 (mkBufDesc (Some fileA) 0 (frameNo d) (pinCnt d - 1) (true || dirty d) true
                              (refbit d))
                 (exec (readPage demo_pager 8 fileA 0) (init_state 3))) ∧
    (hashTable (mgr (init_state 3)) !! (fileA, 0) = None →
     pinCnt d - 1 = 0 ∧ (true || dirty d) = true).
Proof.
  apply (readPage_then_unPinPage demo_pager 8 fileA 0 true (init_state 3) 0).
  - apply wf_init_state.
  - vm_compute. reflexivity.
Defined.

(** ** Pinned frames *)

(** A call of [allocBuf] that does not return a frame has only swept. *)
Lemma allocBuf_no_frame (pager : Pager) (fuel : nat) (s : State) :
  (∀ fr, result (allocBuf pager fuel) s ≠ Return fr) →
  ref_cleared (bufDescTable (mgr s)) (bufDescTable (mgr (exec (allocBuf pager fuel) s))) ∧
  hashTable (mgr (exec (allocBuf pager fuel) s)) = hashTable (mgr s) ∧
  bufPool (mgr (exec (allocBuf pager fuel) s)) = bufPool (mgr s).
Proof.
  unfold result, exec, allocBuf, allocBuf_from. rewrite bind_run. intros Hno.
  pose proof (allocBuf_loop_sweep fuel 0 s) as (_ & Hrc & Hp & Hh & _ & _).
  destruct (allocBuf_loop fuel 0 s) as [r s1]. simpl in Hrc, Hp, Hh.
  destruct r as [[fr|pc']|e| |]; simpl in *; auto.
  revert Hno. munfold. simpl.
  repeat mcase; intros Hno; simpl; auto; try congruence; exfalso; eapply Hno; reflexivity.
Qed.

(** A valid pinned frame across [allocBuf]: it is not the frame handed out,
    and it keeps its page, its pin count, its dirty bit, its buffer and its
    directory entry. *)
Lemma allocBuf_keeps_pinned (pager : Pager) (fuel : nat) (s : State) (i : nat) (d : BufDesc) :
  wf_pool (mgr s) →
  bufDescTable (mgr s) !! i = Some d → valid d = true → pinCnt d ≠ 0 →
  (∃ d', bufDescTable (mgr (exec (allocBuf pager fuel) s)) !! i = Some d' ∧
         (d' = d ∨ d' = set_refbit false d)) ∧
  bufPool (mgr (exec (allocBuf pager fuel) s)) = bufPool (mgr s) ∧
  (∀ f, file d = Some f →
     hashTable (mgr (exec (allocBuf pager fuel) s)) !! (f, pageNo d) = Some (N.of_nat i)) ∧
  (∀ fr, result (allocBuf pager fuel) s = Return fr → N.to_nat fr ≠ i).
Proof.
  intros Hwf Hd Hv Hp.
  destruct (wf_frame_dir _ Hwf _ _ Hd Hv) as (f0 & Hf0 & Hkey0).
  assert (∀ f, file d = Some f → hashTable (mgr s) !! (f, pageNo d) = Some (N.of_nat i))
    as Hkey by (intros f Hf; assert (f = f0) as -> by congruence; exact Hkey0).
  destruct (result (allocBuf pager fuel) s) as [fr| e | |] eqn:Hres.
  - destruct (allocBuf_effect pager fuel s fr Hwf Hres)
      as (dv & Hdv & Hunp & Hclr & Hothers & Hhash & _ & Hpool & _).
    assert (N.to_nat fr ≠ i) as Hne.
    { intros E. rewrite E, Hd in Hdv. injection Hdv as <-. auto. }
    split; [apply (Hothers i d); [congruence | exact Hd]|].
    split; [exact Hpool|]. split; [|intros fr0 E; congruence].
    intros f Hf. rewrite Hhash.
    destruct (file dv) as [g|] eqn:Hg; [|apply Hkey, Hf].
    rewrite lookup_delete_ne; [apply Hkey, Hf|].
    intros E. injection E as -> E.
    assert (valid dv = true) as Hvv.
    { destruct (valid dv) eqn:Hvv; [reflexivity|].
      rewrite (wf_invalid _ Hwf _ _ Hdv Hvv) in Hg. discriminate. }
    destruct (wf_frame_dir _ Hwf _ _ Hdv Hvv) as (g' & Hg' & Hkey').
    assert (g' = f) as -> by congruence.
    rewrite E, (Hkey f Hf) in Hkey'. injection Hkey' as Hi.
    apply Nat2N.inj in Hi. congruence.
  - destruct (allocBuf_no_frame pager fuel s) as (Hrc & Hh & Hpool); [rewrite Hres; discriminate|].
    split; [eapply ref_cleared_lookup_l; eassumption|].
    split; [exact Hpool|]. split; [|discriminate].
    intros f Hf. rewrite Hh. apply Hkey, Hf.
  - destruct (allocBuf_no_frame pager fuel s) as (Hrc & Hh & Hpool); [rewrite Hres; discriminate|].
    split; [eapply ref_cleared_lookup_l; eassumption|].
    split; [exact Hpool|]. split; [|discriminate].
    intros f Hf. rewrite Hh. apply Hkey, Hf.
  - destruct (allocBuf_no_frame pager fuel s) as (Hrc & Hh & Hpool); [rewrite Hres; discriminate|].
    split; [eapply ref_cleared_lookup_l; eassumption|].
    split; [exact Hpool|]. split; [|discriminate].
    intros f Hf. rewrite Hh. apply Hkey, Hf.
Qed.

(** X13: a pinned page is not disturbed by other fetches and allocations.
    In a pool that satisfies the invariants, a valid frame with a nonzero
    pin count keeps its page, its pin count and its dirty bit (at most its
    reference bit is cleared), its buffer and its directory entry across a
    [readPage] of any other page and across any [allocPage], whatever the
    outcome of the call. *)
Theorem pinned_frame_kept (pager : Pager) (fuel : nat) (s : State) (i : nat) (d : BufDesc) :
  wf_pool (mgr s) →
  bufDescTable (mgr s) !! i = Some d → valid d = true → pinCnt d ≠ 0 →
  (∀ g q, (file d ≠ Some g ∨ pageNo d ≠ q) →
     (∃ d', bufDescTable (mgr (exec (readPage pager fuel g q) s)) !! i = Some d' ∧
            (d' = d ∨ d' = set_refbit false d)) ∧
     bufPool (mgr (exec (readPage pager fuel g q) s)) !! i = bufPool (mgr s) !! i ∧
     (∀ f, file d = Some f →
        hashTable (mgr (exec (readPage pager fuel g q) s)) !! (f, pageNo d)
          = Some (N.of_nat i))) ∧
  (∀ g,
     (∃ d', bufDescTable (mgr (exec (allocPage pager fuel g) s)) !! i = Some d' ∧
            (d' = d ∨ d' = set_refbit false d)) ∧
     bufPool (mgr (exec (allocPage pager fuel g) s)) !! i = bufPool (mgr s) !! i ∧
     (∀ f, file d = Some f →
        hashTable (mgr (exec (allocPage pager fuel g) s)) !! (f, pageNo d)
          = Some (N.of_nat i))).
Proof.
  intros Hwf Hd Hv Hp.
  destruct (allocBuf_keeps_pinned pager fuel s i d Hwf Hd Hv Hp) as (Hfr & Hpool & Hkey & Hne).
  destruct (wf_frame_dir _ Hwf _ _ Hd Hv) as (f0 & Hf0 & Hkey0).
  unfold exec, result in *. split.
  - intros g q Hother.
    destruct (hashTable (mgr s) !! (g, q)) as [fr0|] eqn:Hl.
    + rewrite (readPage_hit pager fuel g q s fr0 Hl).
      destruct (wf_dir_frame _ Hwf _ _ _ Hl) as (d0 & Hd0 & _ & Hg0 & Hq0).
      rewrite Hd0. simpl.
      assert (N.to_nat fr0 ≠ i) as Hne0.
      { intros E. rewrite E, Hd in Hd0. injection Hd0 as <-. destruct Hother; congruence. }
      rewrite list_lookup_insert_ne by exact Hne0.
      split; [eauto|]. split; [reflexivity|].
      intros f Hf. assert (f = f0) as -> by congruence. exact Hkey0.
    + rewrite (readPage_miss pager fuel g q s Hl).
      destruct (allocBuf pager fuel s) as [[fr|e| |] s1] eqn:E; simpl in *;
        try (split; [exact Hfr|]; split; [rewrite Hpool; reflexivity | exact Hkey]).
      destruct (readPage_miss_run pager fuel g q s s1 fr Hwf Hl E)
        as (d1 & Hd1 & Hv1 & Hwf1 & Hl1 & Hrun).
      rewrite (readPage_miss pager fuel g q s Hl), E in Hrun. rewrite Hrun.
      destruct (pager_read_ok pager (pagerLog s1) g q); simpl;
        [|split; [exact Hfr|]; split; [rewrite Hpool; reflexivity | exact Hkey]].
      specialize (Hne fr eq_refl).
      rewrite !list_lookup_insert_ne by exact Hne.
      split; [exact Hfr|]. split; [rewrite Hpool; reflexivity|].
      intros f Hf. rewrite lookup_insert_ne; [apply Hkey, Hf|].
      intros Eq. injection Eq as Eg Eq'. destruct Hother; congruence.
  - intros g. unfold allocPage. rewrite bind_run.
    destruct (allocBuf pager fuel s) as [[fr|e| |] s1] eqn:E; simpl in *;
      try (split; [exact Hfr|]; split; [rewrite Hpool; reflexivity | exact Hkey]).
    destruct (allocPage_run pager fuel g s s1 fr Hwf E) as (d1 & Hd1 & Hv1 & Hwf1 & Hrun).
    unfold allocPage in Hrun. rewrite bind_run, E in Hrun. rewrite Hrun.
    specialize (Hne fr eq_refl).
    destruct (hashTable (mgr s1) !! (g, page_number (pager_allocate pager (pagerLog s1) g)))
      eqn:Hk; simpl.
    + rewrite list_lookup_insert_ne by exact Hne.
      split; [exact Hfr|]. split; [rewrite Hpool; reflexivity | exact Hkey].
    + rewrite !list_lookup_insert_ne by exact Hne.
      split; [exact Hfr|]. split; [rewrite Hpool; reflexivity|].
      intros f Hf. rewrite lookup_insert_ne; [apply Hkey, Hf|].
      intros Eq. rewrite Eq in Hk. rewrite (Hkey f Hf) in Hk. discriminate.
Qed.

Lemma pinned_frame_kept_witness :
  (∃ d', bufDescTable (mgr (exec (readPage demo_pager 8 fileA 7) pool_two_files)) !! 1%nat
           = Some d' ∧
         (d' = mkBufDesc (Some fileB) 0 1 1 false true false ∨
          d' = set_refbit false (mkBufDesc (Some fileB) 0 1 1 false true false))) ∧
  bufPool (mgr (exec (readPage demo_pager 8 fileA 7) pool_two_files)) !! 1%nat
    = bufPool (mgr pool_two_files) !! 1%nat ∧
  (∀ f, file (mkBufDesc (Some fileB) 0 1 1 false true false) = Some f →
     hashTable (mgr (exec (readPage demo_pager 8 fileA 7) pool_two_files))
       !! (f, pageNo (mkBufDesc (Some fileB) 0 1 1 false true false))
       = Some (N.of_nat 1)).
Proof.
  apply (proj1 (pinned_frame_kept demo_pager 8 pool_two_files 1
                  (mkBufDesc (Some fileB) 0 1 1 false true false)
                  wf_pool_two_files ltac:(vm_compute; reflexivity) eq_refl
                  ltac:(vm_compute; discriminate)) fileA 7).
  left. vm_compute. discriminate.
Defined.

(** ** Allocation of a new page *)

(** X14: [allocPage] when every frame is pinned.  In a pool whose frames
    are all valid and pinned, [allocPage] throws [BufferExceededException]
    before the pager is asked for a page: the pager log, the directory, the
    buffers and the statistics are as before, and the frame table is as
    before up to reference bits cleared by the sweep. *)
Theorem allocPage_all_pinned (pager : Pager) (fuel : nat) (f : File) (s : State) :
  numBufs (mgr s) ≠ 0 → numBufs (mgr s) < 2 ^ 32 - 1 →
  length (bufDescTable (mgr s)) = N.to_nat (numBufs (mgr s)) →
  all_pinned (mgr s) →
  (2 * N.to_nat (numBufs (mgr s)) + 1 < fuel)%nat →
  result (allocPage pager fuel f) s = Throw BufferExceededException ∧
  sweep_rel s (exec (allocPage pager fuel f) s).
Proof.
  intros Hn Hb Hlen Hall Hfuel.
  destruct (allocBuf_all_pinned pager fuel s Hn Hb Hlen Hall Hfuel) as [Hr Hs].
  unfold result, exec, allocPage. rewrite bind_run.
  destruct (allocBuf pager fuel s) as [r s1]. simpl in Hr, Hs. subst r. simpl. auto.
Qed.

Lemma allocPage_all_pinned_witness :
  result (allocPage demo_pager 8 fileB) pool_two_pinned = Throw BufferExceededException ∧
  sweep_rel pool_two_pinned (exec (allocPage demo_pager 8 fileB) pool_two_pinned).
Proof.
  apply (allocPage_all_pinned demo_pager 8 fileB pool_two_pinned).
  - vm_compute. discriminate.
  - vm_compute. reflexivity.
  - vm_compute. reflexivity.
  - vm_compute. repeat constructor; discriminate.
  - vm_compute. lia.
Defined.

(** X15: [allocPage] in a pool with a free frame.  In a reachable pool with
    fewer than 2^32 frames, at least one of them invalid, and with a pager
    that does not fail a write at this point (the write-back of a victim
    [allocBuf] may meet before the free frame), [allocPage] asks the pager
    for a new page after [allocBuf] has supplied a frame.  When
    the number of the new page is not already cached for the file, the call
    returns that number and the frame: the descriptor is the one [Set]
    leaves, the directory maps the new page to the frame, the frame's buffer
    holds the page the pager returned, and the allocation is the last pager
    call. *)
Theorem allocPage_free_frame (pager : Pager) (fuel : nat) (f : File) (s : State) :
  wf_pool (mgr s) →
  clockHand (mgr s) < numBufs (mgr s) → numBufs (mgr s) < 2 ^ 32 →
  has_free_frame (mgr s) →
  (N.to_nat (numBufs (mgr s)) ≤ fuel)%nat →
  (∀ g pg, pager_write_ok pager (pagerLog s) g pg = true) →
  hashTable (mgr (exec (allocBuf pager fuel) s))
    !! (f, page_number (pager_allocate pager (pagerLog (exec (allocBuf pager fuel) s)) f)) = None →
  ∃ fr,
    result (allocPage pager fuel f) s
      = Return (page_number (pager_allocate pager (pagerLog (exec (allocBuf pager fuel) s)) f), fr) ∧
    bufDescTable (mgr (exec (allocPage pager fuel f) s)) !! N.to_nat fr
      = Some (mkBufDesc (Some f)
                (page_number (pager_allocate pager (pagerLog (exec (allocBuf pager fuel) s)) f))
                fr 1 false true false) ∧
    hashTable (mgr (exec (allocPage pager fuel f) s))
      !! (f, page_number (pager_allocate pager (pagerLog (exec (allocBuf pager fuel) s)) f))
      = Some fr ∧
    bufPool (mgr (exec (allocPage pager fuel f) s)) !! N.to_nat fr
      = Some (pager_allocate pager (pagerLog (exec (allocBuf pager fuel) s)) f) ∧
    pagerLog (exec (allocPage pager fuel f) s)
      = pagerLog (exec (allocBuf pager fuel) s) ++ [AllocatePage f] ∧
    wf_pool (mgr (exec (allocPage pager fuel f) s)).
Proof.
  intros Hwf Hh Hb Hfree Hfuel Hwok Hnew.
  destruct (allocBuf_free pager fuel s Hwf Hh Hb Hfree Hfuel Hwok) as (fr & Hfr).
  pose proof (allocPage_wf pager fuel f s Hwf) as Hwf'.
  unfold result, exec in *.
  destruct (allocBuf pager fuel s) as [r s1] eqn:E. simpl in Hfr, Hnew. subst r.
  destruct (allocPage_run pager fuel f s s1 fr Hwf E) as (d & Hd & Hv & Hwf1 & Hrun).
  rewrite Hnew in Hrun. rewrite Hrun in *. simpl in *.
  assert (N.to_nat fr < length (bufDescTable (mgr s1)))%nat as Hlt
    by (eapply lookup_lt_Some, Hd).
  assert (N.to_nat fr < length (bufPool (mgr s1)))%nat as Hlt'
    by (rewrite (wf_pool_len _ Hwf1), <- (wf_table_len _ Hwf1); exact Hlt).
  exists fr. split; [reflexivity|].
  split.
  { rewrite list_lookup_insert_eq by exact Hlt. unfold Set_.
    rewrite (wf_frameNo _ Hwf1 _ _ Hd), N2Nat.id. reflexivity. }
  split; [apply lookup_insert_eq|].
  split; [apply list_lookup_insert_eq, Hlt'|].
  split; [reflexivity | exact Hwf'].
Qed.

Lemma allocPage_free_frame_witness :
  ∃ fr,
    result (allocPage demo_pager 8 fileA) (init_state 2)
      = Return (page_number (pager_allocate demo_pager
                               (pagerLog (exec (allocBuf demo_pager 8) (init_state 2))) fileA), fr) ∧
    bufDescTable (mgr (exec (allocPage demo_pager 8 fileA) (init_state 2))) !! N.to_nat fr
      = Some (mkBufDesc (Some fileA)
                (page_number (pager_allocate demo_pager
                                (pagerLog (exec (allocBuf demo_pager 8) (init_state 2))) fileA))
                fr 1 false true false) ∧
    hashTable (mgr (exec (allocPage demo_pager 8 fileA) (init_state 2)))
      !! (fileA, page_number (pager_allocate demo_pager
                                (pagerLog (exec (allocBuf demo_pager 8) (init_state 2))) fileA))
      = Some fr ∧
    bufPool (mgr (exec (allocPage demo_pager 8 fileA) (init_state 2))) !! N.to_nat fr
      = Some (pager_allocate demo_pager (pagerLog (exec (allocBuf demo_pager 8) (init_state 2))) fileA) ∧
    pagerLog (exec (allocPage demo_pager 8 fileA) (init_state 2))
      = pagerLog (exec (allocBuf demo_pager 8) (init_state 2)) ++ [AllocatePage fileA] ∧
    wf_pool (mgr (exec (allocPage demo_pager 8 fileA) (init_state 2))).
Proof.
  apply (allocPage_free_frame demo_pager 8 fileA (init_state 2)).
  - apply wf_init_state.
  - vm_compute. reflexivity.
  - vm_compute. reflexivity.
  - apply init_state_free. reflexivity.
  - vm_compute. lia.
  - reflexivity.
  - vm_compute. reflexivity.
Defined.

(** ** Dispose, then fetch *)

(** X16: after [disposePage] of a cached page, the page is fetched anew.
    In a reachable pool with fewer than 2^32 frames, [disposePage] of a
    cached page returns and removes the page from the directory; a
    [readPage] of the same page that follows does not find it there, obtains
    a frame (no write failing at this point) and asks the file for the page:
    the pager log is the old log, the [deletePage], at most one write-back
    of an evicted page, and the [readPage] of the page.  The outcome is the
    pager's: when the read succeeds the page is cached again in the frame
    returned; when it fails, as it may for a page that was deleted, the
    exception leaves [readPage] and the page is not in the directory. *)
Theorem disposePage_then_readPage (pager : Pager) (fuel : nat) (f : File) (p : PageId)
    (s : State) (fr0 : FrameId) :
  wf_pool (mgr s) →
  clockHand (mgr s) < numBufs (mgr s) → numBufs (mgr s) < 2 ^ 32 →
  (N.to_nat (numBufs (mgr s)) ≤ fuel)%nat →
  hashTable (mgr s) !! (f, p) = Some fr0 →
  (∀ g pg, pager_write_ok pager (pagerLog s ++ [DeletePage f p]) g pg = true) →
  result (disposePage f p) s = Return tt ∧
  hashTable (mgr (exec (disposePage f p) s)) !! (f, p) = None ∧
  ∃ w,
    pagerLog (exec (readPage pager fuel f p) (exec (disposePage f p) s))
      = pagerLog s ++ [DeletePage f p] ++ w ++ [ReadPage f p] ∧
    (w = [] ∨ ∃ g pg, w = [WritePage g pg]) ∧
    (pager_read_ok pager (pagerLog s ++ [DeletePage f p] ++ w) f p = true →
       ∃ fr,
         result (readPage pager fuel f p) (exec (disposePage f p) s) = Return fr ∧
         hashTable (mgr (exec (readPage pager fuel f p) (exec (disposePage f p) s))) !! (f, p)
           = Some fr) ∧
    (pager_read_ok pager (pagerLog s ++ [DeletePage f p] ++ w) f p = false →
       result (readPage pager fuel f p) (exec (disposePage f p) s)
         = Throw (PagerIOException (ReadPage f p)) ∧
       hashTable (mgr (exec (readPage pager fuel f p) (exec (disposePage f p) s))) !! (f, p)
         = None).
Proof.
  intros Hwf Hh Hb Hfuel Hl Hwok.
  destruct (wf_dir_frame _ Hwf _ _ _ Hl) as (d & Hd & Hv & Hf & Hp).
  pose proof (disposePage_wf f p s Hwf) as Hwf1.
  destruct (disposePage_frame f p s) as (Hn1 & Hh1).
  unfold result, exec in *.
  rewrite (disposePage_hit f p s fr0 d Hl Hd Hf Hp) in *. simpl in *.
  split; [reflexivity|]. split; [apply lookup_delete_eq|].
  set (s1 := mkState (with_bufDescTable (<[N.to_nat fr0 := Clear d]>)
                        (with_hashTable (delete (f, p)) (mgr s)))
                     (pagerLog s ++ [DeletePage f p])) in *.
  destruct (readPage_free pager fuel f p s1) as (fr & Hfr & Hlog & _ & Hok & Hfail);
    try assumption.
  - exists (N.to_nat fr0), (Clear d). split; [|reflexivity].
    simpl. apply list_lookup_insert_eq. eapply lookup_lt_Some, Hd.
  - simpl. apply lookup_delete_eq.
  - pose proof (allocBuf_alloc_rel pager fuel s1) as (_ & _ & _ & _ & Hw).
    unfold result, exec in *.
    assert (∃ w, pagerLog (snd (allocBuf pager fuel s1)) = pagerLog s ++ [DeletePage f p] ++ w ∧
                 (w = [] ∨ ∃ g pg, w = [WritePage g pg])) as (w & Hw' & Hshape).
    { destruct Hw as [Hw|(g & pg & Hw)].
      - exists []. rewrite Hw. unfold s1. simpl. auto.
      - exists [WritePage g pg]. rewrite Hw. unfold s1. simpl.
        rewrite <- app_assoc. eauto. }
    exists w. rewrite Hw' in Hok, Hfail.
    split; [rewrite Hlog, Hw', <- !app_assoc; reflexivity|].
    split; [exact Hshape|]. split.
    + intros H. destruct (Hok H) as (Hres & _ & Hkey & _). eauto.
    + intros H. destruct (Hfail H) as (Hres & _ & Hkey & _). auto.
Qed.

Lemma disposePage_then_readPage_witness :
  result (disposePage fileA 0) pool_two_pinned = Return tt ∧
  hashTable (mgr (exec (disposePage fileA 0) pool_two_pinned)) !! (fileA, 0) = None ∧
  pagerLog (exec (readPage strict_pager 8 fileA 0) (exec (disposePage fileA 0) pool_two_pinned))
    = pagerLog pool_two_pinned ++ [DeletePage fileA 0; ReadPage fileA 0] ∧
  result (readPage strict_pager 8 fileA 0) (exec (disposePage fileA 0) pool_two_pinned)
    = Throw (PagerIOException (ReadPage fileA 0)).
Proof.
  destruct (disposePage_then_readPage strict_pager 8 fileA 0 pool_two_pinned 0)
    as (H1 & H2 & w & _ & _ & _ & _).
  - apply wf_pool_two_pinned.
  - vm_compute. reflexivity.
  - vm_compute. reflexivity.
  - vm_compute. lia.
  - vm_compute. reflexivity.
  - reflexivity.
  - split; [exact H1|]. split; [exact H2|]. vm_compute. split; reflexivity.
Defined.

(** ** The length of a sweep *)

Lemma allocBuf_loop_bound (fuel : nat) (pc : N) (s : State) :
  numBufs (mgr s) < 2 ^ 32 - 1 →
  (ref_count (bufDescTable (mgr s)) + (N.to_nat (numBufs (mgr s)) + 1 - N.to_nat pc)
   ≤ fuel)%nat →
  fst (allocBuf_loop fuel pc s) ≠ OutOfFuel.
Proof.
  revert pc s. induction fuel as [|fuel IH]; intros pc s Hb Hfuel.
  - rewrite allocBuf_loop_zero.
    destruct (pc <=? numBufs (mgr s)) eqn:Hpc; [|discriminate].
    apply N.leb_le in Hpc. lia.
  - rewrite allocBuf_loop_cases.
    destruct (pc <=? numBufs (mgr s)) eqn:Hpc; [|discriminate].
    apply N.leb_le in Hpc.
    destruct (numBufs (mgr s) =? 0); [discriminate|].
    destruct (bufDescTable (mgr s) !! N.to_nat (next_hand (mgr s))) as [d|] eqn:Hd;
      [|discriminate].
    destruct (negb (valid d)); [discriminate|].
    destruct (refbit d) eqn:Hr.
    + apply (IH pc (updated (next_hand (mgr s)) (set_refbit false d) (advanced s))); simpl.
      * exact Hb.
      * pose proof (ref_count_insert _ _ _ Hd Hr). lia.
    + destruct (pinCnt d =? 0); [discriminate|].
      rewrite wrap32_small by lia.
      apply (IH (pc + 1) (advanced s)); simpl; [exact Hb | lia].
Qed.

(** X17: the sweep is bounded.  With fewer than 2^32 - 1 frames, the loop
    of [allocBuf] ends after at most [r + numBufs + 1] advances of the hand,
    where [r] is the number of reference bits set in the frame table, hence
    after at most [2 * numBufs + 1] advances when the table has [numBufs]
    entries: with that much fuel the call does not run out of it, and more
    fuel does not change its result. *)
Theorem allocBuf_sweep_bound (pager : Pager) (fuel k : nat) (s : State) :
  numBufs (mgr s) < 2 ^ 32 - 1 →
  (ref_count (bufDescTable (mgr s)) + N.to_nat (numBufs (mgr s)) + 1 ≤ fuel)%nat →
  finished (result (allocBuf pager fuel) s) = true ∧
  allocBuf pager (fuel + k) s = allocBuf pager fuel s ∧
  (ref_count (bufDescTable (mgr s)) ≤ length (bufDescTable (mgr s)))%nat.
Proof.
  intros Hb Hfuel.
  assert (result (allocBuf pager fuel) s ≠ OutOfFuel) as Hfin.
  { assert (fst (allocBuf_loop fuel 0 s) ≠ OutOfFuel) as Hloop
      by (apply allocBuf_loop_bound; [exact Hb | simpl; lia]).
    unfold result, allocBuf, allocBuf_from. rewrite bind_run.
    destruct (allocBuf_loop fuel 0 s) as [[[fr|pc']|e| |] s1]; simpl in *;
      try discriminate; try congruence.
    munfold. repeat mcase; discriminate. }
  split; [apply finished_iff, Hfin|].
  split; [apply allocBuf_more_fuel, Hfin | apply ref_count_le].
Qed.

Lemma allocBuf_sweep_bound_witness :
  finished (result (allocBuf demo_pager 5) pool_one_unpinned) = true ∧
  allocBuf demo_pager (5 + 3) pool_one_unpinned = allocBuf demo_pager 5 pool_one_unpinned ∧
  (ref_count (bufDescTable (mgr pool_one_unpinned))
   ≤ length (bufDescTable (mgr pool_one_unpinned)))%nat.
Proof.
  apply (allocBuf_sweep_bound demo_pager 5 3 pool_one_unpinned).
  - vm_compute. reflexivity.
  - vm_compute. lia.
Defined.
